(** * LeafTasks front end: the API client and the screens

    A shallow embedding of [frontend/src/lib/api.ts], of the handlers of the
    [Login], [Register], [VerifyEmail], [AdminUsers], [MyTodos] and
    [SimpleUI] screens and of the state of [App], together with the part of
    the JavaScript runtime those functions lean on (strings, JSON values,
    numbers, [JSON.parse], [JSON.stringify], [atob], ...).

    Conventions.
    - A JavaScript string is the list of its UTF-16 code units ([jsstring]).
    - A JavaScript number is an IEEE-754 binary64 value: Rocq's primitive
      [float].
    - A value that came out of [JSON.parse] is a [JsValue]; [JUndefined] is
      added for absent properties.
    - A step of the language that can throw has a [Completion]; an async
      function is a function of the world that resolves or rejects.
    - Code that reads or writes [localStorage], the clock, the network or
      React state is written against an explicit [World]. *)

From Stdlib Require Import ZArith NArith List Ascii String Bool Lia.
From Stdlib Require Import PrimFloat SpecFloat FloatOps FloatAxioms.
From stdpp Require Import gmap.
Import ListNotations.

(* ===================================================================== *)
(** ** Part 1: the JavaScript runtime                                     *)
(* ===================================================================== *)

Module Js.

Local Open Scope N_scope.

(** *** Strings *)

Definition jsstring : Type := list N.

(** A source-code literal (ASCII) as a JavaScript string. *)
Definition js (s : string) : jsstring :=
  map N_of_ascii (list_ascii_of_string s).

Fixpoint str_eqb (a b : jsstring) : bool :=
  match a, b with
  | [], [] => true
  | x :: a', y :: b' => (x =? y) && str_eqb a' b'
  | _, _ => false
  end.

(** [s.length] *)
Definition str_length (s : jsstring) : Z := Z.of_nat (List.length s).

Fixpoint starts_with (p s : jsstring) : bool :=
  match p, s with
  | [], _ => true
  | x :: p', y :: s' => (x =? y) && starts_with p' s'
  | _ :: _, [] => false
  end.

(** [s.includes(p)] *)
Fixpoint includes (p s : jsstring) : bool :=
  starts_with p s ||
  match s with
  | [] => false
  | _ :: s' => includes p s'
  end.

(** [s.split(sep)] for a separator of one code unit. *)
Fixpoint split_on (sep : N) (s : jsstring) : list jsstring :=
  match s with
  | [] => [[]]
  | c :: s' =>
      if c =? sep then [] :: split_on sep s'
      else match split_on sep s' with
           | [] => [[c]]
           | w :: ws => (c :: w) :: ws
           end
  end.

(** [s.replace(/a/g, b)] for single code units [a] and [b]. *)
Definition replace_all (a b : N) (s : jsstring) : jsstring :=
  map (fun c => if c =? a then b else c) s.

Fixpoint join (sep : jsstring) (l : list jsstring) : jsstring :=
  match l with
  | [] => []
  | [x] => x
  | x :: l' => x ++ sep ++ join sep l'
  end.

(** *** Character classes *)

Definition is_digit (c : N) : bool := (48 <=? c) && (c <=? 57).
Definition is_upper (c : N) : bool := (65 <=? c) && (c <=? 90).
Definition is_lower (c : N) : bool := (97 <=? c) && (c <=? 122).
Definition is_alnum (c : N) : bool := is_digit c || is_upper c || is_lower c.

Definition hex_val (c : N) : option N :=
  if is_digit c then Some (c - 48)
  else if (65 <=? c) && (c <=? 70) then Some (c - 55)
  else if (97 <=? c) && (c <=? 102) then Some (c - 87)
  else None.

Definition hex_digit_lower (d : N) : N := if d <? 10 then 48 + d else 87 + d.
Definition hex_digit_upper (d : N) : N := if d <? 10 then 48 + d else 55 + d.

Fixpoint span (p : N -> bool) (s : jsstring) : jsstring * jsstring :=
  match s with
  | [] => ([], [])
  | c :: s' =>
      if p c then let (a, b) := span p s' in (c :: a, b) else ([], s)
  end.

(** The value of a run of digits in base [base] ([hex_val] of each). *)
Definition digits_value (base : Z) (ds : jsstring) : Z :=
  fold_left
    (fun acc c => (acc * base + Z.of_N (default 0%N (hex_val c)))%Z) ds 0%Z.

(** *** Numbers *)

Definition Z2float (z : Z) : float :=
  SF2Prim (binary_normalize prec emax z 0 false).

Fixpoint uint_digits (u : Decimal.uint) : jsstring :=
  match u with
  | Decimal.Nil => []
  | Decimal.D0 u' => 48 :: uint_digits u'
  | Decimal.D1 u' => 49 :: uint_digits u'
  | Decimal.D2 u' => 50 :: uint_digits u'
  | Decimal.D3 u' => 51 :: uint_digits u'
  | Decimal.D4 u' => 52 :: uint_digits u'
  | Decimal.D5 u' => 53 :: uint_digits u'
  | Decimal.D6 u' => 54 :: uint_digits u'
  | Decimal.D7 u' => 55 :: uint_digits u'
  | Decimal.D8 u' => 56 :: uint_digits u'
  | Decimal.D9 u' => 57 :: uint_digits u'
  end.

(** The decimal digits of a non-negative integer (["0"] for zero). *)
Definition nat_digits (z : Z) : jsstring :=
  match z with
  | Zpos p => uint_digits (Pos.to_uint p)
  | _ => [48]
  end.

(** The binary64 value nearest to [(-1)^neg * M * 10^E] (ties to even), as
    the engine rounds the mathematical value of a numeric literal.  The two
    early exits keep the powers of ten small: with [d] digits in [M], the
    value is at least [10^(E)] and below [10^(d+E)]. *)
Definition dec2float (neg : bool) (M E : Z) : float :=
  match M with
  | Zpos m =>
      let d := Z.of_nat (List.length (nat_digits M)) in
      if (310 <? E)%Z then (if neg then neg_infinity else infinity)
      else if (d + E <? -330)%Z then (if neg then neg_zero else zero)
      else if (0 <=? E)%Z then
        SF2Prim (binary_round prec emax neg (m * Z.to_pos (10 ^ E))%positive 0)
      else
        SF2Prim (SFdiv prec emax (S754_finite neg m 0)
                   (S754_finite false (Z.to_pos (10 ^ (- E))) 0))
  | _ => if neg then neg_zero else zero
  end.

(** The integer [n] and the digits of the integer [s] of Number::toString:
    [k >= 1] digits, as few as possible, such that [s * 10^(n-k)] rounds to
    the number; among several [s] the one nearest to the number, and the even
    one on a tie.  [num/den] is the number's exact (positive) value. *)
Section Shortest.
Variable f : float.
Variables num den : Z.

Definition decimal_exponent : Z :=
  (Z.of_nat (List.length (nat_digits (num * 10 ^ 400 / den))) - 400)%Z.

Definition candidate (n k : Z) : option Z :=
  let a := (k - n)%Z in
  let P := if (0 <=? a)%Z then (num * 10 ^ a)%Z else num in
  let Q := if (0 <=? a)%Z then den else (den * 10 ^ (- a))%Z in
  let lo := (P / Q)%Z in
  let r := (P mod Q)%Z in
  let hi := (lo + 1)%Z in
  let ok c := (0 <? c)%Z && PrimFloat.eqb (dec2float false c (n - k)) f in
  if (r =? 0)%Z then (if ok lo then Some lo else None)
  else
    match ok lo, ok hi with
    | true, true =>
        match (2 * r ?= Q)%Z with
        | Lt => Some lo
        | Gt => Some hi
        | Eq => Some (if Z.even lo then lo else hi)
        end
    | true, false => Some lo
    | false, true => Some hi
    | false, false => None
    end.

Fixpoint shortest_from (fuel : nat) (n k : Z) : jsstring * Z :=
  match fuel with
  | O => (nat_digits (num * 10 ^ 400 / den), n)
  | S fuel' =>
      match candidate n k with
      | Some c =>
          if (c =? 10 ^ k)%Z then ([49], (n + 1)%Z) else (nat_digits c, n)
      | None => shortest_from fuel' n (k + 1)%Z
      end
  end.

Definition shortest : jsstring * Z :=
  shortest_from 17 decimal_exponent 1%Z.
End Shortest.

Definition zeros (n : Z) : jsstring := repeat 48 (Z.to_nat n).

(** The layout steps of Number::toString for digits [ds] and exponent [n]. *)
Definition format_number (ds : jsstring) (n : Z) : jsstring :=
  let k := Z.of_nat (List.length ds) in
  if ((k <=? n) && (n <=? 21))%Z then ds ++ zeros (n - k)
  else if ((0 <? n) && (n <=? 21))%Z then
    firstn (Z.to_nat n) ds ++ [46] ++ skipn (Z.to_nat n) ds
  else if ((-6 <? n) && (n <=? 0))%Z then [48; 46] ++ zeros (- n) ++ ds
  else
    let e := (n - 1)%Z in
    let sign := if (e <? 0)%Z then 45 else 43 in
    match ds with
    | [] => []
    | [d] => [d; 101; sign] ++ nat_digits (Z.abs e)
    | d :: rest => d :: 46 :: rest ++ [101; sign] ++ nat_digits (Z.abs e)
    end.

(** Number::toString(x), radix 10. *)
Definition Number_toString (x : float) : jsstring :=
  match Prim2SF x with
  | S754_nan => js "NaN"
  | S754_zero _ => js "0"
  | S754_infinity s => if s then js "-Infinity" else js "Infinity"
  | S754_finite s m e =>
      let num := if (0 <=? e)%Z then (Zpos m * 2 ^ e)%Z else Zpos m in
      let den := if (0 <=? e)%Z then 1%Z else (2 ^ (- e))%Z in
      let (ds, n) := shortest (abs x) num den in
      (if s then [45] else []) ++ format_number ds n
  end.

(** [Math.floor] *)
Definition Math_floor (x : float) : float :=
  match Prim2SF x with
  | S754_finite s m e =>
      if (0 <=? e)%Z then x
      else
        let q := (Zpos m / 2 ^ (- e))%Z in
        let r := (Zpos m mod 2 ^ (- e))%Z in
        if s then Z2float (- (if (r =? 0)%Z then q else q + 1))%Z
        else Z2float q
  | _ => x
  end.

(** The exponent part of a decimal literal: nothing, or [e], a sign and
    digits up to the end. *)
Definition parse_exp (cs : jsstring) : option Z :=
  match cs with
  | [] => Some 0%Z
  | c :: r =>
      if (c =? 101) || (c =? 69) then
        let '(sg, r1) :=
          match r with
          | 43 :: r' => (false, r')
          | 45 :: r' => (true, r')
          | _ => (false, r)
          end in
        let (ds, r2) := span is_digit r1 in
        match ds, r2 with
        | _ :: _, [] =>
            Some (if sg then (- digits_value 10 ds)%Z else digits_value 10 ds)
        | _, _ => None
        end
      else None
  end.

(** A JSON number: an optional minus, an integer part without a leading
    zero (unless it is the single digit 0), an optional fraction with at least
    one digit, an optional exponent. *)
Definition json_number (cs : jsstring) : option float :=
  let '(neg, r0) :=
    match cs with 45 :: r => (true, r) | _ => (false, cs) end in
  let (ip, r1) := span is_digit r0 in
  let int_ok :=
    match ip with
    | [] => false
    | [_] => true
    | 48 :: _ => false
    | _ => true
    end in
  let '(fp, frac_ok, r2) :=
    match r1 with
    | 46 :: r =>
        let (d, r') := span is_digit r in
        (d, match d with [] => false | _ => true end, r')
    | _ => ([], true, r1)
    end in
  if int_ok && frac_ok then
    match parse_exp r2 with
    | Some ex =>
        Some (dec2float neg (digits_value 10 (ip ++ fp))
                (ex - Z.of_nat (List.length fp))%Z)
    | None => None
    end
  else None.

(** WhiteSpace and LineTerminator code units, as StringToNumber trims. *)
Definition is_js_space (c : N) : bool :=
  (c =? 9) || (c =? 10) || (c =? 11) || (c =? 12) || (c =? 13) || (c =? 32)
  || (c =? 160) || (c =? 5760) || ((8192 <=? c) && (c <=? 8202))
  || (c =? 8232) || (c =? 8233) || (c =? 8239) || (c =? 8287)
  || (c =? 12288) || (c =? 65279).

Fixpoint drop_while (p : N -> bool) (s : jsstring) : jsstring :=
  match s with
  | [] => []
  | c :: s' => if p c then drop_while p s' else s
  end.

Definition trim (s : jsstring) : jsstring :=
  rev (drop_while is_js_space (rev (drop_while is_js_space s))).

(** [0x..], [0o..], [0b..] (either case of the letter), unsigned. *)
Definition radix_literal (t : jsstring) : option float :=
  match t with
  | 48 :: c :: ds =>
      let lit (base : Z) :=
        match ds with
        | [] => None
        | _ =>
            if forallb (fun d => match hex_val d with
                                 | Some v => (Z.of_N v <? base)%Z
                                 | None => false
                                 end) ds
            then Some (Z2float (digits_value base ds)) else None
        end in
      if (c =? 120) || (c =? 88) then lit 16%Z
      else if (c =? 111) || (c =? 79) then lit 8%Z
      else if (c =? 98) || (c =? 66) then lit 2%Z
      else None
  | _ => None
  end.

(** StrDecimalLiteral: an optional sign, then [Infinity] or digits with an
    optional fraction (digits on at least one side of the point) and an
    optional exponent. *)
Definition decimal_literal (t : jsstring) : option float :=
  let '(neg, r0) :=
    match t with
    | 43 :: r => (false, r)
    | 45 :: r => (true, r)
    | _ => (false, t)
    end in
  if str_eqb r0 (js "Infinity") then
    Some (if neg then neg_infinity else infinity)
  else
    let (ip, r1) := span is_digit r0 in
    let '(fp, r2) :=
      match r1 with
      | 46 :: r => span is_digit r
      | _ => ([], r1)
      end in
    match ip ++ fp with
    | [] => None
    | ds =>
        match parse_exp r2 with
        | Some ex =>
            Some (dec2float neg (digits_value 10 ds)
                    (ex - Z.of_nat (List.length fp))%Z)
        | None => None
        end
    end.

(** StringToNumber *)
Definition StringToNumber (s : jsstring) : float :=
  match trim s with
  | [] => zero
  | t =>
      match radix_literal t with
      | Some x => x
      | None => default nan (decimal_literal t)
      end
  end.

(** *** Values *)

#[local] Unset Elimination Schemes.
Inductive JsValue : Type :=
| JUndefined
| JNull
| JBool (b : bool)
| JNum (x : float)
| JStr (s : jsstring)
| JArr (elems : list JsValue)
| JObj (members : list (jsstring * JsValue)).
#[local] Set Elimination Schemes.

(** ToBoolean *)
Definition truthy (v : JsValue) : bool :=
  match v with
  | JUndefined | JNull => false
  | JBool b => b
  | JNum x => negb (is_zero x || is_nan x)
  | JStr s => match s with [] => false | _ => true end
  | JArr _ | JObj _ => true
  end.

(** The own property [k] of an object built by [JSON.parse]; a later
    duplicate of a key overrides an earlier one. *)
Fixpoint own_property (k : jsstring) (members : list (jsstring * JsValue))
  : option JsValue :=
  match members with
  | [] => None
  | (k', v) :: rest =>
      match own_property k rest with
      | Some v' => Some v'
      | None => if str_eqb k k' then Some v else None
      end
  end.

(** The errors the engine raises itself in the code below. *)
Inductive ErrorName : Type := SyntaxError | TypeError.

(** An operation of the language returns a value or throws. *)
Inductive Completion (A : Type) : Type :=
| Returns (a : A)
| Throws (n : ErrorName).
Arguments Returns {A} a.
Arguments Throws {A} n.

Definition and_then {A B} (c : Completion A) (k : A -> Completion B)
  : Completion B :=
  match c with
  | Returns a => k a
  | Throws n => Throws n
  end.

Definition Boolean_toString (b : bool) : jsstring :=
  if b then js "true" else js "false".

(** ToString.  An array goes through [Array.prototype.join].  An object
    from [JSON.parse] inherits [Object.prototype.toString], unless it has a
    member named [toString] itself: that member is not callable, [valueOf]
    gives back the object, and the conversion throws a TypeError. *)
Fixpoint ToString (v : JsValue) : Completion jsstring :=
  match v with
  | JUndefined => Returns (js "undefined")
  | JNull => Returns (js "null")
  | JBool b => Returns (Boolean_toString b)
  | JNum x => Returns (Number_toString x)
  | JStr s => Returns s
  | JArr elems =>
      and_then
        ((fix each (l : list JsValue) : Completion (list jsstring) :=
            match l with
            | [] => Returns []
            | e :: l' =>
                and_then
                  (match e with
                   | JUndefined | JNull => Returns []
                   | _ => ToString e
                   end)
                  (fun s => and_then (each l') (fun ss => Returns (s :: ss)))
            end) elems)
        (fun parts => Returns (join [44] parts))
  | JObj members =>
      match own_property (js "toString") members with
      | Some _ => Throws TypeError
      | None => Returns (js "[object Object]")
      end
  end.

(** ToNumber *)
Definition ToNumber (v : JsValue) : Completion float :=
  match v with
  | JUndefined => Returns nan
  | JNull => Returns zero
  | JBool b => Returns (if b then one else zero)
  | JNum x => Returns x
  | JStr s => Returns (StringToNumber s)
  | JArr _ | JObj _ => and_then (ToString v) (fun s => Returns (StringToNumber s))
  end.

(** [a <= b] with a number on the right: both sides go through ToNumber and
    a NaN makes the comparison false. *)
Definition js_le (a : JsValue) (b : float) : Completion bool :=
  and_then (ToNumber a) (fun x => Returns (PrimFloat.leb x b)).

(** [v.k] for a [v] that is neither [null] nor [undefined], and a name [k]
    that no prototype defines ([exp], [adm], [detail], [access_token], the
    flag names): only an object can hold it. *)
Definition get (v : JsValue) (k : jsstring) : JsValue :=
  match v with
  | JObj members => default JUndefined (own_property k members)
  | _ => JUndefined
  end.

(** [v?.k] *)
Definition get_opt (v : JsValue) (k : jsstring) : JsValue :=
  match v with
  | JUndefined | JNull => JUndefined
  | _ => get v k
  end.

(** [a || b] *)
Definition js_or (a b : JsValue) : JsValue := if truthy a then a else b.

(** *** JSON.parse

    The text is read in one pass by a lexer automaton, and the tokens in one
    pass by a parser with an explicit stack of the arrays and objects that are
    still open; [None] is a SyntaxError. *)

Inductive token : Type :=
| TLBrace | TRBrace | TLBrack | TRBrack | TColon | TComma
| TValue (v : JsValue).

Inductive lexstate : Type :=
| LStart
| LStr (acc : jsstring)
| LEsc (acc : jsstring)
| LHex (acc : jsstring) (v : N) (todo : nat)
| LNum (acc : jsstring)
| LLit (rest : jsstring) (v : JsValue).

Definition is_json_ws (c : N) : bool :=
  (c =? 9) || (c =? 10) || (c =? 13) || (c =? 32).

Definition is_number_char (c : N) : bool :=
  is_digit c || (c =? 43) || (c =? 45) || (c =? 46) || (c =? 69) || (c =? 101).

Definition lex_start (c : N) : option (list token * lexstate) :=
  if is_json_ws c then Some ([], LStart)
  else if c =? 123 then Some ([TLBrace], LStart)
  else if c =? 125 then Some ([TRBrace], LStart)
  else if c =? 91 then Some ([TLBrack], LStart)
  else if c =? 93 then Some ([TRBrack], LStart)
  else if c =? 58 then Some ([TColon], LStart)
  else if c =? 44 then Some ([TComma], LStart)
  else if c =? 34 then Some ([], LStr [])
  else if (c =? 45) || is_digit c then Some ([], LNum [c])
  else if c =? 116 then Some ([], LLit (js "rue") (JBool true))
  else if c =? 102 then Some ([], LLit (js "alse") (JBool false))
  else if c =? 110 then Some ([], LLit (js "ull") JNull)
  else None.

Definition unescape (c : N) : option N :=
  if (c =? 34) || (c =? 92) || (c =? 47) then Some c
  else if c =? 98 then Some 8
  else if c =? 102 then Some 12
  else if c =? 110 then Some 10
  else if c =? 114 then Some 13
  else if c =? 116 then Some 9
  else None.

Definition lex_step (st : lexstate) (c : N) : option (list token * lexstate) :=
  match st with
  | LStart => lex_start c
  | LStr acc =>
      if c =? 34 then Some ([TValue (JStr (rev acc))], LStart)
      else if c =? 92 then Some ([], LEsc acc)
      else if c <? 32 then None
      else Some ([], LStr (c :: acc))
  | LEsc acc =>
      if c =? 117 then Some ([], LHex acc 0 4)
      else match unescape c with
           | Some x => Some ([], LStr (x :: acc))
           | None => None
           end
  | LHex acc v todo =>
      match hex_val c, todo with
      | Some d, S O => Some ([], LStr ((v * 16 + d) :: acc))
      | Some d, S todo' => Some ([], LHex acc (v * 16 + d) todo')
      | _, _ => None
      end
  | LNum acc =>
      if is_number_char c then Some ([], LNum (c :: acc))
      else
        match json_number (rev acc), lex_start c with
        | Some x, Some (ts, st') => Some (TValue (JNum x) :: ts, st')
        | _, _ => None
        end
  | LLit rest v =>
      match rest with
      | r :: rest' =>
          if c =? r then
            match rest' with
            | [] => Some ([TValue v], LStart)
            | _ => Some ([], LLit rest' v)
            end
          else None
      | [] => None
      end
  end.

Fixpoint lex (st : lexstate) (s : jsstring) : option (list token) :=
  match s with
  | [] =>
      match st with
      | LStart => Some []
      | LNum acc =>
          match json_number (rev acc) with
          | Some x => Some [TValue (JNum x)]
          | None => None
          end
      | _ => None
      end
  | c :: s' =>
      match lex_step st c with
      | Some (ts, st') =>
          match lex st' s' with
          | Some ts' => Some (ts ++ ts')
          | None => None
          end
      | None => None
      end
  end.

(** An array or an object that is still open: what it holds so far (latest
    first) and, for an object, the key whose value is being read. *)
Inductive frame : Type :=
| FArr (acc : list JsValue)
| FObj (acc : list (jsstring * JsValue)) (key : jsstring).

Inductive pstate : Type :=
| PValue (stk : list frame)
| PArrFirst (stk : list frame)
| PObjFirst (stk : list frame)
| PObjKey (acc : list (jsstring * JsValue)) (stk : list frame)
| PColon (acc : list (jsstring * JsValue)) (key : jsstring) (stk : list frame)
| PAfter (v : JsValue) (stk : list frame).

Definition parse_value (t : token) (stk : list frame) : option pstate :=
  match t with
  | TValue v => Some (PAfter v stk)
  | TLBrack => Some (PArrFirst stk)
  | TLBrace => Some (PObjFirst stk)
  | _ => None
  end.

Definition parse_step (st : pstate) (t : token) : option pstate :=
  match st with
  | PValue stk => parse_value t stk
  | PArrFirst stk =>
      match t with
      | TRBrack => Some (PAfter (JArr []) stk)
      | _ => parse_value t (FArr [] :: stk)
      end
  | PObjFirst stk =>
      match t with
      | TRBrace => Some (PAfter (JObj []) stk)
      | TValue (JStr k) => Some (PColon [] k stk)
      | _ => None
      end
  | PObjKey acc stk =>
      match t with
      | TValue (JStr k) => Some (PColon acc k stk)
      | _ => None
      end
  | PColon acc k stk =>
      match t with
      | TColon => Some (PValue (FObj acc k :: stk))
      | _ => None
      end
  | PAfter v stk =>
      match stk, t with
      | FArr acc :: stk', TComma => Some (PValue (FArr (v :: acc) :: stk'))
      | FArr acc :: stk', TRBrack => Some (PAfter (JArr (rev (v :: acc))) stk')
      | FObj acc k :: stk', TComma => Some (PObjKey ((k, v) :: acc) stk')
      | FObj acc k :: stk', TRBrace =>
          Some (PAfter (JObj (rev ((k, v) :: acc))) stk')
      | _, _ => None
      end
  end.

Fixpoint parse (st : pstate) (ts : list token) : option JsValue :=
  match ts with
  | [] =>
      match st with
      | PAfter v [] => Some v
      | _ => None
      end
  | t :: ts' =>
      match parse_step st t with
      | Some st' => parse st' ts'
      | None => None
      end
  end.

Definition JSON_parse (text : jsstring) : option JsValue :=
  match lex LStart text with
  | Some ts => parse (PValue []) ts
  | None => None
  end.

(** *** atob (forgiving-base64 decode); [None] is an InvalidCharacterError. *)

Definition b64_val (c : N) : option N :=
  if is_upper c then Some (c - 65)
  else if is_lower c then Some (c - 71)
  else if is_digit c then Some (c + 4)
  else if c =? 43 then Some 62
  else if c =? 47 then Some 63
  else None.

Definition is_ascii_ws (c : N) : bool :=
  (c =? 9) || (c =? 10) || (c =? 12) || (c =? 13) || (c =? 32).

Fixpoint b64_vals (s : jsstring) : option (list N) :=
  match s with
  | [] => Some []
  | c :: s' =>
      match b64_val c, b64_vals s' with
      | Some v, Some vs => Some (v :: vs)
      | _, _ => None
      end
  end.

Fixpoint b64_bytes (vs : list N) : jsstring :=
  match vs with
  | a :: b :: c :: d :: rest =>
      (a * 4 + b / 16) :: ((b mod 16) * 16 + c / 4) :: ((c mod 4) * 64 + d)
      :: b64_bytes rest
  | [a; b; c] => [a * 4 + b / 16; (b mod 16) * 16 + c / 4]
  | [a; b] => [a * 4 + b / 16]
  | _ => []
  end.

Definition atob (data : jsstring) : option jsstring :=
  let d1 := List.filter (fun c => negb (is_ascii_ws c)) data in
  let d2 :=
    if (N.of_nat (List.length d1) mod 4 =? 0) then
      match rev d1 with
      | 61 :: 61 :: r => rev r
      | 61 :: r => rev r
      | _ => d1
      end
    else d1 in
  if (N.of_nat (List.length d2) mod 4 =? 1) then None
  else option_map b64_bytes (b64_vals d2).

(** *** Serialisers used when a request is built *)

Definition is_high_surrogate (c : N) : bool := (55296 <=? c) && (c <=? 56319).
Definition is_low_surrogate (c : N) : bool := (56320 <=? c) && (c <=? 57343).

(** The scalar values of a string; a lone surrogate reads as U+FFFD. *)
Fixpoint scalar_values (s : jsstring) : list N :=
  match s with
  | [] => []
  | c :: s' =>
      if is_high_surrogate c then
        match s' with
        | d :: s'' =>
            if is_low_surrogate d
            then (65536 + (c - 55296) * 1024 + (d - 56320)) :: scalar_values s''
            else 65533 :: scalar_values s'
        | [] => [65533]
        end
      else if is_low_surrogate c then 65533 :: scalar_values s'
      else c :: scalar_values s'
  end.

Definition utf8_of_scalar (cp : N) : list N :=
  if cp <? 128 then [cp]
  else if cp <? 2048 then [192 + cp / 64; 128 + cp mod 64]
  else if cp <? 65536 then
    [224 + cp / 4096; 128 + (cp / 64) mod 64; 128 + cp mod 64]
  else
    [240 + cp / 262144; 128 + (cp / 4096) mod 64; 128 + (cp / 64) mod 64;
     128 + cp mod 64].

Definition utf8_encode (s : jsstring) : list N :=
  flat_map utf8_of_scalar (scalar_values s).

(** application/x-www-form-urlencoded byte serialisation. *)
Definition urlencode_byte (b : N) : jsstring :=
  if is_alnum b || (b =? 42) || (b =? 45) || (b =? 46) || (b =? 95) then [b]
  else if b =? 32 then [43]
  else [37; hex_digit_upper (b / 16); hex_digit_upper (b mod 16)].

Definition urlencode (s : jsstring) : jsstring :=
  flat_map urlencode_byte (utf8_encode s).

(** [new URLSearchParams()] filled by [append], then [toString()]. *)
Definition URLSearchParams_toString (params : list (jsstring * jsstring))
  : jsstring :=
  join [38] (map (fun '(k, v) => urlencode k ++ [61] ++ urlencode v) params).

Definition unicode_escape (c : N) : jsstring :=
  [92; 117; hex_digit_lower (c / 4096); hex_digit_lower ((c / 256) mod 16);
   hex_digit_lower ((c / 16) mod 16); hex_digit_lower (c mod 16)].

(** QuoteJSONString without the surrounding quotes. *)
Fixpoint quote_body (s : jsstring) : jsstring :=
  match s with
  | [] => []
  | c :: s' =>
      if c =? 8 then 92 :: 98 :: quote_body s'
      else if c =? 9 then 92 :: 116 :: quote_body s'
      else if c =? 10 then 92 :: 110 :: quote_body s'
      else if c =? 12 then 92 :: 102 :: quote_body s'
      else if c =? 13 then 92 :: 114 :: quote_body s'
      else if c =? 34 then 92 :: 34 :: quote_body s'
      else if c =? 92 then 92 :: 92 :: quote_body s'
      else if c <? 32 then unicode_escape c ++ quote_body s'
      else if is_high_surrogate c then
        match s' with
        | d :: s'' =>
            if is_low_surrogate d then c :: d :: quote_body s''
            else unicode_escape c ++ quote_body s'
        | [] => unicode_escape c
        end
      else if is_low_surrogate c then unicode_escape c ++ quote_body s'
      else c :: quote_body s'
  end.

Definition QuoteJSONString (s : jsstring) : jsstring :=
  [34] ++ quote_body s ++ [34].

(** [JSON.stringify(v)] for a value made of object and array literals,
    strings, booleans and numbers (nothing has a [toJSON], and there is no
    replacer); [None] is [undefined].  The members of an object come in its
    property order (the order they were written in, for names that are not
    array indices).  A member whose value is [undefined] is left out; an
    [undefined] element of an array is written [null], and so is a number
    that is not finite. *)
Fixpoint JSON_stringify (v : JsValue) : option jsstring :=
  match v with
  | JUndefined => None
  | JNull => Some (js "null")
  | JBool b => Some (Boolean_toString b)
  | JNum x => Some (if is_finite x then Number_toString x else js "null")
  | JStr s => Some (QuoteJSONString s)
  | JArr elems =>
      Some ([91]
            ++ join [44]
                 (map (fun e => default (js "null") (JSON_stringify e)) elems)
            ++ [93])
  | JObj members =>
      Some ([123]
            ++ join [44]
                 (flat_map
                    (fun m =>
                       match JSON_stringify (snd m) with
                       | Some s => [QuoteJSONString (fst m) ++ [58] ++ s]
                       | None => []
                       end) members)
            ++ [125])
  end.

(** What the forms and the flags of the screens hold: strings and
    booleans. *)
Definition is_string_or_boolean (v : JsValue) : bool :=
  match v with
  | JStr _ | JBool _ => true
  | _ => false
  end.

(** For the statements that relate [JSON.stringify] and [JSON.parse] on an
    object of such values: the text of one member and its tokens, the tokens
    that follow a member up to the closing brace, and a token put in front of
    the tokens of the rest of a text (when the rest has tokens). *)
Definition member_text (m : jsstring * JsValue) : jsstring :=
  QuoteJSONString (fst m) ++ [58] ++ default [] (JSON_stringify (snd m)).

Definition member_tokens (m : jsstring * JsValue) : list token :=
  [TValue (JStr (fst m)); TColon; TValue (snd m)].

Fixpoint more_tokens (ms : list (jsstring * JsValue)) : list token :=
  match ms with
  | [] => [TRBrace]
  | m :: ms' => TComma :: member_tokens m ++ more_tokens ms'
  end.

Definition emit (t : token) (rest : option (list token)) : option (list token) :=
  match rest with
  | Some ts => Some (t :: ts)
  | None => None
  end.

Definition emits (ts : list token) (rest : option (list token))
  : option (list token) :=
  fold_right emit rest ts.

(** The characters [encodeURIComponent] leaves as they are: letters, digits
    and [- _ . ! ~ * ' ( )]. *)
Definition is_uri_unreserved (c : N) : bool :=
  is_alnum c || (c =? 45) || (c =? 95) || (c =? 46) || (c =? 33) || (c =? 126)
  || (c =? 42) || (c =? 39) || (c =? 40) || (c =? 41).

Definition percent_encode (bytes : list N) : jsstring :=
  flat_map (fun b => [37; hex_digit_upper (b / 16); hex_digit_upper (b mod 16)])
    bytes.

(** [encodeURIComponent(s)]; [None] is the URIError it throws at a
    surrogate that has no partner. *)
Fixpoint encodeURIComponent (s : jsstring) : option jsstring :=
  match s with
  | [] => Some []
  | c :: s' =>
      if is_uri_unreserved c then option_map (cons c) (encodeURIComponent s')
      else if is_high_surrogate c then
        match s' with
        | d :: s'' =>
            if is_low_surrogate d then
              option_map
                (app (percent_encode
                        (utf8_of_scalar
                           (65536 + (c - 55296) * 1024 + (d - 56320)))))
                (encodeURIComponent s'')
            else None
        | [] => None
        end
      else if is_low_surrogate c then None
      else
        option_map (app (percent_encode (utf8_of_scalar c)))
          (encodeURIComponent s')
  end.

End Js.

(* ===================================================================== *)
(** ** Part 2: [frontend/src/lib/api.ts]                                  *)
(* ===================================================================== *)

Module Api.
Import Js.

(** *** The browser around the client *)

Record Request : Type := {
  req_method : jsstring;
  req_url : jsstring;
  req_headers : list (jsstring * jsstring);
  req_body : option jsstring
}.

(** What the client reads of a [Response]: [status], [statusText],
    [headers.get("Content-Type")] and the body text. *)
Record Response : Type := {
  res_status : Z;
  res_statusText : jsstring;
  res_contentType : option jsstring;
  res_body : jsstring
}.

(** [res.ok] *)
Definition res_ok (res : Response) : bool :=
  (200 <=? res_status res)%Z && (res_status res <=? 299)%Z.

(** What a call of [fetch] comes to: a response, or a rejection with a
    TypeError (no response arrives, or [fetch] refuses the request, for
    instance for a header value it cannot send). *)
Inductive FetchResult : Type :=
| NetworkError (message : jsstring)
| Reply (res : Response).

(** The network, as seen from one call of [fetch]. *)
Definition Network : Type := Request -> FetchResult.

(** A thrown [Error], by the three properties the callers read; the last two
    are set by [handleJsonResponse] only ([None] and [JUndefined] are the
    absent property). *)
Record JsError : Type := {
  err_message : jsstring;
  err_status : option Z;
  err_data : JsValue
}.

(** [storage] is [localStorage] (taken to work: no quota and no security
    error), [clock] is what [Date.now()] returns (milliseconds), [sent] lists
    the requests handed to [fetch], oldest first, and [engine_text] is the
    wording the engine gives to the errors it raises itself. *)
Record World : Type := {
  storage : gmap jsstring jsstring;
  clock : Z;
  sent : list Request;
  engine_text : ErrorName -> jsstring
}.

Definition with_storage (f : gmap jsstring jsstring -> gmap jsstring jsstring)
  (w : World) : World :=
  {| storage := f (storage w); clock := clock w; sent := sent w;
     engine_text := engine_text w |}.

Definition with_sent (f : list Request -> list Request) (w : World) : World :=
  {| storage := storage w; clock := clock w; sent := f (sent w);
     engine_text := engine_text w |}.

Definition localStorage_getItem (k : jsstring) (w : World) : option jsstring :=
  storage w !! k.
Definition localStorage_setItem (k v : jsstring) : World -> World :=
  with_storage (insert k v).
Definition localStorage_removeItem (k : jsstring) : World -> World :=
  with_storage (delete k).

Definition Date_now (w : World) : float := Z2float (clock w).

(** *** Async functions: a result or a thrown error, and the world after *)

Inductive Outcome (A : Type) : Type :=
| Resolved (a : A)
| Rejected (e : JsError).
Arguments Resolved {A} a.
Arguments Rejected {A} e.

Definition Async (A : Type) : Type := World -> Outcome A * World.

Definition ret {A} (a : A) : Async A := fun w => (Resolved a, w).
Definition throw {A} (e : JsError) : Async A := fun w => (Rejected e, w).
Definition bind {A B} (m : Async A) (k : A -> Async B) : Async B :=
  fun w =>
    match m w with
    | (Resolved a, w') => k a w'
    | (Rejected e, w') => (Rejected e, w')
    end.
Definition effect (f : World -> World) : Async unit := fun w => (Resolved tt, f w).

Notation "'let*' x := m 'in' k" := (bind m (fun x => k))
  (at level 10, x name, m at level 100, k at level 200).
Notation "'do' m 'then' k" := (bind m (fun _ => k))
  (at level 10, m at level 100, k at level 200).

Definition engine_error (n : ErrorName) (w : World) : JsError :=
  {| err_message := engine_text w n; err_status := None;
     err_data := JUndefined |}.

Definition throw_engine {A} (n : ErrorName) : Async A :=
  fun w => (Rejected (engine_error n w), w).

(** A step that may throw, inside an async function. *)
Definition lift {A} (c : Completion A) : Async A :=
  match c with
  | Returns a => ret a
  | Throws n => throw_engine n
  end.

Definition fetch (net : Network) (req : Request) : Async Response :=
  fun w =>
    let w' := with_sent (fun l => l ++ [req]) w in
    match net req with
    | Reply res => (Resolved res, w')
    | NetworkError msg =>
        (Rejected {| err_message := msg; err_status := None;
                     err_data := JUndefined |}, w')
    end.

(** [res.json()] *)
Definition res_json (res : Response) : Async JsValue :=
  match JSON_parse (res_body res) with
  | Some v => ret v
  | None => throw_engine SyntaxError
  end.

(** [v.k] where the engine throws on [null] and [undefined]. *)
Definition get_or_throw (v : JsValue) (k : jsstring) : Async JsValue :=
  match v with
  | JUndefined | JNull => throw_engine TypeError
  | _ => ret (get v k)
  end.

(** *** api.ts *)

Definition BASE : jsstring := js "/api".
Definition TOKEN_KEY : jsstring := js "access_token".
Definition EMAIL_KEY : jsstring := js "current_email".

Definition getToken (w : World) : option jsstring :=
  localStorage_getItem TOKEN_KEY w.

Definition setToken (token : jsstring) : World -> World :=
  localStorage_setItem TOKEN_KEY token.

Definition setCurrentEmail (email : jsstring) : World -> World :=
  localStorage_setItem EMAIL_KEY email.

Definition getCurrentEmail (w : World) : option jsstring :=
  localStorage_getItem EMAIL_KEY w.

Definition clearSession (w : World) : World :=
  localStorage_removeItem EMAIL_KEY (localStorage_removeItem TOKEN_KEY w).

(** [null] is [JNull]: the [catch] covers [payload] being [undefined] (no
    dot in the token), [atob] and [JSON.parse]. *)
Definition decodeJwt (token : jsstring) : JsValue :=
  match split_on 46 token with
  | _ :: payload :: _ =>
      match atob (replace_all 95 47 (replace_all 45 43 payload)) with
      | Some json => default JNull (JSON_parse json)
      | None => JNull
      end
  | _ => JNull
  end.

(** [decodeJwt] on an argument that was only cast to [string]: anything
    else has no [split] method, and the [catch] returns [null]. *)
Definition decodeJwt_any (token : JsValue) : JsValue :=
  match token with
  | JStr s => decodeJwt s
  | _ => JNull
  end.

Definition isTokenExpired (token : jsstring) (w : World) : Completion bool :=
  let payload := decodeJwt token in
  if negb (truthy (get_opt payload (js "exp"))) then Returns false
  else
    let nowSec := Math_floor (Date_now w / 1000)%float in
    js_le (get payload (js "exp")) nowSec.

Definition nonempty (s : jsstring) : bool :=
  match s with [] => false | _ => true end.

Definition authHeaders (w : World) : list (jsstring * jsstring) :=
  match getToken w with
  | Some token =>
      if nonempty token then [(js "Authorization", js "Bearer " ++ token)]
      else []
  | None => []
  end.

Definition handleJsonResponse (res : Response) : Async JsValue :=
  let contentType := default [] (res_contentType res) in
  let isJson := includes (js "application/json") contentType in
  let* data := (if isJson then res_json res else ret JNull) in
  if negb (res_ok res) then
    let detail :=
      js_or (js_or (get_opt data (js "detail")) (JStr (res_statusText res)))
        (JStr (js "Request failed")) in
    let* message := lift (ToString detail) in
    throw {| err_message := message;
             err_status := Some (res_status res);
             err_data := data |}
  else ret data.

(** For the statements about [handleJsonResponse]: whether the response
    declares a JSON body, and the [data] that the function goes on with
    ([None] when [res.json()] rejects). *)
Definition declares_json (res : Response) : bool :=
  includes (js "application/json") (default [] (res_contentType res)).

Definition response_data (res : Response) : option JsValue :=
  if declares_json res then JSON_parse (res_body res) else Some JNull.

(** The error [handleJsonResponse] builds for such [data], when [detail]
    converts to a string. *)
Definition api_error (res : Response) (data : JsValue) : Completion JsError :=
  and_then
    (ToString
       (js_or (js_or (get_opt data (js "detail")) (JStr (res_statusText res)))
          (JStr (js "Request failed"))))
    (fun message =>
       Returns {| err_message := message;
                  err_status := Some (res_status res);
                  err_data := data |}).

(** An answer [handleJsonResponse] can read as an error: a body that
    parses when it is declared as JSON, and a [detail] that converts to a
    string. *)
Definition readable_error (res : Response) : Prop :=
  exists (data : JsValue) (e : JsError),
    response_data res = Some data /\ api_error res data = Returns e.

(** The request [register] hands to [fetch]; the body is
    [JSON.stringify({ email, password })]. *)
Definition register_request (email password : jsstring) : Request :=
  {| req_method := js "POST";
     req_url := BASE ++ js "/auth/register";
     req_headers := [(js "Content-Type", js "application/json")];
     req_body :=
       Some (js "{" ++ QuoteJSONString (js "email") ++ js ":"
             ++ QuoteJSONString email ++ js ","
             ++ QuoteJSONString (js "password") ++ js ":"
             ++ QuoteJSONString password ++ js "}") |}.

Definition register (net : Network) (email password : jsstring)
  : Async JsValue :=
  let* res := fetch net (register_request email password) in
  handleJsonResponse res.

Record LoginResult : Type := { token : JsValue; adm : bool }.

(** The request [login] hands to [fetch]. *)
Definition login_request (email password : jsstring) : Request :=
  let form := [(js "username", email); (js "password", password)] in
  {| req_method := js "POST";
     req_url := BASE ++ js "/auth/login";
     req_headers :=
       [(js "Content-Type", js "application/x-www-form-urlencoded")];
     req_body := Some (URLSearchParams_toString form) |}.

Definition login (net : Network) (email password : jsstring)
  : Async LoginResult :=
  let* res := fetch net (login_request email password) in
  let* data := handleJsonResponse res in
  let* access_token := get_or_throw data (js "access_token") in
  let* stored := lift (ToString access_token) in
  do effect (setToken stored) then
  do effect (setCurrentEmail email) then
  let payload := decodeJwt_any access_token in
  ret {| token := access_token; adm := truthy (get_opt payload (js "adm")) |}.

Definition logout (w : World) : World := clearSession w.

(** The object [changes], by its members. *)
Definition Changes : Type := list (jsstring * JsValue).

(** [if (typeof changes.name === "boolean")
       params.append(name, String(changes.name))] *)
Definition boolean_param (name : jsstring) (changes : Changes)
  : list (jsstring * jsstring) :=
  match own_property name changes with
  | Some (JBool b) => [(name, Boolean_toString b)]
  | _ => []
  end.

Definition adminUpdateUser_params (changes : Changes)
  : list (jsstring * jsstring) :=
  boolean_param (js "make_admin") changes
  ++ boolean_param (js "verify_email") changes
  ++ boolean_param (js "deactivate") changes.

(** The request [adminUpdateUser] hands to [fetch]; [userId] is spliced
    into the path by the template literal. *)
Definition adminUpdateUser_request (userId : float) (changes : Changes)
  (w : World) : Request :=
  {| req_method := js "PATCH";
     req_url := BASE ++ js "/admin/users/" ++ Number_toString userId
                ++ js "?"
                ++ URLSearchParams_toString (adminUpdateUser_params changes);
     req_headers := authHeaders w;
     req_body := None |}.

Definition adminUpdateUser (net : Network) (userId : float) (changes : Changes)
  : Async JsValue :=
  fun w =>
    (let* res := fetch net (adminUpdateUser_request userId changes w) in
     handleJsonResponse res) w.

Definition isLoggedIn (w : World) : Completion bool :=
  match getToken w with
  | Some t =>
      if nonempty t
      then and_then (isTokenExpired t w) (fun expired => Returns (negb expired))
      else Returns false
  | None => Returns false
  end.

(** *** api.ts: the calls on todos and the remaining admin calls *)

(** An object handed to [JSON.stringify], by its members in property
    order. *)
Definition JsObject : Type := list (jsstring * JsValue).

Definition listMyTodos_request (w : World) : Request :=
  {| req_method := js "GET";
     req_url := BASE ++ js "/todos";
     req_headers := authHeaders w;
     req_body := None |}.

Definition listMyTodos (net : Network) : Async JsValue :=
  fun w =>
    (let* res := fetch net (listMyTodos_request w) in
     handleJsonResponse res) w.

Definition createTodo_request (input : JsObject) (w : World) : Request :=
  {| req_method := js "POST";
     req_url := BASE ++ js "/todos";
     req_headers := (js "Content-Type", js "application/json") :: authHeaders w;
     req_body := JSON_stringify (JObj input) |}.

Definition createTodo (net : Network) (input : JsObject) : Async JsValue :=
  fun w =>
    (let* res := fetch net (createTodo_request input w) in
     handleJsonResponse res) w.

Definition updateTodo_request (id : float) (input : JsObject) (w : World)
  : Request :=
  {| req_method := js "PATCH";
     req_url := BASE ++ js "/todos/" ++ Number_toString id;
     req_headers := (js "Content-Type", js "application/json") :: authHeaders w;
     req_body := JSON_stringify (JObj input) |}.

Definition updateTodo (net : Network) (id : float) (input : JsObject)
  : Async JsValue :=
  fun w =>
    (let* res := fetch net (updateTodo_request id input w) in
     handleJsonResponse res) w.

Definition deleteTodo_request (id : float) (w : World) : Request :=
  {| req_method := js "DELETE";
     req_url := BASE ++ js "/todos/" ++ Number_toString id;
     req_headers := authHeaders w;
     req_body := None |}.

(** [handleJsonResponse] gets the answer only when it is neither ok nor a
    204; whatever it resolves to is dropped. *)
Definition deleteTodo (net : Network) (id : float) : Async unit :=
  fun w =>
    (let* res := fetch net (deleteTodo_request id w) in
     if negb (res_ok res) && negb (res_status res =? 204)%Z
     then do handleJsonResponse res then ret tt
     else ret tt) w.

Definition adminListUsers_request (w : World) : Request :=
  {| req_method := js "GET";
     req_url := BASE ++ js "/admin/users";
     req_headers := authHeaders w;
     req_body := None |}.

Definition adminListUsers (net : Network) : Async JsValue :=
  fun w =>
    (let* res := fetch net (adminListUsers_request w) in
     handleJsonResponse res) w.

Definition adminListTodos_request (w : World) : Request :=
  {| req_method := js "GET";
     req_url := BASE ++ js "/admin/todos";
     req_headers := authHeaders w;
     req_body := None |}.

Definition adminListTodos (net : Network) : Async JsValue :=
  fun w =>
    (let* res := fetch net (adminListTodos_request w) in
     handleJsonResponse res) w.

Definition adminDeleteTodo_request (id : float) (w : World) : Request :=
  {| req_method := js "DELETE";
     req_url := BASE ++ js "/admin/todos/" ++ Number_toString id;
     req_headers := authHeaders w;
     req_body := None |}.

Definition adminDeleteTodo (net : Network) (id : float) : Async unit :=
  fun w =>
    (let* res := fetch net (adminDeleteTodo_request id w) in
     if negb (res_ok res) && negb (res_status res =? 204)%Z
     then do handleJsonResponse res then ret tt
     else ret tt) w.

(** *** api.ts: [verifyEmail] *)

(** The request of [fetch(url)] with no init: a GET without headers of the
    client's own and without a body. *)
Definition verifyEmail_request (encoded : jsstring) : Request :=
  {| req_method := js "GET";
     req_url := BASE ++ js "/auth/verify-email?token=" ++ encoded;
     req_headers := [];
     req_body := None |}.

(** [URIError_message] is the engine's wording of the URIError that
    [encodeURIComponent] throws; the function is async, so the error comes
    out as a rejection, before anything is handed to [fetch]. *)
Definition verifyEmail (URIError_message : jsstring) (net : Network)
  (token : jsstring) : Async JsValue :=
  match encodeURIComponent token with
  | Some encoded =>
      let* res := fetch net (verifyEmail_request encoded) in
      handleJsonResponse res
  | None =>
      throw {| err_message := URIError_message; err_status := None;
               err_data := JUndefined |}
  end.

(** Between [w] and [w'] exactly [req] was handed to [fetch], and nothing
    else of the world has changed. *)
Definition sent_one (req : Request) (w w' : World) : Prop :=
  w' = with_sent (fun l => l ++ [req]) w.

End Api.

(* ===================================================================== *)
(** ** Part 3: the screens                                                *)
(* ===================================================================== *)

(** A handler returns the calls it makes to React state setters and to the
    callbacks it got as props, in order, and the world it leaves. *)

(** *** [components/screens/Login.tsx] *)
Module Login.
Import Js Api.

Inductive Role : Type := admin | user.

Inductive Event : Type :=
| setError (msg : jsstring)
| setLoading (b : bool)
| onLogin (email : jsstring) (role : Role)
| onRequireVerification (email : jsstring)
| onNavigate (page : jsstring).

(** The [catch] block. *)
Definition on_error (email : jsstring) (err : JsError) : list Event :=
  match err_status err with
  | Some 403%Z => [setError (js "Email not verified"); onRequireVerification email]
  | Some 429%Z => [setError (js "Too many attempts, please try later")]
  | _ =>
      [setError (if nonempty (err_message err) then err_message err
                 else js "Invalid credentials")]
  end.

Definition handleSubmit (net : Network) (email password : jsstring) (w : World)
  : list Event * World :=
  if negb (nonempty email) || negb (nonempty password) then
    ([setError []; setError (js "Please enter both email and password")], w)
  else
    match login net email password w with
    | (Resolved r, w') =>
        ([setError []; setLoading true;
          onLogin email (if adm r then admin else user);
          setLoading false], w')
    | (Rejected err, w') =>
        ([setError []; setLoading true] ++ on_error email err
         ++ [setLoading false], w')
    end.

(** The [error] state once the setters of a submit have run: the form
    shows it when it is not empty. *)
Definition shown_error (evs : list Event) : jsstring :=
  fold_left
    (fun acc ev =>
       match ev with
       | setError msg => msg
       | _ => acc
       end) evs [].

End Login.

(** *** [Register], the first component of [components/screens/Register.tsx] *)
Module Register.
Import Js Api.

(** [rejects n]: the handler's own promise rejects, after [finally], with
    an error the engine raised inside the [catch] block. *)
Inductive Event : Type :=
| setError (msg : jsstring)
| setSuccess (b : bool)
| setLoading (b : bool)
| onNavigate (page : jsstring)
| rejects (n : ErrorName).

Definition handleSubmit (net : Network) (email password : jsstring) (w : World)
  : list Event * World :=
  if negb (nonempty email) || negb (includes (js "@") email) then
    ([setError []; setSuccess false;
      setError (js "Please enter a valid email address")], w)
  else if (str_length password <? 8)%Z then
    ([setError []; setSuccess false;
      setError (js "Password must be at least 8 characters")], w)
  else
    match register net email password w with
    | (Resolved _, w') =>
        ([setError []; setSuccess false; setLoading true; setSuccess true;
          onNavigate (js "verify-email"); setLoading false], w')
    | (Rejected err, w') =>
        let detail :=
          js_or (js_or (get_opt (err_data err) (js "detail"))
                   (JStr (err_message err)))
            (JStr (js "Registration failed")) in
        ([setError []; setSuccess false; setLoading true]
         ++ match ToString detail with
            | Returns msg => [setError msg; setLoading false]
            | Throws n => [setLoading false; rejects n]
            end, w')
    end.

End Register.

(** *** [AdminUsers], the third component of [components/screens/Register.tsx] *)
Module AdminUsers.
Import Js Api.

Record User : Type := {
  id : float;
  email : jsstring;
  email_verified : bool;
  is_admin : bool;
  is_active : bool;
  created_at : jsstring
}.

(** The [formData] state. *)
Record FormData : Type := {
  form_is_admin : bool;
  form_email_verified : bool;
  form_is_active : bool
}.

(** [setUsers_replace i v] is
    [setUsers(users.map((u) => (u.id === i ? v : u)))]. *)
Inductive Event : Type :=
| setLoading (b : bool)
| setUsers_replace (i : float) (updated : JsValue)
| setDrawerOpen (b : bool)
| setSelectedUser_null
| toast_success (msg : jsstring)
| toast_error (msg : jsstring)
| rejects (n : ErrorName).

(** The object [changes], property by property as the [if]s assign them. *)
Definition build_changes (formData : FormData) (selectedUser : User) : Changes :=
  (if negb (eqb (form_is_admin formData) (is_admin selectedUser))
   then [(js "make_admin", JBool (form_is_admin formData))] else [])
  ++ (if negb (eqb (form_email_verified formData) (email_verified selectedUser))
      then [(js "verify_email", JBool (form_email_verified formData))] else [])
  ++ (if negb (eqb (form_is_active formData) (is_active selectedUser))
      then [(js "deactivate", JBool (negb (form_is_active formData)))] else []).

Definition handleUpdateUser (net : Network) (selectedUser : option User)
  (formData : FormData) (w : World) : list Event * World :=
  match selectedUser with
  | None => ([], w)
  | Some u =>
      match adminUpdateUser net (id u) (build_changes formData u) w with
      | (Resolved updated, w') =>
          ([setLoading true; setUsers_replace (id u) updated;
            setDrawerOpen false; setSelectedUser_null;
            toast_success (js "User updated successfully"); setLoading false],
           w')
      | (Rejected err, w') =>
          let msg :=
            js_or (js_or (get_opt (err_data err) (js "detail"))
                     (JStr (err_message err)))
              (JStr (js "Failed to update user")) in
          ([setLoading true]
           ++ match ToString msg with
              | Returns text => [toast_error text; setLoading false]
              | Throws n => [setLoading false; rejects n]
              end, w')
      end
  end.

(** [openEditDrawer(user)]: the selected user, the form and whether the
    drawer is open, as the three setters leave them. *)
Definition openEditDrawer (user : User) : option User * FormData * bool :=
  (Some user,
   {| form_is_admin := is_admin user;
      form_email_verified := email_verified user;
      form_is_active := is_active user |},
   true).

(** The three switches: [setFormData({ ...formData, flag: checked })]. *)
Definition switch_is_admin (checked : bool) (formData : FormData) : FormData :=
  {| form_is_admin := checked;
     form_email_verified := form_email_verified formData;
     form_is_active := form_is_active formData |}.

Definition switch_email_verified (checked : bool) (formData : FormData)
  : FormData :=
  {| form_is_admin := form_is_admin formData;
     form_email_verified := checked;
     form_is_active := form_is_active formData |}.

Definition switch_is_active (checked : bool) (formData : FormData) : FormData :=
  {| form_is_admin := form_is_admin formData;
     form_email_verified := form_email_verified formData;
     form_is_active := checked |}.

End AdminUsers.

(** *** [VerifyEmail], the second component of [components/screens/Register.tsx] *)
Module VerifyEmail.
Import Js Api.

Inductive Status : Type := idle | success | error.

(** [setMessage] gets whatever [||] picked: the state is typed as a string,
    the value is not converted. *)
Inductive Event : Type :=
| setLoading (b : bool)
| setStatus (s : Status)
| setMessage (m : JsValue)
| setTokenInput (t : jsstring).

(** The [catch] block of [runVerification]. *)
Definition on_error (err : JsError) : list Event :=
  [setStatus error;
   setMessage
     (js_or (js_or (get_opt (err_data err) (js "detail"))
               (JStr (err_message err)))
        (JStr (js "Verification failed")))].

(** [res.message] is read after [setStatus("success")]; on a [res] that is
    [null] it throws a TypeError, which the [catch] block gets like a
    rejection of the call. *)
Definition runVerification (URIError_message : jsstring) (net : Network)
  (token : jsstring) (w : World) : list Event * World :=
  match verifyEmail URIError_message net token w with
  | (Resolved res, w') =>
      ([setLoading true; setStatus idle; setMessage (JStr []);
        setStatus success]
       ++ match res with
          | JUndefined | JNull => on_error (engine_error TypeError w')
          | _ =>
              [setMessage
                 (js_or (get res (js "message")) (JStr (js "Email verified")))]
          end
       ++ [setLoading false], w')
  | (Rejected err, w') =>
      ([setLoading true; setStatus idle; setMessage (JStr [])]
       ++ on_error err ++ [setLoading false], w')
  end.

(** The effect that runs when the screen is mounted; [token] is
    [params.get("token")] of the address. *)
Definition on_mount (URIError_message : jsstring) (net : Network)
  (token : option jsstring) (w : World) : list Event * World :=
  match token with
  | Some t =>
      if nonempty t then
        let (evs, w') := runVerification URIError_message net t w in
        (setTokenInput t :: evs, w')
      else ([], w)
  | None => ([], w)
  end.

Definition handleSubmit (URIError_message : jsstring) (net : Network)
  (tokenInput : jsstring) (w : World) : list Event * World :=
  if negb (nonempty (trim tokenInput)) then
    ([setStatus error;
      setMessage (JStr (js "Please enter the verification token."))], w)
  else runVerification URIError_message net (trim tokenInput) w.

(** The [status] and the [message] the screen shows once the setters of a
    handler have run, from the ones it showed before. *)
Definition shown (evs : list Event) (before : Status * JsValue)
  : Status * JsValue :=
  fold_left
    (fun st ev =>
       match ev with
       | setStatus s => (s, snd st)
       | setMessage m => (fst st, m)
       | _ => st
       end) evs before.

End VerifyEmail.

(** *** [components/screens/MyTodos.tsx] *)
Module MyTodos.
Import Js Api.

(** The [Todo] interface.  The list of the screen holds what the server
    sent, which the code casts to this shape. *)
Record Todo : Type := {
  id : float;
  title : jsstring;
  description : jsstring;
  done : bool;
  created_at : jsstring;
  updated_at : jsstring
}.

(** The [formData] state. *)
Record FormData : Type := {
  form_title : jsstring;
  form_description : jsstring
}.

(** [setTodos_cons created l] is [setTodos([created, ...l])] and
    [setTodos_replace i updated l] is
    [setTodos(l.map((t) => (t.id === i ? updated : t)))], for a value that came
    from the server. *)
Inductive Event : Type :=
| setLoading (b : bool)
| setTodos (l : list Todo)
| setTodos_cons (created : JsValue) (l : list Todo)
| setTodos_replace (i : float) (updated : JsValue) (l : list Todo)
| setCreateDialogOpen (b : bool)
| setEditDialogOpen (b : bool)
| setDeleteDialogOpen (b : bool)
| setSelectedTodo_null
| setFormData (f : FormData)
| toast_success (msg : jsstring)
| toast_error (msg : jsstring)
| rejects (n : ErrorName).

(** [String(err?.data?.detail || err?.message || fallback)] *)
Definition error_text (fallback : jsstring) (err : JsError)
  : Completion jsstring :=
  ToString
    (js_or (js_or (get_opt (err_data err) (js "detail"))
              (JStr (err_message err)))
       (JStr fallback)).

(** A [catch] block that shows the text, followed by the [finally] block
    that ends the loading state; when [String] throws, the [finally] block
    still runs and the handler's promise rejects. *)
Definition catch_finally (fallback : jsstring) (err : JsError) : list Event :=
  match error_text fallback err with
  | Returns text => [toast_error text; setLoading false]
  | Throws n => [setLoading false; rejects n]
  end.

Definition handleCreateTodo (net : Network) (formData : FormData)
  (todos : list Todo) (w : World) : list Event * World :=
  if negb (nonempty (trim (form_title formData))) then
    ([toast_error (js "Title is required")], w)
  else
    match createTodo net
            [(js "title", JStr (form_title formData));
             (js "description", JStr (form_description formData))] w with
    | (Resolved created, w') =>
        ([setLoading true; setTodos_cons created todos;
          setCreateDialogOpen false;
          setFormData {| form_title := []; form_description := [] |};
          toast_success (js "Task created successfully"); setLoading false],
         w')
    | (Rejected err, w') =>
        (setLoading true :: catch_finally (js "Failed to create todo") err, w')
    end.

Definition handleUpdateTodo (net : Network) (selectedTodo : option Todo)
  (formData : FormData) (todos : list Todo) (w : World) : list Event * World :=
  match selectedTodo with
  | None => ([], w)
  | Some sel =>
      match updateTodo net (id sel)
              [(js "title", JStr (form_title formData));
               (js "description", JStr (form_description formData))] w with
      | (Resolved updated, w') =>
          ([setLoading true; setTodos_replace (id sel) updated todos;
            setEditDialogOpen false; setSelectedTodo_null;
            setFormData {| form_title := []; form_description := [] |};
            toast_success (js "Task updated successfully"); setLoading false],
           w')
      | (Rejected err, w') =>
          (setLoading true :: catch_finally (js "Failed to update todo") err,
           w')
      end
  end.

(** [{ ...t, done: d }] *)
Definition with_done (d : bool) (t : Todo) : Todo :=
  {| id := id t; title := title t; description := description t; done := d;
     created_at := created_at t; updated_at := updated_at t |}.

(** [todos.map((t) => (t.id === i ? { ...t, done: d } : t))] *)
Definition mark_done (i : float) (d : bool) (todos : list Todo) : list Todo :=
  map (fun t => if PrimFloat.eqb (id t) i then with_done d t else t) todos.

(** The list is changed before the call; the [catch] block changes it
    back after the toast, so not when [String] throws. *)
Definition handleToggleDone (net : Network) (todo : Todo) (todos : list Todo)
  (w : World) : list Event * World :=
  let nextDone := negb (done todo) in
  match updateTodo net (id todo) [(js "done", JBool nextDone)] w with
  | (Resolved _, w') => ([setTodos (mark_done (id todo) nextDone todos)], w')
  | (Rejected err, w') =>
      (setTodos (mark_done (id todo) nextDone todos)
       :: match error_text (js "Failed to toggle todo") err with
          | Returns text =>
              [toast_error text;
               setTodos (mark_done (id todo) (negb nextDone) todos)]
          | Throws n => [rejects n]
          end, w')
  end.

(** [todos.filter((t) => t.id !== i)] *)
Definition without (i : float) (todos : list Todo) : list Todo :=
  List.filter (fun t => negb (PrimFloat.eqb (id t) i)) todos.

Definition handleDeleteTodo (net : Network) (selectedTodo : option Todo)
  (todos : list Todo) (w : World) : list Event * World :=
  match selectedTodo with
  | None => ([], w)
  | Some sel =>
      match deleteTodo net (id sel) w with
      | (Resolved _, w') =>
          ([setLoading true; setTodos (without (id sel) todos);
            setDeleteDialogOpen false; setSelectedTodo_null;
            toast_success (js "Task deleted successfully"); setLoading false],
           w')
      | (Rejected err, w') =>
          (setLoading true :: catch_finally (js "Failed to delete todo") err,
           w')
      end
  end.

(** The list the screen shows once the setters of a handler have run, when
    it showed [todos] before; a value from the server is kept as it came. *)
Definition last_setTodos (evs : list Event) : option (list Todo) :=
  fold_left
    (fun acc ev =>
       match ev with
       | setTodos l => Some l
       | _ => acc
       end) evs None.

End MyTodos.

(** *** [components/screens/SimpleUI.tsx] *)
Module SimpleUI.
Import Js Api.

Inductive Mode : Type := login_mode | register_mode | verify_mode.

Inductive Event : Type :=
| setLoading (b : bool)
| setLoggedIn (b : bool)
| setMode (m : Mode)
| setTodos_empty
| toast_success (msg : jsstring)
| toast_error (msg : jsstring)
| rejects (n : ErrorName).

(** [toast.error(String(err?.data?.detail || err?.message || fallback))]
    and the [finally] block after it. *)
Definition catch_finally (fallback : jsstring) (err : JsError) : list Event :=
  match ToString
          (js_or (js_or (get_opt (err_data err) (js "detail"))
                    (JStr (err_message err)))
             (JStr fallback)) with
  | Returns text => [toast_error text; setLoading false]
  | Throws n => [setLoading false; rejects n]
  end.

Definition handleRegister (net : Network) (email password : jsstring)
  (w : World) : list Event * World :=
  match register net email password w with
  | (Resolved _, w') =>
      ([setLoading true;
        toast_success
          (js "Registered! Check the API console for a verification URL.");
        setMode verify_mode; setLoading false], w')
  | (Rejected err, w') =>
      (setLoading true :: catch_finally (js "Registration failed") err, w')
  end.

Definition handleVerify (URIError_message : jsstring) (net : Network)
  (verifyToken : jsstring) (w : World) : list Event * World :=
  if negb (nonempty verifyToken) then
    ([toast_error (js "Paste the token from the API console.")], w)
  else
    match verifyEmail URIError_message net verifyToken w with
    | (Resolved _, w') =>
        ([setLoading true;
          toast_success (js "Email verified! You can now login.");
          setMode login_mode; setLoading false], w')
    | (Rejected err, w') =>
        (setLoading true :: catch_finally (js "Verification failed") err, w')
    end.

Definition handleLogin (net : Network) (email password : jsstring)
  (w : World) : list Event * World :=
  match login net email password w with
  | (Resolved _, w') =>
      ([setLoading true; setLoggedIn true; toast_success (js "Logged in");
        setLoading false], w')
  | (Rejected err, w') =>
      (setLoading true :: catch_finally (js "Login failed") err, w')
  end.

Definition handleLogout (w : World) : list Event * World :=
  ([setLoggedIn false; setTodos_empty], logout w).

End SimpleUI.

(** *** [App.tsx]: the state the auth screens drive *)
Module App.
Import Js Api.

Record User : Type := {
  email : jsstring;
  role : Login.Role;
  isVerified : bool
}.

Record State : Type := {
  currentPage : jsstring;
  currentUser : option User;
  pendingVerificationEmail : option jsstring
}.

Definition handleLogin (email : jsstring) (role : Login.Role) (st : State)
  : State :=
  {| currentUser := Some {| email := email; role := role; isVerified := true |};
     pendingVerificationEmail := None;
     currentPage := js "my-todos" |}.

Definition handleLogout (st : State) (w : World) : State * World :=
  ({| currentUser := None;
      pendingVerificationEmail := pendingVerificationEmail st;
      currentPage := js "login" |},
   logout w).

Definition handleNavigate (page : jsstring) (st : State) : State :=
  {| currentUser := currentUser st;
     pendingVerificationEmail := pendingVerificationEmail st;
     currentPage := page |}.

Definition handleRequireVerification (email : jsstring) (st : State) : State :=
  {| currentUser := currentUser st;
     pendingVerificationEmail := Some email;
     currentPage := js "verify-email" |}.

(** What [App] renders. *)
Inductive Screen : Type :=
| RegisterScreen
| VerifyEmailScreen (pendingEmail : option jsstring)
| SimpleUIScreen
| LoginScreen
| Layout (u : User).

Definition render (st : State) : Screen :=
  match currentUser st with
  | None =>
      if str_eqb (currentPage st) (js "register") then RegisterScreen
      else if str_eqb (currentPage st) (js "verify-email")
      then VerifyEmailScreen (pendingVerificationEmail st)
      else if str_eqb (currentPage st) (js "simple") then SimpleUIScreen
      else LoginScreen
  | Some u => Layout u
  end.

(** The props [App] passes to [Login]: which handler each callback is. *)
Definition login_prop (ev : Login.Event) (st : State) : State :=
  match ev with
  | Login.onLogin email role => handleLogin email role st
  | Login.onRequireVerification email => handleRequireVerification email st
  | Login.onNavigate page => handleNavigate page st
  | Login.setError _ | Login.setLoading _ => st
  end.

Definition after_login_events (evs : list Login.Event) (st : State) : State :=
  fold_left (fun st ev => login_prop ev st) evs st.

(** The state [App] starts from. *)
Definition initial : State :=
  {| currentPage := js "login"; currentUser := None;
     pendingVerificationEmail := None |}.

Definition setCurrentPage (page : jsstring) (st : State) : State :=
  {| currentUser := currentUser st;
     pendingVerificationEmail := pendingVerificationEmail st;
     currentPage := page |}.

(** The effect that reads the address: [pageParam] is [params.get("page")]
    and [hasToken] is [params.has("token")]. *)
Definition page_from_address (pageParam : option jsstring) (hasToken : bool)
  (st : State) : State :=
  if match pageParam with
     | Some p => str_eqb p (js "verify-email")
     | None => false
     end || hasToken
  then setCurrentPage (js "verify-email") st
  else if match pageParam with
          | Some p => str_eqb p (js "simple")
          | None => false
          end
  then setCurrentPage (js "simple") st
  else st.

(** The effect that restores the session.  [getToken()!] only asserts: on
    [null], [decodeJwt] would catch its own TypeError and return [null]. *)
Definition restoreSession (w : World) (st : State) : Completion State :=
  and_then (isLoggedIn w)
    (fun logged =>
       if logged then
         let payload :=
           match getToken w with
           | Some token => decodeJwt token
           | None => JNull
           end in
         let email :=
           match getCurrentEmail w with
           | Some e => if nonempty e then e else js "user"
           | None => js "user"
           end in
         let role :=
           if truthy (get_opt payload (js "adm"))
           then Login.admin else Login.user in
         Returns
           {| currentUser :=
                Some {| email := email; role := role; isVerified := true |};
              pendingVerificationEmail := pendingVerificationEmail st;
              currentPage := js "my-todos" |}
       else Returns st).

(** The state after the effects of the first render, which run in the order
    they are written in. *)
Definition on_mount (pageParam : option jsstring) (hasToken : bool) (w : World)
  : Completion State :=
  restoreSession w (page_from_address pageParam hasToken initial).

(** What [renderPage] puts inside the layout. *)
Inductive PageView : Type :=
| MyTodosView
| ProfileView (u : User)
| AdminUsersView
| AdminTodosView
| SettingsView
| AccessDenied.

Definition renderPage (u : User) (page : jsstring) : PageView :=
  if str_eqb page (js "my-todos") then MyTodosView
  else if str_eqb page (js "profile") then ProfileView u
  else if str_eqb page (js "users") then
    match role u with
    | Login.admin => AdminUsersView
    | Login.user => AccessDenied
    end
  else if str_eqb page (js "settings") then SettingsView
  else if str_eqb page (js "all-todos") then
    match role u with
    | Login.admin => AdminTodosView
    | Login.user => AccessDenied
    end
  else MyTodosView.

(** *** The theme *)

Definition THEME_KEY : jsstring := js "leaftasks-theme".

(** The two themes the settings screen offers. *)
Inductive Theme : Type := green | pink.

Definition theme_id (t : Theme) : jsstring :=
  match t with
  | green => js "green"
  | pink => js "pink"
  end.

(** The [theme] state after the effect that loads the saved preference:
    what was saved is cast to a theme, not checked. *)
Definition load_theme (w : World) (theme : jsstring) : jsstring :=
  match localStorage_getItem THEME_KEY w with
  | Some savedTheme => if nonempty savedTheme then savedTheme else theme
  | None => theme
  end.

(** [handleThemeChange(newTheme)]: the [theme] state and the world after. *)
Definition handleThemeChange (newTheme : Theme) (w : World) : jsstring * World :=
  (theme_id newTheme, localStorage_setItem THEME_KEY (theme_id newTheme) w).

(** Whether the document root carries the class [theme-pink] after the
    effect that applies the theme. *)
Definition has_theme_pink (theme : jsstring) : bool :=
  str_eqb theme (js "pink").

End App.

(* ===================================================================== *)
(** ** Part 4: the server side the client talks to                        *)
(* ===================================================================== *)

(** [backend/main.py] is not among the source files.  What the claims need of
    it is written here from the specification (sections 3, 4.3, 4.6, 6 and
    7). *)
Module Backend.
Import Js.

(** Modelled from the spec: the User record of section 3 (the server code is
    missing).  [password_ok] stands for the Password Hasher's
    [verify(_, password_hash)] on the stored, opaque hash. *)
Record User : Type := {
  email : jsstring;
  password_ok : jsstring -> bool;
  is_admin : bool;
  email_verified : bool;
  is_active : bool
}.

(** Modelled from the spec: the Credential Store and the table of
    EmailVerificationTokens (token, owning user id) of section 3. *)
Record State : Type := {
  users : gmap Z User;
  tokens : gmap jsstring Z
}.

Inductive Failure : Type := NotFound.

Definition mark_verified (u : User) : User :=
  {| email := email u; password_ok := password_ok u; is_admin := is_admin u;
     email_verified := true; is_active := is_active u |}.

(** Modelled from the spec: [consume(token) -> user_id] of section 4.3 (the
    verify-email handler is missing): not found fails with NotFound; found
    marks the owner verified and invalidates the token, in one step. *)
Definition consume (token : jsstring) (s : State) : (Failure + Z) * State :=
  match tokens s !! token with
  | None => (inl NotFound, s)
  | Some user_id =>
      (inr user_id,
       {| users := alter mark_verified user_id (users s);
          tokens := delete token (tokens s) |})
  end.

(** Modelled from the spec: [issue(user_id) -> token] of section 4.3 (the
    register handler is missing).  The random generator is outside the
    model: [fresh] is the string it draws for this call.  The token is
    persisted with its user and returned. *)
Definition issue (fresh : jsstring) (user_id : Z) (s : State)
  : jsstring * State :=
  (fresh, {| users := users s; tokens := <[fresh := user_id]> (tokens s) |}).

(** The operations on verification tokens, and a run of them. *)
Inductive Op : Type :=
| Consume (token : jsstring)
| Issue (user_id : Z) (fresh : jsstring).

Definition step (s : State) (op : Op) : State :=
  match op with
  | Consume token => snd (consume token s)
  | Issue user_id fresh => snd (issue fresh user_id s)
  end.


(** How often [token] is consumed with success along a run. *)
Fixpoint successes (token : jsstring) (ops : list Op) (s : State) : nat :=
  match ops with
  | [] => 0
  | op :: ops' =>
      (match op with
       | Consume t =>
           if str_eqb t token
           then match fst (consume t s) with inr _ => 1 | inl _ => 0 end
           else 0
       | Issue _ _ => 0
       end + successes token ops' (step s op))%nat
  end.



Definition lower (s : jsstring) : jsstring :=
  map (fun c => if is_upper c then (c + 32)%N else c) s.

(** Modelled from the spec: fetch by email, compared without regard to case
    (section 4.2). *)
Definition find_by_email (e : jsstring) (s : State) : option User :=
  snd <$> List.find (fun p => str_eqb (lower (email (snd p))) (lower e))
            (map_to_list (users s)).

Inductive LoginFailure : Type := BadCredentials | Unverified.

(** Modelled from the spec: the login handler (missing), after the rate
    limiter.  "Login before verification always fails with Unverified, never
    with generic bad-credentials" (section 8) puts the verification test
    before the password test; login is permitted only from Verified and
    Active (section 4.6), and the wire contract (section 6) has no status
    of its own for an inactive account. *)
Definition login_check (e password : jsstring) (s : State)
  : LoginFailure + User :=
  match find_by_email e s with
  | None => inl BadCredentials
  | Some u =>
      if negb (email_verified u) then inl Unverified
      else if negb (password_ok u password) then inl BadCredentials
      else if negb (is_active u) then inl BadCredentials
      else inr u
  end.

(** The boolean a query parameter carries, if the query has it. *)
Definition query_flag (name : jsstring) (query : list (jsstring * jsstring))
  : option bool :=
  match List.find (fun p => str_eqb (fst p) name) query with
  | Some (_, v) =>
      if str_eqb v (js "true") then Some true
      else if str_eqb v (js "false") then Some false
      else None
  | None => None
  end.

(** Modelled from the spec: the query parameters the server reads off the
    address of a request (section 6): the text after the [?], cut at [&] into
    fields and each field at [=] into a name and a value; a field without [=]
    is skipped.  Nothing is percent-decoded: the names of the flags and the
    texts [true] and [false] are letters and [_] only. *)
Definition query_of_url (url : jsstring) : list (jsstring * jsstring) :=
  flat_map (fun field => match split_on 61 field with
                         | name :: value :: _ => [(name, value)]
                         | _ => []
                         end)
    (split_on 38 (nth 1 (split_on 63 url) [])).

(** Modelled from the spec: the handler of PATCH /admin/users/{id} (missing)
    on the record it finds.  Each of [make_admin], [verify_email],
    [deactivate] that the query carries sets its flag, [deactivate] meaning
    [is_active = not deactivate]; a flag the query does not carry is not
    written (sections 5 and 6). *)
Definition patch_user (query : list (jsstring * jsstring)) (u : User) : User :=
  {| email := email u;
     password_ok := password_ok u;
     is_admin := default (is_admin u) (query_flag (js "make_admin") query);
     email_verified :=
       default (email_verified u) (query_flag (js "verify_email") query);
     is_active :=
       default (is_active u) (negb <$> query_flag (js "deactivate") query) |}.

(** Modelled from the spec: the status codes of section 7. *)
Definition status_code (f : LoginFailure) : Z :=
  match f with
  | BadCredentials => 400
  | Unverified => 403
  end.

End Backend.

(* ===================================================================== *)
(** ** Part 5: concrete worlds, tokens and responses used below           *)
(* ===================================================================== *)

Module Sample.
Import Js Api.

Definition engine (n : ErrorName) : jsstring :=
  match n with
  | SyntaxError => js "Unexpected end of JSON input"
  | TypeError => js "Cannot read properties of null"
  end.

(** A browser at 2023-11-14T22:13:20Z with the given [localStorage]. *)
Definition world (st : gmap jsstring jsstring) : World :=
  {| storage := st; clock := 1700000000000; sent := [];
     engine_text := engine |}.

(** Header [{}], payload [{"exp":0}]. *)
Definition token_exp0 : jsstring := js "e30.eyJleHAiOjB9.sig".

(** Header [{}], payload [{"exp":1700000000}]. *)
Definition token_exp_now : jsstring := js "e30.eyJleHAiOjE3MDAwMDAwMDB9.sig".

(** Header [{}], payload [{"sub":"a@x.com","adm":true}]. *)
Definition token_admin : jsstring :=
  js "e30.eyJzdWIiOiJhQHguY29tIiwiYWRtIjp0cnVlfQ.sig".

(** Header [{}], payload [{"exp":1700000001}]. *)
Definition token_exp_later : jsstring := js "e30.eyJleHAiOjE3MDAwMDAwMDF9.sig".

(** JSON text written with an apostrophe where the text has a double
    quote. *)
Definition json_text (s : string) : jsstring :=
  replace_all 39 34 (js s).

Definition json_response (status : Z) (statusText body : jsstring) : Response :=
  {| res_status := status; res_statusText := statusText;
     res_contentType := Some (js "application/json"); res_body := body |}.

(** A server with one registered, unverified account and its token. *)
Definition unverified_user : Backend.User :=
  {| Backend.email := js "a@x.com";
     Backend.password_ok := str_eqb (js "password123");
     Backend.is_admin := false;
     Backend.email_verified := false;
     Backend.is_active := true |}.

Definition backend : Backend.State :=
  {| Backend.users := {[ 1%Z := unverified_user ]};
     Backend.tokens := {[ js "a1" := 1%Z ]} |}.

(** The answer of the server to a login that passes. *)
Definition login_response (access_token : jsstring) : Response :=
  json_response 200 (js "OK")
    (json_text "{'access_token':'" ++ access_token
     ++ json_text "','token_type':'bearer','expires_in':3600}").

(** A network that is down. *)
Definition offline : Network := fun _ => NetworkError (js "Failed to fetch").

Definition todo : MyTodos.Todo :=
  {| MyTodos.id := 7; MyTodos.title := js "Water the plants";
     MyTodos.description := []; MyTodos.done := false;
     MyTodos.created_at := js "2024-01-01T00:00:00Z";
     MyTodos.updated_at := js "2024-01-01T00:00:00Z" |}.

End Sample.

(* ===================================================================== *)
(** ** Part 6: properties                                                 *)
(* ===================================================================== *)

Import Js Api.

(** *** The runtime on small inputs *)

Example split_on_dot :
  split_on 46 (js "a.b.c") = [js "a"; js "b"; js "c"]
  /\ split_on 46 (js "abc") = [js "abc"]
  /\ split_on 46 [] = [[]].
Proof. repeat split; reflexivity. Qed.

Example atob_payload :
  atob (js "eyJleHAiOjB9") = Some (Sample.json_text "{'exp':0}")
  /\ atob (js "YQ") = Some (js "a")
  /\ atob (js "YQ=") = None
  /\ atob (js "a-b_") = None.
Proof. repeat split; vm_compute; reflexivity. Qed.

Example JSON_parse_samples :
  JSON_parse (Sample.json_text "{'a':[1,true,null],'a':'x'}")
  = Some (JObj [(js "a", JArr [JNum 1; JBool true; JNull]);
                (js "a", JStr (js "x"))])
  /\ JSON_parse (js "[1,]") = None
  /\ JSON_parse (js "01") = None
  /\ JSON_parse (js " -0.5e1 ") = Some (JNum (-5))
  /\ JSON_parse [] = None.
Proof. repeat split; vm_compute; reflexivity. Qed.

Example Number_toString_samples :
  Number_toString 403 = js "403"
  /\ Number_toString 0.5 = js "0.5"
  /\ Number_toString 1e21 = js "1e+21"
  /\ Number_toString (-1700000000) = js "-1700000000"
  /\ Number_toString (0 / 0) = js "NaN".
Proof. repeat split; vm_compute; reflexivity. Qed.

Example ToString_samples :
  ToString (JArr [JObj []; JNull; JNum 2]) = Returns (js "[object Object],,2")
  /\ ToString (JBool false) = Returns (js "false")
  /\ ToString (JArr [JArr [JNum 1; JNum 2]; JStr (js "x")])
     = Returns (js "1,2,x")
  /\ ToString (JObj [(js "toString", JNum 1)]) = Throws TypeError
  /\ ToNumber (JArr [JStr (js " 12 ")]) = Returns 12%float
  /\ ToNumber (JBool true) = Returns 1%float.
Proof. repeat split; vm_compute; reflexivity. Qed.

Example decodeJwt_samples :
  decodeJwt Sample.token_exp0 = JObj [(js "exp", JNum 0)]
  /\ decodeJwt (js "no-dot") = JNull
  /\ decodeJwt (js "a.!!.c") = JNull
  /\ decodeJwt (js "a.e30") = JObj [].
Proof. repeat split; vm_compute; reflexivity. Qed.

(** [exp] of another type goes through ToNumber: a string, [true], an
    array; an [exp] that cannot be converted throws. *)
Example isTokenExpired_samples :
  (* {"exp":"12"} *)
  isTokenExpired (js "h.eyJleHAiOiIxMiJ9.s") (Sample.world ∅) = Returns true
  (* {"exp":true} *)
  /\ isTokenExpired (js "h.eyJleHAiOnRydWV9.s") (Sample.world ∅) = Returns true
  (* {"exp":[1700000001]} *)
  /\ isTokenExpired (js "h.eyJleHAiOlsxNzAwMDAwMDAxXX0.s") (Sample.world ∅)
     = Returns false
  (* {"exp":{"toString":1}} *)
  /\ isTokenExpired (js "h.eyJleHAiOnsidG9TdHJpbmciOjF9fQ.s") (Sample.world ∅)
     = Throws TypeError.
Proof. repeat split; vm_compute; reflexivity. Qed.

(** *** Helper lemmas *)

Lemma str_eqb_refl (s : jsstring) : str_eqb s s = true.
Proof.
  induction s as [|c s IH]; simpl; [reflexivity|].
  rewrite N.eqb_refl. exact IH.
Qed.

Lemma str_eqb_eq (a b : jsstring) : str_eqb a b = true <-> a = b.
Proof.
  split.
  - revert b. induction a as [|x a IH]; intros [|y b] H; simpl in H;
      try discriminate; [reflexivity|].
    apply andb_prop in H as [Hxy Hab].
    apply N.eqb_eq in Hxy. apply IH in Hab. congruence.
  - intros ->. apply str_eqb_refl.
Qed.

Lemma nonempty_true (s : jsstring) : nonempty s = true <-> s <> [].
Proof. destruct s; simpl; split; congruence. Qed.

(** [v?.k] and [v.k] agree whenever [v.k] does not throw. *)
Lemma get_opt_get (v : JsValue) (k : jsstring) : get_opt v k = get v k.
Proof. destruct v; reflexivity. Qed.

Lemma SFcompare_refl (x : spec_float) :
  x <> S754_nan -> SFcompare x x = Some Eq.
Proof.
  destruct x as [s| s | |s m e]; simpl; intros H; try congruence.
  - destruct s; reflexivity.
  - rewrite Z.compare_refl, Pos.compare_cont_refl. destruct s; reflexivity.
Qed.

(** A number that is below another one is not NaN. *)
Lemma leb_true_not_nan (x y : float) :
  PrimFloat.leb x y = true -> is_nan x = false.
Proof.
  intros H. unfold is_nan. rewrite FloatAxioms.eqb_spec.
  rewrite FloatAxioms.leb_spec in H.
  unfold SFleb in H. unfold SFeqb.
  destruct (Prim2SF x) eqn:E; try (rewrite SFcompare_refl by congruence; reflexivity).
  simpl in H. discriminate.
Qed.

Lemma getToken_isLoggedIn (w : World) (t : jsstring) (expired : bool) :
  getToken w = Some t ->
  t <> [] ->
  isTokenExpired t w = Returns expired ->
  isLoggedIn w = Returns (negb expired).
Proof.
  intros H Hne He. unfold isLoggedIn. apply nonempty_true in Hne.
  rewrite H, Hne, He. reflexivity.
Qed.

(** Only a token with a dot in it decodes. *)
Lemma decodeJwt_empty : decodeJwt [] = JNull.
Proof. reflexivity. Qed.

Lemma split_on_nonempty (sep : N) (s : jsstring) : split_on sep s <> [].
Proof.
  destruct s as [|c s]; simpl; [discriminate|].
  destruct (c =? sep)%N; [discriminate|].
  destruct (split_on sep s); discriminate.
Qed.

(** A string without the separator is one piece. *)
Lemma split_on_without (sep : N) (s : jsstring) :
  ~ In sep s -> split_on sep s = [s].
Proof.
  induction s as [|c s IH]; intros H; simpl; [reflexivity|].
  destruct (N.eqb_spec c sep) as [->|Hne].
  - exfalso. apply H. left. reflexivity.
  - rewrite IH; [reflexivity|]. intros Hin. apply H. right. exact Hin.
Qed.

(** The first piece ends at the first separator. *)
Lemma split_on_app (sep : N) (a b : jsstring) :
  ~ In sep a -> split_on sep (a ++ sep :: b) = a :: split_on sep b.
Proof.
  induction a as [|c a IH]; intros H; simpl.
  - rewrite N.eqb_refl. reflexivity.
  - destruct (N.eqb_spec c sep) as [->|Hne].
    + exfalso. apply H. left. reflexivity.
    + rewrite IH; [reflexivity|]. intros Hin. apply H. right. exact Hin.
Qed.

(** *** The text of a number *)

Lemma uint_digits_digit (u : Decimal.uint) (c : N) :
  In c (uint_digits u) -> is_digit c = true.
Proof.
  induction u; simpl; intros H; [destruct H | ..];
    (destruct H as [<-|H]; [reflexivity | auto]).
Qed.

Lemma nat_digits_digit (z : Z) (c : N) :
  In c (nat_digits z) -> is_digit c = true.
Proof.
  destruct z; simpl.
  - intros [<-|[]]. reflexivity.
  - apply uint_digits_digit.
  - intros [<-|[]]. reflexivity.
Qed.

Lemma shortest_from_digit (f : float) (num den : Z) (fuel : nat) :
  forall (n k : Z) (c : N),
    In c (fst (shortest_from f num den fuel n k)) -> is_digit c = true.
Proof.
  induction fuel as [|fuel IH]; intros n k c; simpl.
  - apply nat_digits_digit.
  - destruct (candidate f num den n k) as [z|]; [|apply IH].
    destruct (z =? 10 ^ k)%Z; simpl.
    + intros [<-|[]]. reflexivity.
    + apply nat_digits_digit.
Qed.

Lemma zeros_digit (n : Z) (c : N) : In c (zeros n) -> is_digit c = true.
Proof. unfold zeros. intros H. apply repeat_spec in H. subst c. reflexivity. Qed.

(** Number::toString lays out digits with a point, an [e] and a sign. *)
Lemma format_number_chars (ds : jsstring) (n : Z) (c : N) :
  (forall d, In d ds -> is_digit d = true) ->
  In c (format_number ds n) ->
  is_digit c = true \/ In c [46; 101; 43; 45]%N.
Proof.
  intros Hds. unfold format_number.
  destruct ((Z.of_nat (List.length ds) <=? n) && (n <=? 21))%Z.
  { intros H. apply in_app_or in H as [H|H];
      [left; apply Hds; exact H | left; exact (zeros_digit _ _ H)]. }
  destruct ((0 <? n) && (n <=? 21))%Z.
  { intros H. pose proof (firstn_skipn (Z.to_nat n) ds) as E.
    apply in_app_or in H as [H|[<-|H]].
    - left. apply Hds. rewrite <- E. apply in_or_app. left. exact H.
    - right. simpl. tauto.
    - left. apply Hds. rewrite <- E. apply in_or_app. right. exact H. }
  destruct ((-6 <? n) && (n <=? 0))%Z.
  { intros H. cbn [app In] in H. destruct H as [<-|[<-|H]].
    - left. reflexivity.
    - right. simpl. tauto.
    - apply in_app_or in H as [H|H];
        [left; exact (zeros_digit _ _ H) | left; apply Hds; exact H]. }
  assert (Hsign : In (if (n - 1 <? 0)%Z then 45 else 43)%N [46; 101; 43; 45]%N).
  { destruct (n - 1 <? 0)%Z; simpl; tauto. }
  destruct ds as [|d [|d' rest]].
  - intros [].
  - intros [<-|[<-|[<-|H]]].
    + left. apply Hds. left. reflexivity.
    + right. simpl. tauto.
    + right. exact Hsign.
    + left. exact (nat_digits_digit _ _ H).
  - intros [<-|[<-|H]].
    + left. apply Hds. left. reflexivity.
    + right. simpl. tauto.
    + apply in_app_or in H as [H|[<-|[<-|H]]].
      * left. apply Hds. right. exact H.
      * right. simpl. tauto.
      * right. exact Hsign.
      * left. exact (nat_digits_digit _ _ H).
Qed.

(** None of [& = # ? /] is in the text of a number. *)
Lemma Number_toString_safe (x : float) (c : N) :
  In c [38; 61; 35; 63; 47]%N -> ~ In c (Number_toString x).
Proof.
  intros Hc H. unfold Number_toString in H.
  destruct (Prim2SF x) as [s|s| |s m e].
  - vm_compute in H. simpl in Hc. intuition congruence.
  - destruct s; vm_compute in H; simpl in Hc; intuition congruence.
  - vm_compute in H. simpl in Hc. intuition congruence.
  - set (num := if (0 <=? e)%Z then (Zpos m * 2 ^ e)%Z else Zpos m) in H.
    set (den := if (0 <=? e)%Z then 1%Z else (2 ^ (- e))%Z) in H.
    pose proof (shortest_from_digit (abs x) num den 17
                  (decimal_exponent num den) 1) as Hds.
    fold (shortest (abs x) num den) in Hds.
    destruct (shortest (abs x) num den) as [ds n]. simpl in Hds.
    assert (Hch : is_digit c = true \/ In c [46; 101; 43; 45]%N).
    { apply in_app_or in H as [H|H].
      - right. destruct s; [|destruct H]. destruct H as [<-|[]]. simpl. tauto.
      - exact (format_number_chars ds n c Hds H). }
    simpl in Hc.
    destruct Hch as [Hd|Hd];
      repeat (destruct Hc as [<-|Hc];
              [first [discriminate Hd | simpl in Hd; intuition discriminate]|]);
      exact Hc.
Qed.

(** *** C1 *)

(** C1 as stated fails for [exp = 0]: the payload is [{"exp":0}], 0 is below
    the clock's seconds, and the token is neither expired for
    [isTokenExpired] nor logged out for [isLoggedIn]. *)
Lemma isTokenExpired_exp_zero_counterexample :
  get (decodeJwt Sample.token_exp0) (js "exp") = JNum 0
  /\ PrimFloat.leb 0
       (Math_floor (Date_now (Sample.world {[TOKEN_KEY := Sample.token_exp0]})
                    / 1000)) = true
  /\ isTokenExpired Sample.token_exp0
       (Sample.world {[TOKEN_KEY := Sample.token_exp0]}) = Returns false
  /\ isLoggedIn (Sample.world {[TOKEN_KEY := Sample.token_exp0]})
     = Returns true.
Proof. repeat split; vm_compute; reflexivity. Qed.

(** C1, amended.  A token whose payload carries a numeric [exp] other than
    zero, with [exp <= floor(Date.now() / 1000)], is expired for
    [isTokenExpired], and [isLoggedIn] is false while it is the stored
    token. *)
Theorem isTokenExpired_rejects_past_nonzero_exp
  (token : jsstring) (exp : float) (w : World) :
  get (decodeJwt token) (js "exp") = JNum exp ->
  is_zero exp = false ->
  PrimFloat.leb exp (Math_floor (Date_now w / 1000)) = true ->
  isTokenExpired token w = Returns true
  /\ (getToken w = Some token -> isLoggedIn w = Returns false).
Proof.
  intros Hexp Hz Hle.
  assert (Hexpired : isTokenExpired token w = Returns true).
  { unfold isTokenExpired. rewrite get_opt_get, Hexp. simpl truthy.
    rewrite Hz, (leb_true_not_nan _ _ Hle). simpl.
    unfold js_le. simpl. rewrite Hle. reflexivity. }
  split; [exact Hexpired|].
  intros Ht. apply (getToken_isLoggedIn _ _ true Ht); [|exact Hexpired].
  intros ->. rewrite decodeJwt_empty in Hexp. discriminate.
Qed.

(** The amended C1 at the payload [{"exp":1700000000}] and the clock at
    1700000000 seconds. *)
Lemma isTokenExpired_rejects_past_nonzero_exp_witness :
  isTokenExpired Sample.token_exp_now
    (Sample.world {[TOKEN_KEY := Sample.token_exp_now]}) = Returns true
  /\ isLoggedIn (Sample.world {[TOKEN_KEY := Sample.token_exp_now]})
     = Returns false.
Proof.
  destruct (isTokenExpired_rejects_past_nonzero_exp
              Sample.token_exp_now 1700000000
              (Sample.world {[TOKEN_KEY := Sample.token_exp_now]}))
    as [Hexpired Hlogged]; [vm_compute; reflexivity ..|].
  split; [exact Hexpired | apply Hlogged; reflexivity].
Defined.

(** *** C10 *)

(** C10.  When [decodeJwt] returns [null] for the token, or the decoded
    payload has no [exp], [isTokenExpired] is false; so [isLoggedIn] is true
    for any non-empty stored token of that kind. *)
Theorem isTokenExpired_false_without_exp (token : jsstring) (w : World) :
  decodeJwt token = JNull \/ get (decodeJwt token) (js "exp") = JUndefined ->
  isTokenExpired token w = Returns false
  /\ (getToken w = Some token -> token <> [] -> isLoggedIn w = Returns true).
Proof.
  intros H.
  assert (Hexp : get (decodeJwt token) (js "exp") = JUndefined).
  { destruct H as [H|H]; [rewrite H; reflexivity | exact H]. }
  assert (Hfalse : isTokenExpired token w = Returns false).
  { unfold isTokenExpired. rewrite get_opt_get, Hexp. reflexivity. }
  split; [exact Hfalse|].
  intros Ht Hne. exact (getToken_isLoggedIn _ _ false Ht Hne Hfalse).
Qed.

(** C10 at a stored token with no dot in it. *)
Lemma isTokenExpired_false_without_exp_witness :
  isTokenExpired (js "opaque-token")
    (Sample.world {[TOKEN_KEY := js "opaque-token"]}) = Returns false
  /\ isLoggedIn (Sample.world {[TOKEN_KEY := js "opaque-token"]})
     = Returns true.
Proof.
  destruct (isTokenExpired_false_without_exp (js "opaque-token")
              (Sample.world {[TOKEN_KEY := js "opaque-token"]}))
    as [Hfalse Hlogged]; [left; vm_compute; reflexivity|].
  split; [exact Hfalse | apply Hlogged; [reflexivity | discriminate]].
Defined.

(** *** Running async code *)

Lemma bind_resolved {A B} (m : Async A) (k : A -> Async B) (w w' : World) (a : A) :
  m w = (Resolved a, w') -> bind m k w = k a w'.
Proof. intros H. unfold bind. rewrite H. reflexivity. Qed.

Lemma bind_rejected {A B} (m : Async A) (k : A -> Async B) (w w' : World)
  (e : JsError) :
  m w = (Rejected e, w') -> bind m k w = (Rejected e, w').
Proof. intros H. unfold bind. rewrite H. reflexivity. Qed.

Lemma fetch_reply (net : Network) (req : Request) (res : Response) (w : World) :
  net req = Reply res ->
  fetch net req w = (Resolved res, with_sent (fun l => l ++ [req]) w).
Proof. intros H. unfold fetch. rewrite H. reflexivity. Qed.

Lemma lift_run {A} (c : Completion A) (w : World) :
  lift c w
  = match c with
    | Returns a => (Resolved a, w)
    | Throws n => (Rejected (engine_error n w), w)
    end.
Proof. destruct c; reflexivity. Qed.

Lemma handleJsonResponse_data (res : Response) (w : World) (data : JsValue) :
  response_data res = Some data ->
  handleJsonResponse res w
  = if res_ok res then (Resolved data, w)
    else match api_error res data with
         | Returns e => (Rejected e, w)
         | Throws n => (Rejected (engine_error n w), w)
         end.
Proof.
  unfold response_data, declares_json, handleJsonResponse, api_error.
  intros H.
  assert (Hdata :
    (if includes (js "application/json") (default [] (res_contentType res))
     then res_json res else ret JNull) w = (Resolved data, w)).
  { destruct (includes (js "application/json")
                (default [] (res_contentType res))).
    - unfold res_json. rewrite H. reflexivity.
    - injection H as <-. reflexivity. }
  rewrite (bind_resolved _ _ _ _ _ Hdata).
  destruct (res_ok res); [reflexivity|].
  destruct (ToString _); reflexivity.
Qed.

Lemma handleJsonResponse_ok (res : Response) (w : World) (data : JsValue) :
  res_ok res = true -> response_data res = Some data ->
  handleJsonResponse res w = (Resolved data, w).
Proof.
  intros Hok Hdata. rewrite (handleJsonResponse_data _ _ _ Hdata), Hok.
  reflexivity.
Qed.

Lemma handleJsonResponse_api_error
  (res : Response) (w : World) (data : JsValue) (e : JsError) :
  res_ok res = false -> response_data res = Some data ->
  api_error res data = Returns e ->
  handleJsonResponse res w = (Rejected e, w).
Proof.
  intros Hok Hdata He. rewrite (handleJsonResponse_data _ _ _ Hdata), Hok, He.
  reflexivity.
Qed.

Lemma handleJsonResponse_bad_json (res : Response) (w : World) :
  response_data res = None ->
  handleJsonResponse res w = (Rejected (engine_error SyntaxError w), w).
Proof.
  unfold response_data, declares_json, handleJsonResponse. intros H.
  destruct (includes (js "application/json") (default [] (res_contentType res)));
    [|discriminate].
  apply bind_rejected. unfold res_json. rewrite H. reflexivity.
Qed.

(** *** C8 *)

(** C8 as stated fails on these four responses. *)
Lemma handleJsonResponse_message_counterexample :
  (* a validation error as FastAPI words it: [detail] is an array *)
  handleJsonResponse
    (Sample.json_response 422 (js "Unprocessable Entity")
       (Sample.json_text "{'detail':[{'msg':'field required'}]}"))
    (Sample.world ∅)
  = (Rejected {| err_message := js "[object Object]";
                 err_status := Some 422%Z;
                 err_data :=
                   JObj [(js "detail",
                          JArr [JObj [(js "msg", JStr (js "field required"))]])]
              |},
     Sample.world ∅)
  (* [detail] is present and empty: the status text is the message *)
  /\ handleJsonResponse
       (Sample.json_response 400 (js "Bad Request")
          (Sample.json_text "{'detail':''}"))
       (Sample.world ∅)
     = (Rejected {| err_message := js "Bad Request";
                    err_status := Some 400%Z;
                    err_data := JObj [(js "detail", JStr [])] |},
        Sample.world ∅)
  (* the body is declared to be JSON and is not: no [status] on the error *)
  /\ handleJsonResponse
       (Sample.json_response 502 (js "Bad Gateway") (js "<html>"))
       (Sample.world ∅)
     = (Rejected {| err_message := Sample.engine SyntaxError;
                    err_status := None;
                    err_data := JUndefined |},
        Sample.world ∅)
  (* [detail] cannot be converted to a string: no [status] either *)
  /\ handleJsonResponse
       (Sample.json_response 400 (js "Bad Request")
          (Sample.json_text "{'detail':{'toString':1}}"))
       (Sample.world ∅)
     = (Rejected {| err_message := Sample.engine TypeError;
                    err_status := None;
                    err_data := JUndefined |},
        Sample.world ∅).
Proof. repeat split; vm_compute; reflexivity. Qed.

(** C8, amended.  For a response that is not ok and whose body, when it is
    declared as JSON, parses, [handleJsonResponse] throws an error whose
    [status] is the HTTP status and whose [data] is the parsed body (or
    [null]), with this message: [String(detail)] when the body's [detail] is
    truthy and converts to a string (so [detail] itself when it is a
    non-empty string), the status text when [detail] is falsy and the status
    text is not empty, and "Request failed" when both are falsy. *)
Theorem handleJsonResponse_error_shape
  (res : Response) (w : World) (data : JsValue) :
  res_ok res = false ->
  response_data res = Some data ->
  (forall message,
      truthy (get_opt data (js "detail")) = true ->
      ToString (get_opt data (js "detail")) = Returns message ->
      handleJsonResponse res w
      = (Rejected {| err_message := message;
                     err_status := Some (res_status res);
                     err_data := data |}, w))
  /\ (forall s,
         get_opt data (js "detail") = JStr s -> s <> [] ->
         handleJsonResponse res w
         = (Rejected {| err_message := s;
                        err_status := Some (res_status res);
                        err_data := data |}, w))
  /\ (truthy (get_opt data (js "detail")) = false ->
      res_statusText res <> [] ->
      handleJsonResponse res w
      = (Rejected {| err_message := res_statusText res;
                     err_status := Some (res_status res);
                     err_data := data |}, w))
  /\ (truthy (get_opt data (js "detail")) = false ->
      res_statusText res = [] ->
      handleJsonResponse res w
      = (Rejected {| err_message := js "Request failed";
                     err_status := Some (res_status res);
                     err_data := data |}, w)).
Proof.
  intros Hok Hdata.
  assert (Htruthy : forall message,
    truthy (get_opt data (js "detail")) = true ->
    ToString (get_opt data (js "detail")) = Returns message ->
    handleJsonResponse res w
    = (Rejected {| err_message := message;
                   err_status := Some (res_status res);
                   err_data := data |}, w)).
  { intros message Ht Hs.
    apply (handleJsonResponse_api_error _ _ _ _ Hok Hdata).
    unfold api_error, js_or. rewrite Ht. cbv iota. rewrite Ht, Hs.
    reflexivity. }
  split; [exact Htruthy|]. split; [|split].
  - intros s Hs Hne. apply Htruthy; rewrite Hs; [|reflexivity].
    destruct s; [congruence | reflexivity].
  - intros Hf Hne. apply (handleJsonResponse_api_error _ _ _ _ Hok Hdata).
    unfold api_error, js_or. rewrite Hf. cbv iota.
    destruct (res_statusText res); [congruence | reflexivity].
  - intros Hf Hs. apply (handleJsonResponse_api_error _ _ _ _ Hok Hdata).
    unfold api_error, js_or. rewrite Hf, Hs. reflexivity.
Qed.

(** The amended C8 at a 409 with [{"detail":"Email already registered"}]. *)
Lemma handleJsonResponse_error_shape_witness :
  handleJsonResponse
    (Sample.json_response 409 (js "Conflict")
       (Sample.json_text "{'detail':'Email already registered'}"))
    (Sample.world ∅)
  = (Rejected {| err_message := js "Email already registered";
                 err_status := Some 409%Z;
                 err_data :=
                   JObj [(js "detail", JStr (js "Email already registered"))]
              |}, Sample.world ∅).
Proof.
  destruct (handleJsonResponse_error_shape
              (Sample.json_response 409 (js "Conflict")
                 (Sample.json_text "{'detail':'Email already registered'}"))
              (Sample.world ∅)
              (JObj [(js "detail", JStr (js "Email already registered"))]))
    as (_ & Hstr & _).
  - vm_compute. reflexivity.
  - vm_compute. reflexivity.
  - apply Hstr; [vm_compute; reflexivity | discriminate].
Defined.

(** *** Storage *)

Lemma keys_differ : TOKEN_KEY <> EMAIL_KEY.
Proof. intros H. vm_compute in H. discriminate. Qed.

Lemma getToken_setToken (tok : jsstring) (w : World) :
  getToken (setToken tok w) = Some tok.
Proof. apply lookup_insert_eq. Qed.

Lemma getToken_setCurrentEmail (e : jsstring) (w : World) :
  getToken (setCurrentEmail e w) = getToken w.
Proof. apply lookup_insert_ne. intros H. apply keys_differ. symmetry. exact H. Qed.

Lemma getCurrentEmail_setCurrentEmail (e : jsstring) (w : World) :
  getCurrentEmail (setCurrentEmail e w) = Some e.
Proof. apply lookup_insert_eq. Qed.

Lemma handleJsonResponse_world {res : Response} {w : World} :
  snd (handleJsonResponse res w) = w.
Proof.
  destruct (response_data res) as [data|] eqn:Hdata.
  - rewrite (handleJsonResponse_data _ _ _ Hdata).
    destruct (res_ok res); [reflexivity|].
    destruct (api_error res data); reflexivity.
  - rewrite (handleJsonResponse_bad_json _ _ Hdata). reflexivity.
Qed.

(** *** C4 *)

Lemma login_resolved
  (net : Network) (email password tok : jsstring) (res : Response)
  (data : JsValue) (w : World) :
  net (login_request email password) = Reply res ->
  res_ok res = true ->
  response_data res = Some data ->
  get data (js "access_token") = JStr tok ->
  login net email password w
  = (Resolved {| token := JStr tok;
                 adm := truthy (get_opt (decodeJwt tok) (js "adm")) |},
     setCurrentEmail email
       (setToken tok
          (with_sent (fun l => l ++ [login_request email password]) w))).
Proof.
  intros Hnet Hok Hdata Htok. unfold login.
  rewrite (bind_resolved _ _ _ _ _ (fetch_reply _ _ _ _ Hnet)).
  rewrite (bind_resolved _ _ _ _ _ (handleJsonResponse_ok _ _ _ Hok Hdata)).
  destruct data as [| | | | |elems|members]; try discriminate Htok.
  unfold get_or_throw, bind, ret, effect. rewrite Htok. reflexivity.
Qed.

(** C4.  For a successful login response (ok, a JSON body whose
    [access_token] is a string), [login] stores that token and the submitted
    email, and returns [adm = Boolean(payload?.adm)] for the payload the
    token decodes to; [Login.handleSubmit] then calls [onLogin] with the role
    "admin" exactly when [adm] is true. *)
Theorem login_stores_token_and_derives_role
  (net : Network) (email password tok : jsstring) (res : Response)
  (data : JsValue) (w : World) :
  net (login_request email password) = Reply res ->
  res_ok res = true ->
  response_data res = Some data ->
  get data (js "access_token") = JStr tok ->
  exists (w' : World) (role : Login.Role),
    login net email password w
    = (Resolved {| token := JStr tok;
                   adm := truthy (get_opt (decodeJwt tok) (js "adm")) |}, w')
    /\ getToken w' = Some tok
    /\ getCurrentEmail w' = Some email
    /\ sent w' = sent w ++ [login_request email password]
    /\ (email <> [] -> password <> [] ->
        Login.handleSubmit net email password w
        = ([Login.setError []; Login.setLoading true;
            Login.onLogin email role; Login.setLoading false], w'))
    /\ (role = Login.admin <->
        truthy (get_opt (decodeJwt tok) (js "adm")) = true).
Proof.
  intros Hnet Hok Hdata Htok.
  pose proof (login_resolved _ _ _ _ _ _ w Hnet Hok Hdata Htok) as Hlogin.
  eexists.
  exists (if truthy (get_opt (decodeJwt tok) (js "adm"))
          then Login.admin else Login.user).
  split; [exact Hlogin|].
  split; [rewrite getToken_setCurrentEmail; apply getToken_setToken|].
  split; [apply getCurrentEmail_setCurrentEmail|].
  split; [reflexivity|].
  split.
  - intros He Hp. unfold Login.handleSubmit.
    apply nonempty_true in He. apply nonempty_true in Hp.
    rewrite He, Hp, Hlogin. reflexivity.
  - destruct (truthy (get_opt (decodeJwt tok) (js "adm")));
      split; congruence.
Qed.

(** C4 at a 200 answer carrying an admin's token. *)
Lemma login_stores_token_and_derives_role_witness :
  exists (w' : World),
    login (fun _ =>
             Reply (Sample.json_response 200 (js "OK")
                      (Sample.json_text "{'access_token':'" ++ Sample.token_admin
                       ++ Sample.json_text "','token_type':'bearer','expires_in':3600}")))
      (js "a@x.com") (js "password123") (Sample.world ∅)
    = (Resolved {| token := JStr Sample.token_admin; adm := true |}, w')
    /\ getToken w' = Some Sample.token_admin
    /\ getCurrentEmail w' = Some (js "a@x.com").
Proof.
  destruct (login_stores_token_and_derives_role
              (fun _ =>
                 Reply (Sample.json_response 200 (js "OK")
                          (Sample.json_text "{'access_token':'" ++ Sample.token_admin
                           ++ Sample.json_text "','token_type':'bearer','expires_in':3600}")))
              (js "a@x.com") (js "password123") Sample.token_admin
              (Sample.json_response 200 (js "OK")
                 (Sample.json_text "{'access_token':'" ++ Sample.token_admin
                  ++ Sample.json_text "','token_type':'bearer','expires_in':3600}"))
              (JObj [(js "access_token", JStr Sample.token_admin);
                     (js "token_type", JStr (js "bearer"));
                     (js "expires_in", JNum 3600)])
              (Sample.world ∅))
    as (w' & role & Hlogin & Htok & Hemail & _).
  - reflexivity.
  - reflexivity.
  - vm_compute. reflexivity.
  - vm_compute. reflexivity.
  - exists w'. split; [|split; assumption].
    rewrite Hlogin. vm_compute. reflexivity.
Defined.

(** *** C5 *)

(** C5 (what the code does).  [logout] removes the token and the email from
    [localStorage] and hands nothing to [fetch]; [App.handleLogout] does no
    more to the world.  No request reaches the server, so a server-side
    session is left as it was. *)
Theorem logout_only_clears_localStorage (w : World) :
  sent (logout w) = sent w
  /\ getToken (logout w) = None
  /\ getCurrentEmail (logout w) = None
  /\ (forall st, snd (App.handleLogout st w) = logout w).
Proof.
  split; [reflexivity|].
  split.
  - unfold logout, clearSession, getToken, localStorage_getItem,
      localStorage_removeItem, with_storage. simpl.
    rewrite lookup_delete_ne by (intros H; apply keys_differ; symmetry; exact H).
    apply lookup_delete_eq.
  - split; [|reflexivity].
    unfold logout, clearSession, getCurrentEmail, localStorage_getItem,
      localStorage_removeItem, with_storage. simpl.
    apply lookup_delete_eq.
Qed.

(** *** C7 *)

(** C7.  When the password has fewer than 8 code units or the email has no
    "@", [Register.handleSubmit] shows an error message and leaves the world
    as it was: nothing is handed to [fetch]. *)
Theorem Register_rejects_invalid_input
  (net : Network) (email password : jsstring) (w : World) :
  (str_length password < 8)%Z \/ includes (js "@") email = false ->
  exists msg : jsstring,
    msg <> []
    /\ Register.handleSubmit net email password w
       = ([Register.setError []; Register.setSuccess false;
           Register.setError msg], w)
    /\ sent (snd (Register.handleSubmit net email password w)) = sent w.
Proof.
  intros H. unfold Register.handleSubmit.
  destruct (negb (nonempty email) || negb (includes (js "@") email)) eqn:He.
  - exists (js "Please enter a valid email address").
    repeat split. discriminate.
  - destruct (str_length password <? 8)%Z eqn:Hp.
    + exists (js "Password must be at least 8 characters").
      repeat split. discriminate.
    + exfalso. apply orb_false_elim in He as [_ Hat].
      apply negb_false_iff in Hat. apply Z.ltb_ge in Hp.
      destruct H as [H|H]; [lia | congruence].
Qed.

(** C7 at the password "short". *)
Lemma Register_rejects_invalid_input_witness :
  exists msg : jsstring,
    msg <> []
    /\ Register.handleSubmit (fun _ => NetworkError []) (js "a@x.com")
         (js "short") (Sample.world ∅)
       = ([Register.setError []; Register.setSuccess false;
           Register.setError msg], Sample.world ∅)
    /\ sent (snd (Register.handleSubmit (fun _ => NetworkError [])
                    (js "a@x.com") (js "short") (Sample.world ∅)))
       = sent (Sample.world ∅).
Proof.
  apply (Register_rejects_invalid_input (fun _ => NetworkError [])
           (js "a@x.com") (js "short") (Sample.world ∅)).
  left. vm_compute. reflexivity.
Defined.

(** A valid form does reach [fetch], with the request of [register]. *)
Example Register_valid_input_sends :
  sent (snd (Register.handleSubmit
               (fun _ => Reply (Sample.json_response 201 (js "Created")
                                  (Sample.json_text "{'id':1}")))
               (js "a@x.com") (js "password123") (Sample.world ∅)))
  = [register_request (js "a@x.com") (js "password123")].
Proof. vm_compute. reflexivity. Qed.

(** *** C6 *)

Lemma boolean_param_In (k name value : jsstring) (changes : Changes) :
  In (name, value) (boolean_param k changes) <->
  name = k
  /\ exists b, own_property k changes = Some (JBool b)
               /\ value = Boolean_toString b.
Proof.
  unfold boolean_param. split.
  - destruct (own_property k changes) as [[]|] eqn:E; simpl; try tauto.
    intros [H|[]]. injection H as <- <-. split; [reflexivity|].
    exists b. split; reflexivity.
  - intros [-> (b & -> & ->)]. left. reflexivity.
Qed.

Lemma adminUpdateUser_sent
  (net : Network) (userId : float) (changes : Changes) (w : World) :
  sent (snd (adminUpdateUser net userId changes w))
  = sent w ++ [adminUpdateUser_request userId changes w].
Proof.
  unfold adminUpdateUser, bind, fetch.
  destruct (net (adminUpdateUser_request userId changes w)) as [msg|res].
  - reflexivity.
  - rewrite handleJsonResponse_world. reflexivity.
Qed.

Lemma boolean_param_cases (name : jsstring) (changes : Changes) :
  boolean_param name changes = []
  \/ boolean_param name changes = [(name, js "true")]
  \/ boolean_param name changes = [(name, js "false")].
Proof.
  unfold boolean_param.
  destruct (own_property name changes) as [v|]; [|left; reflexivity].
  destruct v; try (left; reflexivity).
  match goal with b : bool |- _ => destruct b end;
    [right; left | right; right]; reflexivity.
Qed.

Lemma forallb_not_in (c : N) (s : jsstring) :
  forallb (fun x => negb (x =? c)%N) s = true -> ~ In c s.
Proof.
  intros H Hin. rewrite forallb_forall in H. specialize (H c Hin).
  rewrite N.eqb_refl in H. discriminate.
Qed.

Lemma adminUpdateUser_url (userId : float) (changes : Changes) (w : World) :
  req_url (adminUpdateUser_request userId changes w)
  = (js "/api/admin/users/" ++ Number_toString userId)
    ++ 63%N :: URLSearchParams_toString (adminUpdateUser_params changes).
Proof. reflexivity. Qed.

Lemma adminUpdateUser_path (userId : float) :
  ~ In 63%N (js "/api/admin/users/" ++ Number_toString userId).
Proof.
  intros H. apply in_app_or in H as [H|H].
  - vm_compute in H. intuition discriminate.
  - apply (Number_toString_safe userId 63%N); [simpl; tauto | exact H].
Qed.

(** The query [adminUpdateUser] writes, read as text: it has no [?], and cut
    at [&] and then at [=] it gives the parameters back. *)
Lemma adminUpdateUser_query (changes : Changes) :
  ~ In 63%N (URLSearchParams_toString (adminUpdateUser_params changes))
  /\ map (split_on 61)
       (split_on 38 (URLSearchParams_toString (adminUpdateUser_params changes)))
     = match adminUpdateUser_params changes with
       | [] => [[[]]]
       | params => map (fun p => [fst p; snd p]) params
       end
  /\ Backend.query_of_url
       (63%N :: URLSearchParams_toString (adminUpdateUser_params changes))
     = adminUpdateUser_params changes.
Proof.
  unfold adminUpdateUser_params.
  destruct (boolean_param_cases (js "make_admin") changes) as [->|[->| ->]];
    destruct (boolean_param_cases (js "verify_email") changes) as [->|[->| ->]];
    destruct (boolean_param_cases (js "deactivate") changes) as [->|[->| ->]];
    (split; [apply forallb_not_in; vm_compute; reflexivity|]);
    split; vm_compute; reflexivity.
Qed.

Lemma query_of_url_path (path query : jsstring) :
  ~ In 63%N path ->
  Backend.query_of_url (path ++ 63%N :: query)
  = Backend.query_of_url (63%N :: query).
Proof.
  intros H. unfold Backend.query_of_url.
  rewrite (split_on_app 63 path query H).
  change (split_on 63 (63%N :: query)) with ([] :: split_on 63 query).
  reflexivity.
Qed.

(** What the server reads off the address [adminUpdateUser] sends is the
    list of parameters the function built. *)
Lemma adminUpdateUser_query_read
  (userId : float) (changes : Changes) (w : World) :
  Backend.query_of_url (req_url (adminUpdateUser_request userId changes w))
  = adminUpdateUser_params changes.
Proof.
  rewrite adminUpdateUser_url.
  rewrite (query_of_url_path _ _ (adminUpdateUser_path userId)).
  apply adminUpdateUser_query.
Qed.

(** C6.  [adminUpdateUser] puts into the query exactly the flags among
    [make_admin], [verify_email], [deactivate] that are booleans in
    [changes], each with [String] of its value.  On the wire: the address is
    [/api/admin/users/], the id, a [?] and the query; the query, cut at [&]
    and then at [=], is the list of those flags with [true] or [false], and
    nothing when no flag is supplied, so the server reads exactly the flags
    that were supplied.  [AdminUsers.handleUpdateUser] hands the function
    only the flags whose desired value differs from the selected user's
    record ([deactivate] being the negation of the desired [is_active]), and
    sends one request.  On a server that writes only the flags it reads off
    that address, whatever record [current] it holds by then keeps each flag
    the form did not change and gets the desired value of each flag it
    did. *)
Theorem adminUpdateUser_sends_only_supplied_flags
  (net : Network) (u : AdminUsers.User) (formData : AdminUsers.FormData)
  (w : World) :
  (forall (changes : Changes) (name value : jsstring),
      In (name, value) (adminUpdateUser_params changes) <->
      (name = js "make_admin" \/ name = js "verify_email"
       \/ name = js "deactivate")
      /\ exists b, own_property name changes = Some (JBool b)
                   /\ value = Boolean_toString b)
  /\ (forall (userId : float) (changes : Changes) (w0 : World),
         exists query : jsstring,
           req_url (adminUpdateUser_request userId changes w0)
           = js "/api/admin/users/" ++ Number_toString userId
             ++ 63%N :: query
           /\ split_on 63 (req_url (adminUpdateUser_request userId changes w0))
              = [js "/api/admin/users/" ++ Number_toString userId; query]
           /\ map (split_on 61) (split_on 38 query)
              = match adminUpdateUser_params changes with
                | [] => [[[]]]
                | params => map (fun p => [fst p; snd p]) params
                end
           /\ Backend.query_of_url
                (req_url (adminUpdateUser_request userId changes w0))
              = adminUpdateUser_params changes)
  /\ adminUpdateUser_params (AdminUsers.build_changes formData u)
     = (if negb (eqb (AdminUsers.form_is_admin formData) (AdminUsers.is_admin u))
        then [(js "make_admin",
               Boolean_toString (AdminUsers.form_is_admin formData))]
        else [])
       ++ (if negb (eqb (AdminUsers.form_email_verified formData)
                      (AdminUsers.email_verified u))
           then [(js "verify_email",
                  Boolean_toString (AdminUsers.form_email_verified formData))]
           else [])
       ++ (if negb (eqb (AdminUsers.form_is_active formData)
                      (AdminUsers.is_active u))
           then [(js "deactivate",
                  Boolean_toString (negb (AdminUsers.form_is_active formData)))]
           else [])
  /\ sent (snd (AdminUsers.handleUpdateUser net (Some u) formData w))
     = sent w
       ++ [adminUpdateUser_request (AdminUsers.id u)
             (AdminUsers.build_changes formData u) w]
  /\ (forall current : Backend.User,
         let query :=
           Backend.query_of_url
             (req_url (adminUpdateUser_request (AdminUsers.id u)
                         (AdminUsers.build_changes formData u) w)) in
         Backend.is_admin (Backend.patch_user query current)
         = (if eqb (AdminUsers.form_is_admin formData) (AdminUsers.is_admin u)
            then Backend.is_admin current
            else AdminUsers.form_is_admin formData)
         /\ Backend.email_verified (Backend.patch_user query current)
            = (if eqb (AdminUsers.form_email_verified formData)
                    (AdminUsers.email_verified u)
               then Backend.email_verified current
               else AdminUsers.form_email_verified formData)
         /\ Backend.is_active (Backend.patch_user query current)
            = (if eqb (AdminUsers.form_is_active formData)
                    (AdminUsers.is_active u)
               then Backend.is_active current
               else AdminUsers.form_is_active formData)).
Proof.
  split; [|split; [|split; [|split]]].
  - intros changes name value. unfold adminUpdateUser_params.
    rewrite !in_app_iff, !boolean_param_In. split.
    + intros [[-> H]|[[-> H]|[-> H]]]; split; auto.
    + intros [[->|[->| ->]] H]; auto.
  - intros userId changes w0.
    exists (URLSearchParams_toString (adminUpdateUser_params changes)).
    destruct (adminUpdateUser_query changes) as (Hq & Hfields & _).
    split; [reflexivity|]. split; [|split].
    + rewrite adminUpdateUser_url.
      rewrite (split_on_app 63 _ _ (adminUpdateUser_path userId)).
      rewrite (split_on_without 63 _ Hq). reflexivity.
    + exact Hfields.
    + apply adminUpdateUser_query_read.
  - destruct u as [i e uv ua uact c], formData as [fa fv fact].
    destruct uv, ua, uact, fa, fv, fact; reflexivity.
  - pose proof (adminUpdateUser_sent net (AdminUsers.id u)
                  (AdminUsers.build_changes formData u) w) as Hsent.
    unfold AdminUsers.handleUpdateUser.
    destruct (adminUpdateUser net (AdminUsers.id u)
                (AdminUsers.build_changes formData u) w) as [[updated|err] w'];
      exact Hsent.
  - intros current. cbv zeta. rewrite adminUpdateUser_query_read.
    destruct u as [i e uv ua uact c], formData as [fa fv fact].
    destruct uv, ua, uact, fa, fv, fact; repeat split; reflexivity.
Qed.

(** The admin flips "active" on a verified non-admin: one parameter. *)
Example handleUpdateUser_deactivate_only :
  map req_url
    (sent (snd (AdminUsers.handleUpdateUser
                  (fun _ => NetworkError [])
                  (Some {| AdminUsers.id := 5; AdminUsers.email := js "a@x.com";
                           AdminUsers.email_verified := true;
                           AdminUsers.is_admin := false;
                           AdminUsers.is_active := true;
                           AdminUsers.created_at := [] |})
                  {| AdminUsers.form_is_admin := false;
                     AdminUsers.form_email_verified := true;
                     AdminUsers.form_is_active := false |}
                  (Sample.world ∅))))
  = [js "/api/admin/users/5?deactivate=true"].
Proof. vm_compute. reflexivity. Qed.

(** The admin makes an unverified user an admin and marks the email
    verified: two parameters, and no [deactivate]. *)
Example handleUpdateUser_two_flags :
  map req_url
    (sent (snd (AdminUsers.handleUpdateUser
                  (fun _ => NetworkError [])
                  (Some {| AdminUsers.id := 12; AdminUsers.email := js "a@x.com";
                           AdminUsers.email_verified := false;
                           AdminUsers.is_admin := false;
                           AdminUsers.is_active := true;
                           AdminUsers.created_at := [] |})
                  {| AdminUsers.form_is_admin := true;
                     AdminUsers.form_email_verified := true;
                     AdminUsers.form_is_active := true |}
                  (Sample.world ∅))))
  = [js "/api/admin/users/12?make_admin=true&verify_email=true"].
Proof. vm_compute. reflexivity. Qed.

(** *** C2 *)











(** The table keeps no record of a spent token: a string that [issue] is
    handed a second time is a new token, for the user of the second call. *)
Example issue_of_a_spent_string :
  fst (Backend.consume (js "a1") Sample.backend) = inr 1%Z
  /\ fst (Backend.consume (js "a1")
            (snd (Backend.issue (js "a1") 2
                    (snd (Backend.consume (js "a1") Sample.backend)))))
     = inr 2%Z
  /\ Backend.successes (js "a1")
       [Backend.Consume (js "a1"); Backend.Issue 2 (js "a1");
        Backend.Consume (js "a1"); Backend.Consume (js "a1")]
       Sample.backend
     = 2.
Proof. repeat split; vm_compute; reflexivity. Qed.

(** *** C9 *)

(** The register handler is not among the sources, and [Backend.issue] is
    handed the string it stores: the model does not say how the string is
    drawn.  The README says what the running server hands out: "the token is
    always (a1) for easy testing".  With that string for a second account,
    the token of the first account is taken over: "a1" then verifies the
    second account, and no token is left for the first. *)
Example one_string_for_two_users :
  Backend.tokens (snd (Backend.issue (js "a1") 2 Sample.backend)) !! js "a1"
  = Some 2%Z
  /\ fst (Backend.consume (js "a1")
            (snd (Backend.issue (js "a1") 2 Sample.backend)))
     = inr 2%Z
  /\ Backend.tokens
       (snd (Backend.consume (js "a1")
               (snd (Backend.issue (js "a1") 2 Sample.backend))))
     = ∅
  /\ Backend.email_verified
       <$> Backend.users
             (snd (Backend.consume (js "a1")
                     (snd (Backend.issue (js "a1") 2 Sample.backend)))) !! 1%Z
     = Some false.
Proof. repeat split; vm_compute; reflexivity. Qed.

(** *** C3 *)

Lemma api_error_status (res : Response) (data : JsValue) (e : JsError) :
  api_error res data = Returns e -> err_status e = Some (res_status res).
Proof.
  unfold api_error. destruct (ToString _); simpl; [|discriminate].
  intros H. injection H as <-. reflexivity.
Qed.

Lemma login_rejected
  (net : Network) (email password : jsstring) (res : Response)
  (data : JsValue) (e : JsError) (w : World) :
  net (login_request email password) = Reply res ->
  res_ok res = false ->
  response_data res = Some data ->
  api_error res data = Returns e ->
  login net email password w
  = (Rejected e, with_sent (fun l => l ++ [login_request email password]) w).
Proof.
  intros Hnet Hok Hdata He. unfold login.
  rewrite (bind_resolved _ _ _ _ _ (fetch_reply _ _ _ _ Hnet)).
  apply bind_rejected.
  apply (handleJsonResponse_api_error _ _ _ _ Hok Hdata He).
Qed.

(** The client half: a 403 answer to the login request. *)
Lemma Login_on_403
  (net : Network) (email password : jsstring) (res : Response) (w : World) :
  email <> [] -> password <> [] ->
  net (login_request email password) = Reply res ->
  res_status res = 403%Z ->
  readable_error res ->
  Login.handleSubmit net email password w
  = ([Login.setError []; Login.setLoading true;
      Login.setError (js "Email not verified");
      Login.onRequireVerification email; Login.setLoading false],
     with_sent (fun l => l ++ [login_request email password]) w).
Proof.
  intros He Hp Hnet Hst (data & e & Hdata & Herr).
  assert (Hok : res_ok res = false) by (unfold res_ok; rewrite Hst; reflexivity).
  pose proof (login_rejected _ _ _ _ _ _ w Hnet Hok Hdata Herr) as Hlogin.
  apply api_error_status in Herr.
  unfold Login.handleSubmit.
  apply nonempty_true in He. apply nonempty_true in Hp.
  rewrite He, Hp, Hlogin. unfold Login.on_error. rewrite Herr, Hst.
  reflexivity.
Qed.

(** C3.  A login attempt by a registered, unverified account is answered
    with Unverified, which is status 403 and not the status of bad
    credentials, whatever the password; and on a 403 answer
    [Login.handleSubmit] shows "Email not verified", calls
    [onRequireVerification] with the attempted email and neither [onLogin]
    nor anything that stores a token, after which [App] renders the
    verification screen for that email. *)
Theorem unverified_login_routes_to_verification
  (s : Backend.State) (u : Backend.User) (email password : jsstring) :
  Backend.find_by_email email s = Some u ->
  Backend.email_verified u = false ->
  Backend.login_check email password s = inl Backend.Unverified
  /\ Backend.status_code Backend.Unverified = 403%Z
  /\ Backend.status_code Backend.BadCredentials <> 403%Z
  /\ (forall (net : Network) (res : Response) (w : World) (st : App.State),
         email <> [] -> password <> [] ->
         net (login_request email password) = Reply res ->
         res_status res = Backend.status_code Backend.Unverified ->
         readable_error res ->
         Login.handleSubmit net email password w
         = ([Login.setError []; Login.setLoading true;
             Login.setError (js "Email not verified");
             Login.onRequireVerification email; Login.setLoading false],
            with_sent (fun l => l ++ [login_request email password]) w)
         /\ (App.currentUser st = None ->
             App.render
               (App.after_login_events
                  (fst (Login.handleSubmit net email password w)) st)
             = App.VerifyEmailScreen (Some email))).
Proof.
  intros Hfind Hunverified.
  split.
  { unfold Backend.login_check. rewrite Hfind, Hunverified. reflexivity. }
  split; [reflexivity|]. split; [discriminate|].
  intros net res w st He Hp Hnet Hst Hdata.
  pose proof (Login_on_403 net email password res w He Hp Hnet Hst Hdata) as Hrun.
  split; [exact Hrun|].
  intros Hcur. rewrite Hrun. unfold App.render. simpl. rewrite Hcur.
  reflexivity.
Qed.

(** C3 on the sample server, with the email typed in another case. *)
Lemma unverified_login_routes_to_verification_witness :
  Backend.login_check (js "A@x.com") (js "password123") Sample.backend
  = inl Backend.Unverified
  /\ fst (Login.handleSubmit
            (fun _ => Reply (Sample.json_response 403 (js "Forbidden")
                               (Sample.json_text "{'detail':'Email not verified'}")))
            (js "A@x.com") (js "password123") (Sample.world ∅))
     = [Login.setError []; Login.setLoading true;
        Login.setError (js "Email not verified");
        Login.onRequireVerification (js "A@x.com"); Login.setLoading false].
Proof.
  destruct (unverified_login_routes_to_verification
              Sample.backend Sample.unverified_user
              (js "A@x.com") (js "password123"))
    as (Hcheck & _ & _ & Hclient).
  - vm_compute. reflexivity.
  - reflexivity.
  - split; [exact Hcheck|].
    destruct (Hclient
                (fun _ => Reply (Sample.json_response 403 (js "Forbidden")
                                   (Sample.json_text "{'detail':'Email not verified'}")))
                (Sample.json_response 403 (js "Forbidden")
                   (Sample.json_text "{'detail':'Email not verified'}"))
                (Sample.world ∅)
                {| App.currentPage := js "login"; App.currentUser := None;
                   App.pendingVerificationEmail := None |})
      as [Hrun _];
      [discriminate | discriminate | reflexivity | reflexivity | | ].
    + exists (JObj [(js "detail", JStr (js "Email not verified"))]).
      exists {| err_message := js "Email not verified";
                err_status := Some 403%Z;
                err_data := JObj [(js "detail", JStr (js "Email not verified"))]
             |}.
      split; vm_compute; reflexivity.
    + rewrite Hrun. reflexivity.
Defined.

(** The scenario of section 8 on the modelled server: login is refused as
    Unverified, the token verifies the account, login passes; a wrong
    password is bad credentials only once the account is verified. *)
Example backend_scenario :
  Backend.login_check (js "a@x.com") (js "password123") Sample.backend
  = inl Backend.Unverified
  /\ Backend.login_check (js "a@x.com") (js "wrong") Sample.backend
     = inl Backend.Unverified
  /\ fst (Backend.consume (js "a1") Sample.backend) = inr 1%Z
  /\ Backend.login_check (js "a@x.com") (js "password123")
       (snd (Backend.consume (js "a1") Sample.backend))
     = inr (Backend.mark_verified Sample.unverified_user)
  /\ Backend.login_check (js "a@x.com") (js "wrong")
       (snd (Backend.consume (js "a1") Sample.backend))
     = inl Backend.BadCredentials
  /\ Backend.login_check (js "b@x.com") (js "password123") Sample.backend
     = inl Backend.BadCredentials.
Proof. repeat split; vm_compute; reflexivity. Qed.

(* ===================================================================== *)
(** ** Part 7: further properties of the client                           *)
(* ===================================================================== *)

(** *** Strings: replacing *)

Lemma replace_all_not_in (a b c : N) (s : jsstring) :
  c <> b -> ~ In c s -> ~ In c (replace_all a b s).
Proof.
  intros Hb Hs Hin. unfold replace_all in Hin. apply in_map_iff in Hin.
  destruct Hin as (x & Hx & Hin). destruct (x =? a)%N; congruence.
Qed.

Lemma replace_all_twice (a b : N) (s : jsstring) :
  a <> b -> replace_all a b (replace_all a b s) = replace_all a b s.
Proof.
  intros Hab. unfold replace_all. rewrite map_map. apply map_ext. intros c.
  destruct (N.eqb_spec c a) as [->|Hc].
  - destruct (N.eqb_spec b a); congruence.
  - destruct (N.eqb_spec c a); congruence.
Qed.

Lemma replace_all_comm (a b c d : N) (s : jsstring) :
  a <> c -> a <> d -> c <> b ->
  replace_all a b (replace_all c d s) = replace_all c d (replace_all a b s).
Proof.
  intros Hac Had Hcb. unfold replace_all. rewrite !map_map. apply map_ext.
  intros x.
  destruct (N.eqb_spec x c); destruct (N.eqb_spec x a); cbv iota;
    repeat match goal with
           | |- context [N.eqb ?u ?v] => destruct (N.eqb_spec u v); cbv iota
           end; congruence.
Qed.

(** Turning the URL-safe alphabet into the standard one a second time
    changes nothing. *)
Lemma base64url_twice (p : jsstring) :
  replace_all 95 47 (replace_all 45 43 (replace_all 95 47 (replace_all 45 43 p)))
  = replace_all 95 47 (replace_all 45 43 p).
Proof.
  rewrite (replace_all_comm 45 43 95 47) by discriminate.
  rewrite (replace_all_twice 45 43) by discriminate.
  rewrite (replace_all_twice 95 47) by discriminate. reflexivity.
Qed.

(** *** [decodeJwt] *)

Lemma decodeJwt_segments (h p rest : jsstring) :
  ~ In 46%N h -> ~ In 46%N p ->
  decodeJwt (h ++ 46%N :: p ++ 46%N :: rest) = decodeJwt (46%N :: p)
  /\ decodeJwt (h ++ 46%N :: p) = decodeJwt (46%N :: p).
Proof.
  intros Hh Hp. unfold decodeJwt.
  rewrite (split_on_app 46 h _ Hh), (split_on_app 46 p _ Hp).
  rewrite (split_on_app 46 h p Hh), (split_on_without 46 p Hp).
  change (46%N :: p) with ([] ++ 46%N :: p).
  rewrite (split_on_app 46 [] p) by (intros []).
  rewrite (split_on_without 46 p Hp).
  destruct (split_on 46 rest) eqn:E; [exfalso; exact (split_on_nonempty _ _ E)|].
  split; reflexivity.
Qed.

(** X1.  [decodeJwt] reads the second dot-separated segment of the token and
    nothing else: tokens with the same payload segment decode alike whatever
    their header, their signature and their further segments are, also when
    the signature is missing; the URL-safe and the standard base64 alphabet
    are read alike; and so [isTokenExpired] cannot tell such tokens apart
    either.  Nothing about a signature is ever checked. *)
Theorem decodeJwt_reads_only_the_payload_segment
  (h h' p rest rest' : jsstring) :
  ~ In 46%N h -> ~ In 46%N h' -> ~ In 46%N p ->
  decodeJwt (h ++ 46%N :: p ++ 46%N :: rest)
  = decodeJwt (h' ++ 46%N :: p ++ 46%N :: rest')
  /\ decodeJwt (h ++ 46%N :: p) = decodeJwt (h ++ 46%N :: p ++ 46%N :: rest)
  /\ decodeJwt
       (h ++ 46%N :: replace_all 95 47 (replace_all 45 43 p) ++ 46%N :: rest)
     = decodeJwt (h ++ 46%N :: p ++ 46%N :: rest)
  /\ (forall w : World,
         isTokenExpired (h ++ 46%N :: p ++ 46%N :: rest) w
         = isTokenExpired (h' ++ 46%N :: p ++ 46%N :: rest') w).
Proof.
  intros Hh Hh' Hp.
  destruct (decodeJwt_segments h p rest Hh Hp) as [E1 E2].
  destruct (decodeJwt_segments h' p rest' Hh' Hp) as [E1' _].
  assert (Hq : ~ In 46%N (replace_all 95 47 (replace_all 45 43 p))).
  { apply replace_all_not_in; [discriminate|].
    apply replace_all_not_in; [discriminate | exact Hp]. }
  destruct (decodeJwt_segments h _ rest Hh Hq) as [E3 _].
  split; [congruence|]. split; [congruence|]. split.
  - rewrite E3, E1. unfold decodeJwt.
    change (46%N :: ?x) with ([] ++ 46%N :: x).
    rewrite !(split_on_app 46 []) by (intros []).
    rewrite (split_on_without 46 _ Hq), (split_on_without 46 _ Hp).
    rewrite base64url_twice. reflexivity.
  - intros w. unfold isTokenExpired. rewrite E1, E1'. reflexivity.
Qed.

(** X1 at the payload [{"exp":0}] under two headers and two signatures. *)
Lemma decodeJwt_reads_only_the_payload_segment_witness :
  decodeJwt (js "e30.eyJleHAiOjB9.sig")
  = decodeJwt (js "other.eyJleHAiOjB9.forged.twice").
Proof.
  apply (decodeJwt_reads_only_the_payload_segment
           (js "e30") (js "other") (js "eyJleHAiOjB9") (js "sig")
           (js "forged.twice"));
    intros H; vm_compute in H; intuition discriminate.
Defined.

(** *** [isTokenExpired] before the expiry *)

(** X2.  A token whose payload carries a numeric [exp] that is not at or
    below [floor(Date.now() / 1000)] is not expired for [isTokenExpired], and
    [isLoggedIn] is true while it is the stored token. *)
Theorem isTokenExpired_false_before_exp
  (token : jsstring) (exp : float) (w : World) :
  get (decodeJwt token) (js "exp") = JNum exp ->
  PrimFloat.leb exp (Math_floor (Date_now w / 1000)) = false ->
  isTokenExpired token w = Returns false
  /\ (getToken w = Some token -> isLoggedIn w = Returns true).
Proof.
  intros Hexp Hle.
  assert (Hfalse : isTokenExpired token w = Returns false).
  { unfold isTokenExpired. rewrite get_opt_get, Hexp. simpl truthy.
    destruct (negb (negb (is_zero exp || is_nan exp))); [reflexivity|].
    unfold js_le. simpl. rewrite Hle. reflexivity. }
  split; [exact Hfalse|].
  intros Ht. apply (getToken_isLoggedIn _ _ false Ht); [|exact Hfalse].
  intros ->. rewrite decodeJwt_empty in Hexp. discriminate.
Qed.

(** X2 at the payload [{"exp":1700000001}], one second ahead of the
    clock. *)
Lemma isTokenExpired_false_before_exp_witness :
  isTokenExpired Sample.token_exp_later
    (Sample.world {[TOKEN_KEY := Sample.token_exp_later]}) = Returns false
  /\ isLoggedIn (Sample.world {[TOKEN_KEY := Sample.token_exp_later]})
     = Returns true.
Proof.
  destruct (isTokenExpired_false_before_exp
              Sample.token_exp_later 1700000001
              (Sample.world {[TOKEN_KEY := Sample.token_exp_later]}))
    as [Hfalse Hlogged]; [vm_compute; reflexivity ..|].
  split; [exact Hfalse | apply Hlogged; reflexivity].
Defined.

(** *** [handleJsonResponse] *)

Lemma handleJsonResponse_resolved
  (res : Response) (w w' : World) (v : JsValue) :
  handleJsonResponse res w = (Resolved v, w') ->
  res_ok res = true /\ response_data res = Some v /\ w' = w.
Proof.
  destruct (response_data res) as [data|] eqn:Hdata.
  - rewrite (handleJsonResponse_data _ _ _ Hdata).
    destruct (res_ok res).
    + intros H. injection H as <- <-. auto.
    + destruct (api_error res data); discriminate.
  - rewrite (handleJsonResponse_bad_json _ _ Hdata). discriminate.
Qed.

(** X3.  [handleJsonResponse] resolves exactly when the response is ok and
    its body, when it is declared as JSON, parses; it then resolves to the
    parsed body, or to [null] for a body that is not declared as JSON (which
    is never read).  Resolving or rejecting, it leaves [localStorage] alone
    and hands nothing to [fetch]. *)
Theorem handleJsonResponse_resolves_iff_ok
  (res : Response) (w w' : World) (v : JsValue) :
  (handleJsonResponse res w = (Resolved v, w')
   <-> res_ok res = true /\ response_data res = Some v /\ w' = w)
  /\ snd (handleJsonResponse res w) = w.
Proof.
  split; [|apply handleJsonResponse_world].
  split; [apply handleJsonResponse_resolved|].
  intros (Hok & Hdata & ->). apply handleJsonResponse_ok; assumption.
Qed.

(** *** [JSON.parse] after [JSON.stringify] *)

Lemma lex_silent (st st' : lexstate) (c : N) (r : jsstring) :
  lex_step st c = Some ([], st') -> lex st (c :: r) = lex st' r.
Proof. intros H. simpl. rewrite H. destruct (lex st' r); reflexivity. Qed.

Lemma lex_emit (st st' : lexstate) (c : N) (t : Js.token) (r : jsstring) :
  lex_step st c = Some ([t], st') -> lex st (c :: r) = emit t (lex st' r).
Proof. intros H. simpl. rewrite H. reflexivity. Qed.

Lemma lex_plain (acc : jsstring) (c : N) (r : jsstring) :
  c <> 34%N -> c <> 92%N -> (32 <= c)%N ->
  lex (LStr acc) (c :: r) = lex (LStr (c :: acc)) r.
Proof.
  intros H1 H2 H3. apply lex_silent. simpl.
  destruct (N.eqb_spec c 34); [congruence|].
  destruct (N.eqb_spec c 92); [congruence|].
  destruct (N.ltb_spec c 32); [lia | reflexivity].
Qed.

Lemma lex_escape (acc : jsstring) (e x : N) (r : jsstring) :
  e <> 117%N -> unescape e = Some x ->
  lex (LStr acc) (92%N :: e :: r) = lex (LStr (x :: acc)) r.
Proof.
  intros He Hx. rewrite (lex_silent (LStr acc) (LEsc acc)) by reflexivity.
  apply lex_silent. simpl.
  destruct (N.eqb_spec e 117); [congruence|]. rewrite Hx. reflexivity.
Qed.

Lemma hex_val_lower (d : N) : (d < 16)%N -> hex_val (hex_digit_lower d) = Some d.
Proof.
  intros H. unfold hex_val, hex_digit_lower, is_digit.
  destruct (N.ltb_spec d 10).
  - destruct (N.leb_spec 48 (48 + d)); [|lia].
    destruct (N.leb_spec (48 + d) 57); [|lia]. simpl. f_equal. lia.
  - destruct (N.leb_spec 48 (87 + d)); [|lia].
    destruct (N.leb_spec (87 + d) 57); [lia|]. simpl.
    destruct (N.leb_spec 65 (87 + d)); [|lia].
    destruct (N.leb_spec (87 + d) 70); [lia|]. simpl.
    destruct (N.leb_spec 97 (87 + d)); [|lia].
    destruct (N.leb_spec (87 + d) 102); [|lia]. simpl. f_equal. lia.
Qed.

(** The lexer reads the six characters of a unicode escape back as the code
    unit. *)
Lemma lex_unicode_escape (acc : jsstring) (c : N) (r : jsstring) :
  (c < 65536)%N ->
  lex (LStr acc) (unicode_escape c ++ r) = lex (LStr (c :: acc)) r.
Proof.
  intros Hc. unfold unicode_escape. cbn [app].
  rewrite (lex_silent (LStr acc) (LEsc acc)) by reflexivity.
  rewrite (lex_silent (LEsc acc) (LHex acc 0 4)) by reflexivity.
  assert (H1 : (c / 4096 < 16)%N) by (apply N.Div0.div_lt_upper_bound; lia).
  assert (H2 : ((c / 256) mod 16 < 16)%N) by (apply N.mod_lt; lia).
  assert (H3 : ((c / 16) mod 16 < 16)%N) by (apply N.mod_lt; lia).
  assert (H4 : (c mod 16 < 16)%N) by (apply N.mod_lt; lia).
  rewrite (lex_silent (LHex acc 0 4) (LHex acc (0 * 16 + c / 4096) 3))
    by (cbn [lex_step]; rewrite (hex_val_lower _ H1); reflexivity).
  rewrite (lex_silent (LHex acc _ 3)
             (LHex acc ((0 * 16 + c / 4096) * 16 + (c / 256) mod 16) 2))
    by (cbn [lex_step]; rewrite (hex_val_lower _ H2); reflexivity).
  rewrite (lex_silent (LHex acc _ 2)
             (LHex acc (((0 * 16 + c / 4096) * 16 + (c / 256) mod 16) * 16
                        + (c / 16) mod 16) 1))
    by (cbn [lex_step]; rewrite (hex_val_lower _ H3); reflexivity).
  rewrite (lex_silent (LHex acc _ 1)
             (LStr (((((0 * 16 + c / 4096) * 16 + (c / 256) mod 16) * 16
                        + (c / 16) mod 16) * 16 + c mod 16)%N :: acc)))
    by (cbn [lex_step]; rewrite (hex_val_lower _ H4); reflexivity).
  replace ((((0 * 16 + c / 4096) * 16 + (c / 256) mod 16) * 16
            + (c / 16) mod 16) * 16 + c mod 16)%N with c; [reflexivity|].
  assert (E1 : c = (16 * (c / 16) + c mod 16)%N) by (apply N.div_mod; lia).
  assert (E2 : (c / 16 = 16 * (c / 256) + (c / 16) mod 16)%N).
  { rewrite (N.div_mod (c / 16) 16) at 1 by lia.
    rewrite N.Div0.div_div. reflexivity. }
  assert (E3 : (c / 256 = 16 * (c / 4096) + (c / 256) mod 16)%N).
  { rewrite (N.div_mod (c / 256) 16) at 1 by lia.
    rewrite N.Div0.div_div. reflexivity. }
  lia.
Qed.

(** Inside a string, the lexer reads what [QuoteJSONString] wrote back as
    the code units it was given. *)
Lemma lex_quote_body_upto (n : nat) :
  forall (s acc r : jsstring),
    (List.length s <= n)%nat ->
    lex (LStr acc) (quote_body s ++ 34%N :: r)
    = emit (TValue (JStr (rev acc ++ s))) (lex LStart r).
Proof.
  induction n as [|n IH]; intros s acc r Hlen.
  - destruct s; [|simpl in Hlen; lia]. simpl. rewrite app_nil_r.
    destruct (lex LStart r); reflexivity.
  - destruct s as [|c s].
    { simpl. rewrite app_nil_r. destruct (lex LStart r); reflexivity. }
    simpl in Hlen.
    assert (Hnext : forall x,
               lex (LStr (x :: acc)) (quote_body s ++ 34%N :: r)
               = emit (TValue (JStr (rev acc ++ x :: s))) (lex LStart r)).
    { intros x. rewrite IH by lia. simpl rev. rewrite <- app_assoc.
      reflexivity. }
    cbn [quote_body].
    destruct (N.eqb_spec c 8) as [->|H8].
    { cbn [app]. rewrite (lex_escape acc 98 8) by (discriminate || reflexivity).
      apply Hnext. }
    destruct (N.eqb_spec c 9) as [->|H9].
    { cbn [app]. rewrite (lex_escape acc 116 9) by (discriminate || reflexivity).
      apply Hnext. }
    destruct (N.eqb_spec c 10) as [->|H10].
    { cbn [app]. rewrite (lex_escape acc 110 10) by (discriminate || reflexivity).
      apply Hnext. }
    destruct (N.eqb_spec c 12) as [->|H12].
    { cbn [app]. rewrite (lex_escape acc 102 12) by (discriminate || reflexivity).
      apply Hnext. }
    destruct (N.eqb_spec c 13) as [->|H13].
    { cbn [app]. rewrite (lex_escape acc 114 13) by (discriminate || reflexivity).
      apply Hnext. }
    destruct (N.eqb_spec c 34) as [->|H34].
    { cbn [app]. rewrite (lex_escape acc 34 34) by (discriminate || reflexivity).
      apply Hnext. }
    destruct (N.eqb_spec c 92) as [->|H92].
    { cbn [app]. rewrite (lex_escape acc 92 92) by (discriminate || reflexivity).
      apply Hnext. }
    destruct (N.ltb_spec c 32) as [Hlt|Hge].
    { rewrite <- app_assoc. rewrite lex_unicode_escape by lia. apply Hnext. }
    unfold is_high_surrogate, is_low_surrogate.
    destruct (N.leb_spec 55296 c) as [Hh1|Hh1]; cbn [andb].
    + destruct (N.leb_spec c 56319) as [Hh2|Hh2].
      * destruct s as [|d s].
        { cbn [app].
          change (unicode_escape c ++ 34%N :: r)
            with (unicode_escape c ++ quote_body [] ++ 34%N :: r).
          rewrite lex_unicode_escape by lia. apply Hnext. }
        destruct (N.leb_spec 56320 d) as [Hd1|Hd1]; cbn [andb].
        -- destruct (N.leb_spec d 57343) as [Hd2|Hd2].
           ++ cbn [app]. rewrite lex_plain by lia. rewrite lex_plain by lia.
              simpl in Hlen. rewrite IH by lia. simpl rev.
              rewrite <- !app_assoc. reflexivity.
           ++ rewrite <- app_assoc. rewrite lex_unicode_escape by lia.
              apply Hnext.
        -- rewrite <- app_assoc. rewrite lex_unicode_escape by lia.
           apply Hnext.
      * destruct (N.leb_spec 56320 c) as [Hl1|Hl1]; [|lia]. cbn [andb].
        destruct (N.leb_spec c 57343) as [Hl2|Hl2].
        -- rewrite <- app_assoc. rewrite lex_unicode_escape by lia.
           apply Hnext.
        -- cbn [app]. rewrite lex_plain by lia. apply Hnext.
    + destruct (N.leb_spec 56320 c) as [Hl1|Hl1]; [lia|]. cbn [andb].
      cbn [app]. rewrite lex_plain by lia. apply Hnext.
Qed.

Lemma lex_QuoteJSONString (s r : jsstring) :
  lex LStart (QuoteJSONString s ++ r) = emit (TValue (JStr s)) (lex LStart r).
Proof.
  unfold QuoteJSONString. rewrite <- !app_assoc. cbn [app].
  rewrite (lex_silent LStart (LStr [])) by reflexivity.
  apply (lex_quote_body_upto (List.length s)). lia.
Qed.

Lemma emits_app (ts ts' : list Js.token) (rest : option (list Js.token)) :
  emits (ts ++ ts') rest = emits ts (emits ts' rest).
Proof. unfold emits. apply fold_right_app. Qed.

Lemma emits_Some (ts ts' : list Js.token) :
  emits ts (Some ts') = Some (ts ++ ts').
Proof.
  induction ts as [|t ts IH]; simpl; [reflexivity|]. rewrite IH. reflexivity.
Qed.

Lemma lex_value (v : JsValue) (text r : jsstring) :
  is_string_or_boolean v = true ->
  JSON_stringify v = Some text ->
  lex LStart (text ++ r) = emit (TValue v) (lex LStart r).
Proof.
  destruct v as [| |b| |s| |]; try discriminate; intros _ H;
    injection H as <-.
  - destruct b.
    + change (Boolean_toString true ++ r)
        with (116%N :: 114%N :: 117%N :: 101%N :: r).
      rewrite (lex_silent LStart (LLit (js "rue") (JBool true))) by reflexivity.
      rewrite (lex_silent _ (LLit (js "ue") (JBool true))) by reflexivity.
      rewrite (lex_silent _ (LLit (js "e") (JBool true))) by reflexivity.
      apply lex_emit. reflexivity.
    + change (Boolean_toString false ++ r)
        with (102%N :: 97%N :: 108%N :: 115%N :: 101%N :: r).
      rewrite (lex_silent LStart (LLit (js "alse") (JBool false)))
        by reflexivity.
      rewrite (lex_silent _ (LLit (js "lse") (JBool false))) by reflexivity.
      rewrite (lex_silent _ (LLit (js "se") (JBool false))) by reflexivity.
      rewrite (lex_silent _ (LLit (js "e") (JBool false))) by reflexivity.
      apply lex_emit. reflexivity.
  - apply lex_QuoteJSONString.
Qed.

Lemma lex_member (m : jsstring * JsValue) (r : jsstring) :
  is_string_or_boolean (snd m) = true ->
  lex LStart (member_text m ++ r) = emits (member_tokens m) (lex LStart r).
Proof.
  intros Hm. unfold member_text. rewrite <- !app_assoc.
  rewrite lex_QuoteJSONString. cbn [app].
  rewrite (lex_emit LStart LStart 58 TColon) by reflexivity.
  destruct (JSON_stringify (snd m)) as [text|] eqn:E.
  - rewrite (lex_value _ _ _ Hm E). reflexivity.
  - destruct (snd m); discriminate.
Qed.

Lemma stringify_members (ms : list (jsstring * JsValue)) :
  forallb (fun m => is_string_or_boolean (snd m)) ms = true ->
  flat_map (fun m => match JSON_stringify (snd m) with
                     | Some s => [QuoteJSONString (fst m) ++ [58%N] ++ s]
                     | None => []
                     end) ms
  = map member_text ms.
Proof.
  induction ms as [|[k v] ms IH]; intros H; [reflexivity|].
  simpl in H. apply andb_prop in H as [Hm Hms].
  cbn [flat_map map]. rewrite (IH Hms).
  destruct v; try discriminate; reflexivity.
Qed.

Lemma lex_more (ms : list (jsstring * JsValue)) (m : jsstring * JsValue)
  (r : jsstring) :
  forallb (fun m => is_string_or_boolean (snd m)) (m :: ms) = true ->
  lex LStart (join [44%N] (map member_text (m :: ms)) ++ 125%N :: r)
  = emits (member_tokens m ++ more_tokens ms) (lex LStart r).
Proof.
  revert m. induction ms as [|m' ms IH]; intros m H;
    simpl in H; apply andb_prop in H as [Hm Hms].
  - cbn [map join more_tokens]. rewrite (lex_member _ _ Hm).
    rewrite (lex_emit LStart LStart 125 TRBrace) by reflexivity.
    rewrite emits_app. reflexivity.
  - change (join [44%N] (map member_text (m :: m' :: ms)))
      with (member_text m ++ [44%N]
            ++ join [44%N] (map member_text (m' :: ms))).
    rewrite <- !app_assoc. rewrite (lex_member _ _ Hm). cbn [app].
    rewrite (lex_emit LStart LStart 44 TComma) by reflexivity.
    rewrite (IH m') by exact Hms.
    cbn [more_tokens]. rewrite !emits_app. reflexivity.
Qed.

Lemma parse_more (ms : list (jsstring * JsValue)) :
  forall (acc : list (jsstring * JsValue)) (k : jsstring) (v : JsValue),
    parse (PAfter v [FObj acc k]) (more_tokens ms)
    = Some (JObj (rev acc ++ (k, v) :: ms)).
Proof.
  induction ms as [|[k' v'] ms IH]; intros acc k v.
  - reflexivity.
  - cbn [more_tokens member_tokens app fst snd].
    change (parse (PAfter v [FObj acc k])
              (TComma :: TValue (JStr k') :: TColon :: TValue v'
               :: more_tokens ms))
      with (parse (PAfter v' [FObj ((k, v) :: acc) k']) (more_tokens ms)).
    rewrite IH. simpl rev. rewrite <- app_assoc. reflexivity.
Qed.

(** [JSON.parse] gives back an object of strings and booleans that
    [JSON.stringify] wrote, member by member, whatever the strings hold. *)
Lemma JSON_parse_stringify_flat (ms : list (jsstring * JsValue)) :
  forallb (fun m => is_string_or_boolean (snd m)) ms = true ->
  exists text : jsstring,
    JSON_stringify (JObj ms) = Some text
    /\ JSON_parse text = Some (JObj ms).
Proof.
  intros H. exists ([123%N] ++ join [44%N] (map member_text ms) ++ [125%N]).
  split.
  { rewrite <- (stringify_members _ H). reflexivity. }
  unfold JSON_parse.
  destruct ms as [|[k v] ms].
  - reflexivity.
  - cbn [app].
    rewrite (lex_emit LStart LStart 123 TLBrace) by reflexivity.
    replace (join [44%N] (map member_text ((k, v) :: ms)) ++ [125%N])
      with (join [44%N] (map member_text ((k, v) :: ms)) ++ 125%N :: [])
      by reflexivity.
    rewrite (lex_more _ _ _ H).
    change (lex LStart []) with (Some (@nil Js.token)).
    rewrite emits_Some, app_nil_r. cbn [emit member_tokens app fst snd].
    change (parse (PValue [])
              (TLBrace :: TValue (JStr k) :: TColon :: TValue v
               :: more_tokens ms))
      with (parse (PAfter v [FObj [] k]) (more_tokens ms)).
    apply parse_more.
Qed.

(** X4.  The body [register] sends is JSON text that [JSON.parse] reads
    back as the object with exactly the members [email] and [password], each
    holding the string the caller gave, whatever characters it has (quotes,
    backslashes, control characters, surrogates). *)
Theorem register_body_parses_back (email password : jsstring) :
  req_method (register_request email password) = js "POST"
  /\ req_url (register_request email password) = js "/api/auth/register"
  /\ exists body : jsstring,
       req_body (register_request email password) = Some body
       /\ JSON_parse body
          = Some (JObj [(js "email", JStr email);
                        (js "password", JStr password)]).
Proof.
  split; [reflexivity|]. split; [reflexivity|].
  destruct (JSON_parse_stringify_flat
              [(js "email", JStr email); (js "password", JStr password)]
              eq_refl) as (body & Hs & Hp).
  exists body. split; [|exact Hp].
  rewrite <- Hs. unfold register_request. cbn [req_body]. f_equal.
  cbn [JSON_stringify flat_map map join fst snd app].
  rewrite <- !app_assoc. reflexivity.
Qed.

(** X5.  For an input object whose members hold strings and booleans (the
    fields of a todo), [createTodo] and [updateTodo] send the same body, and
    [JSON.parse] reads it back as that object: the members in the same order
    with the same values. *)
Theorem todo_bodies_parse_back
  (id : float) (input : JsObject) (w : World) :
  forallb (fun m => is_string_or_boolean (snd m)) input = true ->
  exists body : jsstring,
    req_body (createTodo_request input w) = Some body
    /\ req_body (updateTodo_request id input w) = Some body
    /\ JSON_parse body = Some (JObj input).
Proof.
  intros H. destruct (JSON_parse_stringify_flat input H) as (body & Hs & Hp).
  exists body. auto.
Qed.

(** X5 at the input [{ done: true }] and the todo 7. *)
Lemma todo_bodies_parse_back_witness :
  exists body : jsstring,
    req_body (createTodo_request [(js "done", JBool true)] (Sample.world ∅))
    = Some body
    /\ req_body (updateTodo_request 7 [(js "done", JBool true)]
                   (Sample.world ∅)) = Some body
    /\ JSON_parse body = Some (JObj [(js "done", JBool true)]).
Proof.
  apply (todo_bodies_parse_back 7 [(js "done", JBool true)] (Sample.world ∅)).
  reflexivity.
Defined.

(** *** The login form and the verification link *)

Lemma hex_digit_upper_safe (d : N) :
  forall c, In c [38; 61; 35; 63; 47]%N -> hex_digit_upper d <> c.
Proof.
  intros c Hc. unfold hex_digit_upper.
  destruct (N.ltb_spec d 10); simpl in Hc;
    repeat (destruct Hc as [<-|Hc]; [lia|]); destruct Hc.
Qed.

Lemma urlencode_byte_safe (b c : N) :
  In c (urlencode_byte b) -> c <> 38%N /\ c <> 61%N.
Proof.
  unfold urlencode_byte.
  destruct (is_alnum b || (b =? 42) || (b =? 45) || (b =? 46) || (b =? 95))%N
    eqn:E.
  - intros [<-|[]]. split; intros ->; vm_compute in E; discriminate.
  - destruct (b =? 32)%N.
    + intros [<-|[]]. split; discriminate.
    + intros [<-|[<-|[<-|[]]]]; try (split; discriminate);
        split; apply hex_digit_upper_safe; simpl; tauto.
Qed.

(** No [&] and no [=] comes out of the form serialiser. *)
Lemma urlencode_safe (s : jsstring) :
  ~ In 38%N (urlencode s) /\ ~ In 61%N (urlencode s).
Proof.
  unfold urlencode. split; intros H; apply in_flat_map in H as (b & _ & H);
    apply urlencode_byte_safe in H; tauto.
Qed.

(** X6.  The body [login] sends is a form of exactly two fields: cut at
    [&] and then at [=], it gives [username] with the encoded email and
    [password] with the encoded password, whatever the two strings hold, so
    no character of the email or the password can add or end a field.  The
    request is a POST to [/api/auth/login] and carries no header but the
    content type. *)
Theorem login_request_form_fields (email password : jsstring) :
  req_method (login_request email password) = js "POST"
  /\ req_url (login_request email password) = js "/api/auth/login"
  /\ req_headers (login_request email password)
     = [(js "Content-Type", js "application/x-www-form-urlencoded")]
  /\ exists body : jsstring,
       req_body (login_request email password) = Some body
       /\ map (split_on 61) (split_on 38 body)
          = [[js "username"; urlencode email];
             [js "password"; urlencode password]].
Proof.
  split; [reflexivity|]. split; [reflexivity|]. split; [reflexivity|].
  exists ((js "username" ++ 61%N :: urlencode email)
          ++ 38%N :: (js "password" ++ 61%N :: urlencode password)).
  split; [reflexivity|].
  destruct (urlencode_safe email) as [He1 He2].
  destruct (urlencode_safe password) as [Hp1 Hp2].
  assert (Hu : forall c, In c [38; 61]%N -> ~ In c (js "username")).
  { intros c Hc H. vm_compute in H. simpl in Hc. intuition congruence. }
  assert (Hw : forall c, In c [38; 61]%N -> ~ In c (js "password")).
  { intros c Hc H. vm_compute in H. simpl in Hc. intuition congruence. }
  rewrite split_on_app.
  2:{ intros H. apply in_app_or in H as [H|[H|H]];
        [apply (Hu 38%N) in H; [exact H | simpl; tauto]
        | discriminate | exact (He1 H)]. }
  rewrite split_on_without.
  2:{ intros H. apply in_app_or in H as [H|[H|H]];
        [apply (Hw 38%N) in H; [exact H | simpl; tauto]
        | discriminate | exact (Hp1 H)]. }
  cbn [map].
  rewrite !split_on_app by (apply Hu || apply Hw; simpl; tauto).
  rewrite !split_on_without by assumption. reflexivity.
Qed.

Lemma percent_encode_safe (bytes : list N) (c : N) :
  In c (percent_encode bytes) -> ~ In c [38; 61; 35; 63; 47]%N.
Proof.
  unfold percent_encode. intros H Hc. apply in_flat_map in H as (b & _ & H).
  destruct H as [<-|[<-|[<-|[]]]].
  - simpl in Hc. intuition discriminate.
  - exact (hex_digit_upper_safe _ _ Hc eq_refl).
  - exact (hex_digit_upper_safe _ _ Hc eq_refl).
Qed.

Lemma is_uri_unreserved_safe (c : N) :
  is_uri_unreserved c = true -> ~ In c [38; 61; 35; 63; 47]%N.
Proof.
  intros H Hc. simpl in Hc.
  repeat (destruct Hc as [<-|Hc]; [vm_compute in H; discriminate|]). exact Hc.
Qed.

Lemma encodeURIComponent_safe_upto (n : nat) :
  forall s e, (List.length s <= n)%nat -> encodeURIComponent s = Some e ->
              forall c, In c e -> ~ In c [38; 61; 35; 63; 47]%N.
Proof.
  induction n as [|n IH]; intros s e Hlen He c Hc.
  - destruct s; [|simpl in Hlen; lia]. injection He as <-. destruct Hc.
  - destruct s as [|x s]; [injection He as <-; destruct Hc|].
    simpl in Hlen. simpl in He.
    destruct (is_uri_unreserved x) eqn:Hx.
    + destruct (encodeURIComponent s) as [e'|] eqn:E; [|discriminate].
      injection He as <-. destruct Hc as [<-|Hc].
      * apply is_uri_unreserved_safe. exact Hx.
      * apply (IH s e'); [lia | exact E | exact Hc].
    + destruct (is_high_surrogate x).
      * destruct s as [|d s]; [discriminate|].
        destruct (is_low_surrogate d); [|discriminate].
        destruct (encodeURIComponent s) as [e'|] eqn:E; [|discriminate].
        injection He as <-. apply in_app_or in Hc as [Hc|Hc].
        -- exact (percent_encode_safe _ _ Hc).
        -- apply (IH s e'); [simpl in Hlen; lia | exact E | exact Hc].
      * destruct (is_low_surrogate x); [discriminate|].
        destruct (encodeURIComponent s) as [e'|] eqn:E; [|discriminate].
        injection He as <-. apply in_app_or in Hc as [Hc|Hc].
        -- exact (percent_encode_safe _ _ Hc).
        -- apply (IH s e'); [lia | exact E | exact Hc].
Qed.

(** None of [& = # ? /] comes out of [encodeURIComponent]. *)
Lemma encodeURIComponent_safe (s e : jsstring) :
  encodeURIComponent s = Some e ->
  forall c, In c [38; 61; 35; 63; 47]%N -> ~ In c e.
Proof.
  intros He c Hc Hin.
  exact (encodeURIComponent_safe_upto _ s e (le_n _) He c Hin Hc).
Qed.

Lemma verifyEmail_sent
  (URIError_message : jsstring) (net : Network) (token encoded : jsstring)
  (w : World) :
  encodeURIComponent token = Some encoded ->
  sent (snd (verifyEmail URIError_message net token w))
  = sent w ++ [verifyEmail_request encoded].
Proof.
  intros E. unfold verifyEmail. rewrite E. unfold bind, fetch.
  destruct (net (verifyEmail_request encoded)); [reflexivity|].
  rewrite handleJsonResponse_world. reflexivity.
Qed.

(** X7.  [verifyEmail] hands one GET to [fetch], whose address has one
    query parameter: the part after the [?], cut at [&] and then at [=], is
    [token] with the encoded token, and the address has no [#], whatever the
    token holds.  A token with a surrogate that has no partner makes the call
    reject with the URIError of [encodeURIComponent] before anything is
    sent. *)
Theorem verifyEmail_sends_the_token_as_one_parameter
  (URIError_message : jsstring) (net : Network) (token : jsstring) (w : World) :
  match encodeURIComponent token with
  | Some encoded =>
      sent (snd (verifyEmail URIError_message net token w))
      = sent w ++ [verifyEmail_request encoded]
      /\ req_method (verifyEmail_request encoded) = js "GET"
      /\ req_headers (verifyEmail_request encoded) = []
      /\ map (split_on 61)
           (split_on 38
              (nth 1 (split_on 63 (req_url (verifyEmail_request encoded))) []))
         = [[js "token"; encoded]]
      /\ split_on 35 (req_url (verifyEmail_request encoded))
         = [req_url (verifyEmail_request encoded)]
  | None =>
      verifyEmail URIError_message net token w
      = (Rejected {| err_message := URIError_message; err_status := None;
                     err_data := JUndefined |}, w)
  end.
Proof.
  destruct (encodeURIComponent token) as [encoded|] eqn:E.
  2:{ unfold verifyEmail. rewrite E. reflexivity. }
  pose proof (encodeURIComponent_safe _ _ E) as Hsafe.
  split; [exact (verifyEmail_sent _ _ _ _ _ E)|].
  split; [reflexivity|]. split; [reflexivity|].
  assert (Hpath : forall c, In c [38; 61; 35; 63]%N ->
                            ~ In c (js "/api/auth/verify-email")).
  { intros c Hc H. vm_compute in H. simpl in Hc. intuition congruence. }
  assert (Htok : forall c, In c [38; 61; 35; 63]%N -> ~ In c (js "token")).
  { intros c Hc H. vm_compute in H. simpl in Hc. intuition congruence. }
  change (req_url (verifyEmail_request encoded))
    with (js "/api/auth/verify-email" ++ 63%N :: (js "token" ++ 61%N :: encoded)).
  split.
  - rewrite split_on_app by (apply Hpath; simpl; tauto).
    rewrite (split_on_without 63).
    2:{ intros H. apply in_app_or in H as [H|[H|H]].
        - apply (Htok 63%N) in H; [exact H | simpl; tauto].
        - discriminate.
        - apply (Hsafe 63%N) in H; [exact H | simpl; tauto]. }
    cbn [nth].
    rewrite (split_on_without 38).
    2:{ intros H. apply in_app_or in H as [H|[H|H]].
        - apply (Htok 38%N) in H; [exact H | simpl; tauto].
        - discriminate.
        - apply (Hsafe 38%N) in H; [exact H | simpl; tauto]. }
    cbn [map].
    rewrite split_on_app by (apply Htok; simpl; tauto).
    rewrite split_on_without by (apply Hsafe; simpl; tauto). reflexivity.
  - apply split_on_without.
    intros H. apply in_app_or in H as [H|[H|H]].
    + apply (Hpath 35%N) in H; [exact H | simpl; tauto].
    + discriminate.
    + apply in_app_or in H as [H|[H|H]].
      * apply (Htok 35%N) in H; [exact H | simpl; tauto].
      * discriminate.
      * apply (Hsafe 35%N) in H; [exact H | simpl; tauto].
Qed.

(** *** [login] when it fails, and when the answer has no token *)

Lemma login_sent (net : Network) (email password : jsstring) (w : World) :
  sent (snd (login net email password w))
  = sent w ++ [login_request email password].
Proof.
  unfold login, bind, fetch.
  destruct (net (login_request email password)) as [msg|res]; [reflexivity|].
  pose proof (@handleJsonResponse_world res
                (with_sent (fun l => l ++ [login_request email password]) w))
    as Hw.
  destruct (handleJsonResponse res _) as [[data|e] w1]; simpl in Hw; subst w1;
    [|reflexivity].
  unfold get_or_throw.
  destruct data; try reflexivity; cbv beta iota delta [ret];
    match goal with
    | |- context [lift ?c] => destruct c; reflexivity
    end.
Qed.

Lemma login_failure_storage
  (net : Network) (email password : jsstring) (w w' : World) (err : JsError) :
  login net email password w = (Rejected err, w') -> storage w' = storage w.
Proof.
  unfold login, bind, fetch.
  destruct (net (login_request email password)) as [msg|res].
  { intros H. injection H as _ <-. reflexivity. }
  pose proof (@handleJsonResponse_world res
                (with_sent (fun l => l ++ [login_request email password]) w))
    as Hw.
  destruct (handleJsonResponse res _) as [[data|e] w1]; simpl in Hw; subst w1.
  2:{ intros H. injection H as _ <-. reflexivity. }
  unfold get_or_throw.
  destruct data; try (intros H; injection H as _ <-; reflexivity);
    cbv beta iota delta [ret];
    match goal with
    | |- context [lift ?c] => destruct c
    end; try discriminate; intros H; injection H as _ <-; reflexivity.
Qed.

Lemma login_success_storage
  (net : Network) (email password : jsstring) (w w' : World) (r : LoginResult) :
  login net email password w = (Resolved r, w') ->
  exists tok, getToken w' = Some tok /\ getCurrentEmail w' = Some email.
Proof.
  unfold login, bind, fetch.
  destruct (net (login_request email password)) as [msg|res]; [discriminate|].
  destruct (handleJsonResponse res _) as [[data|e] w1]; [|discriminate].
  unfold get_or_throw.
  destruct data; try discriminate; cbv beta iota delta [ret];
    match goal with
    | |- context [lift ?c] => destruct c as [tok|]
    end; try discriminate; intros H; injection H as _ <-; exists tok;
    (split; [rewrite getToken_setCurrentEmail; apply getToken_setToken
            | apply getCurrentEmail_setCurrentEmail]).
Qed.

(** X8.  However [login] fails (the network, an answer that is not ok, a
    body that does not parse, a body that is [null], a token that cannot be
    stored), it has handed exactly its one request to [fetch] and
    [localStorage] is as it was: no token and no email is stored by a login
    that rejects. *)
Theorem login_failure_stores_nothing
  (net : Network) (email password : jsstring) (w w' : World) (err : JsError) :
  login net email password w = (Rejected err, w') ->
  storage w' = storage w
  /\ sent w' = sent w ++ [login_request email password].
Proof.
  intros H. split; [exact (login_failure_storage _ _ _ _ _ _ H)|].
  pose proof (login_sent net email password w) as Hs.
  rewrite H in Hs. exact Hs.
Qed.

(** X8 with the network down. *)
Lemma login_failure_stores_nothing_witness :
  fst (login Sample.offline (js "a@x.com") (js "password123") (Sample.world ∅))
  = Rejected {| err_message := js "Failed to fetch"; err_status := None;
                err_data := JUndefined |}
  /\ storage
       (snd (login Sample.offline (js "a@x.com") (js "password123")
               (Sample.world ∅)))
     = storage (Sample.world ∅).
Proof.
  split; [reflexivity|].
  apply (login_failure_stores_nothing Sample.offline (js "a@x.com")
           (js "password123") (Sample.world ∅) _
           {| err_message := js "Failed to fetch"; err_status := None;
              err_data := JUndefined |}).
  reflexivity.
Defined.

(** X9.  An ok answer whose JSON body is not [null] and has no
    [access_token] still logs the user in: [login] resolves with [adm]
    false, the string "undefined" is stored as the token together with the
    email, [isLoggedIn] is true afterwards, and [Login.handleSubmit] calls
    [onLogin] with the role "user". *)
Theorem login_without_access_token_stores_undefined
  (net : Network) (email password : jsstring) (res : Response)
  (data : JsValue) (w : World) :
  net (login_request email password) = Reply res ->
  res_ok res = true ->
  response_data res = Some data ->
  data <> JNull -> data <> JUndefined ->
  get data (js "access_token") = JUndefined ->
  exists w' : World,
    login net email password w
    = (Resolved {| token := JUndefined; adm := false |}, w')
    /\ getToken w' = Some (js "undefined")
    /\ getCurrentEmail w' = Some email
    /\ isLoggedIn w' = Returns true
    /\ (email <> [] -> password <> [] ->
        Login.handleSubmit net email password w
        = ([Login.setError []; Login.setLoading true;
            Login.onLogin email Login.user; Login.setLoading false], w')).
Proof.
  intros Hnet Hok Hdata Hnull Hundef Hget.
  assert (Hlogin :
    login net email password w
    = (Resolved {| token := JUndefined; adm := false |},
       setCurrentEmail email
         (setToken (js "undefined")
            (with_sent (fun l => l ++ [login_request email password]) w)))).
  { unfold login.
    rewrite (bind_resolved _ _ _ _ _ (fetch_reply _ _ _ _ Hnet)).
    rewrite (bind_resolved _ _ _ _ _ (handleJsonResponse_ok _ _ _ Hok Hdata)).
    unfold get_or_throw, bind.
    destruct data; try congruence; cbv beta iota delta [ret]; rewrite Hget;
      reflexivity. }
  eexists. split; [exact Hlogin|].
  split; [rewrite getToken_setCurrentEmail; apply getToken_setToken|].
  split; [apply getCurrentEmail_setCurrentEmail|].
  split.
  - apply (getToken_isLoggedIn _ (js "undefined") false).
    + rewrite getToken_setCurrentEmail. apply getToken_setToken.
    + discriminate.
    + reflexivity.
  - intros He Hp. unfold Login.handleSubmit.
    apply nonempty_true in He. apply nonempty_true in Hp.
    rewrite He, Hp, Hlogin. reflexivity.
Qed.

(** X9 at a 200 answer with the body [{}]. *)
Lemma login_without_access_token_stores_undefined_witness :
  exists w' : World,
    login (fun _ => Reply (Sample.json_response 200 (js "OK") (js "{}")))
      (js "a@x.com") (js "password123") (Sample.world ∅)
    = (Resolved {| token := JUndefined; adm := false |}, w')
    /\ getToken w' = Some (js "undefined")
    /\ isLoggedIn w' = Returns true.
Proof.
  destruct (login_without_access_token_stores_undefined
              (fun _ => Reply (Sample.json_response 200 (js "OK") (js "{}")))
              (js "a@x.com") (js "password123")
              (Sample.json_response 200 (js "OK") (js "{}"))
              (JObj []) (Sample.world ∅))
    as (w' & Hlogin & Htok & _ & Hlogged & _);
    [reflexivity | reflexivity | vm_compute; reflexivity
    | discriminate | discriminate | reflexivity |].
  exists w'. auto.
Defined.

(** *** [logout] and what it leaves *)

Lemma getToken_logout (w : World) : getToken (logout w) = None.
Proof.
  unfold logout, clearSession, getToken, localStorage_getItem,
    localStorage_removeItem, with_storage. simpl.
  rewrite lookup_delete_ne by (intros H; apply keys_differ; symmetry; exact H).
  apply lookup_delete_eq.
Qed.

(** X10.  [logout] (and with it [clearSession] and the logout of the simple
    screen) removes the two session keys and nothing else: every other key of
    [localStorage], the saved theme among them, reads as before.  After it
    [isLoggedIn] is false, [authHeaders] is empty, and the effect that
    restores the session at the next start leaves the state of [App] as it
    is. *)
Theorem logout_clears_only_the_session (w : World) :
  (forall k : jsstring,
      k <> TOKEN_KEY -> k <> EMAIL_KEY ->
      localStorage_getItem k (logout w) = localStorage_getItem k w)
  /\ isLoggedIn (logout w) = Returns false
  /\ authHeaders (logout w) = []
  /\ (forall st : App.State, App.restoreSession (logout w) st = Returns st)
  /\ (forall theme : jsstring,
         App.load_theme (logout w) theme = App.load_theme w theme)
  /\ snd (SimpleUI.handleLogout w) = logout w.
Proof.
  assert (Hframe : forall k : jsstring,
             k <> TOKEN_KEY -> k <> EMAIL_KEY ->
             localStorage_getItem k (logout w) = localStorage_getItem k w).
  { intros k Ht He.
    unfold logout, clearSession, localStorage_getItem, localStorage_removeItem,
      with_storage. simpl.
    rewrite !lookup_delete_ne by congruence. reflexivity. }
  assert (Hlogged : isLoggedIn (logout w) = Returns false).
  { unfold isLoggedIn. rewrite getToken_logout. reflexivity. }
  split; [exact Hframe|]. split; [exact Hlogged|].
  split; [|split; [|split; [|reflexivity]]].
  - unfold authHeaders. rewrite getToken_logout. reflexivity.
  - intros st. unfold App.restoreSession. rewrite Hlogged. reflexivity.
  - intros theme. unfold App.load_theme.
    rewrite Hframe by (intros H; vm_compute in H; discriminate). reflexivity.
Qed.

(** X10 in a browser that holds a session and the pink theme. *)
Lemma logout_clears_only_the_session_witness :
  localStorage_getItem App.THEME_KEY
    (logout (Sample.world {[TOKEN_KEY := Sample.token_admin;
                            EMAIL_KEY := js "a@x.com";
                            App.THEME_KEY := js "pink"]}))
  = Some (js "pink")
  /\ isLoggedIn
       (logout (Sample.world {[TOKEN_KEY := Sample.token_admin;
                               EMAIL_KEY := js "a@x.com";
                               App.THEME_KEY := js "pink"]}))
     = Returns false.
Proof.
  destruct (logout_clears_only_the_session
              (Sample.world {[TOKEN_KEY := Sample.token_admin;
                              EMAIL_KEY := js "a@x.com";
                              App.THEME_KEY := js "pink"]}))
    as (Hframe & Hlogged & _).
  split; [|exact Hlogged].
  rewrite (Hframe App.THEME_KEY);
    [vm_compute; reflexivity | intros H; vm_compute in H; discriminate ..].
Defined.

(** *** The calls on todos and the admin calls *)

Lemma fetch_then_handle (net : Network) (req : Request) (w : World) :
  snd ((let* res := fetch net req in handleJsonResponse res) w)
  = with_sent (fun l => l ++ [req]) w.
Proof.
  unfold bind, fetch. destruct (net req); [reflexivity|].
  apply handleJsonResponse_world.
Qed.

Lemma fetch_then_handle_delete (net : Network) (req : Request) (w : World) :
  snd ((let* res := fetch net req in
        if negb (res_ok res) && negb (res_status res =? 204)%Z
        then do handleJsonResponse res then ret tt
        else ret tt) w)
  = with_sent (fun l => l ++ [req]) w.
Proof.
  unfold bind, fetch. destruct (net req) as [msg|res]; [reflexivity|].
  destruct (negb (res_ok res) && negb (res_status res =? 204)%Z); [|reflexivity].
  pose proof (@handleJsonResponse_world res
                (with_sent (fun l => l ++ [req]) w)) as Hw.
  destruct (handleJsonResponse res _) as [[data|e] w1]; exact Hw.
Qed.

(** X11.  Each of [listMyTodos], [createTodo], [updateTodo], [deleteTodo],
    [adminListUsers], [adminListTodos] and [adminDeleteTodo] hands exactly one
    request to [fetch], whatever the network answers, and changes nothing
    else: [localStorage] stays as it was, so the stored token is kept also
    after a 401. *)
Theorem data_calls_send_one_request
  (net : Network) (id : float) (input : JsObject) (w : World) :
  sent_one (listMyTodos_request w) w (snd (listMyTodos net w))
  /\ sent_one (createTodo_request input w) w (snd (createTodo net input w))
  /\ sent_one (updateTodo_request id input w) w
       (snd (updateTodo net id input w))
  /\ sent_one (deleteTodo_request id w) w (snd (deleteTodo net id w))
  /\ sent_one (adminListUsers_request w) w (snd (adminListUsers net w))
  /\ sent_one (adminListTodos_request w) w (snd (adminListTodos net w))
  /\ sent_one (adminDeleteTodo_request id w) w
       (snd (adminDeleteTodo net id w)).
Proof.
  unfold sent_one.
  repeat split;
    first [apply fetch_then_handle | apply fetch_then_handle_delete].
Qed.

Lemma authHeaders_bearer (w : World) (k v : jsstring) :
  In (k, v) (authHeaders w) <->
  k = js "Authorization"
  /\ exists t, getToken w = Some t /\ t <> [] /\ v = js "Bearer " ++ t.
Proof.
  unfold authHeaders. destruct (getToken w) as [t|].
  - destruct t as [|c t]; simpl.
    + split; [tauto|]. intros (_ & t & H & Hne & _). congruence.
    + split.
      * intros [H|[]]. injection H as <- <-. split; [reflexivity|].
        exists (c :: t). repeat split. discriminate.
      * intros (-> & t' & H & _ & ->). injection H as <-. left. reflexivity.
  - simpl. split; [tauto|]. intros (_ & t & H & _). discriminate.
Qed.

(** X12.  The request of every call on todos and of every admin call
    carries the header [Authorization] exactly when a token that is not empty
    is stored, and then with the value "Bearer " followed by that token as it
    is stored: whether the token has expired is not looked at. *)
Theorem data_requests_carry_the_stored_token
  (id : float) (input : JsObject) (changes : Changes) (w : World)
  (req : Request) (v : jsstring) :
  In req [listMyTodos_request w; createTodo_request input w;
          updateTodo_request id input w; deleteTodo_request id w;
          adminListUsers_request w; adminUpdateUser_request id changes w;
          adminListTodos_request w; adminDeleteTodo_request id w] ->
  In (js "Authorization", v) (req_headers req) <->
  exists t, getToken w = Some t /\ t <> [] /\ v = js "Bearer " ++ t.
Proof.
  intros Hreq.
  assert (H : In (js "Authorization", v) (req_headers req)
              <-> In (js "Authorization", v) (authHeaders w)).
  { simpl in Hreq.
    repeat (destruct Hreq as [<-|Hreq]; [simpl; try tauto|]);
      try (destruct Hreq);
      (split; [intros [H|H]; [discriminate H | exact H]
              | intros H; right; exact H]). }
  rewrite H, authHeaders_bearer. split.
  - intros [_ Ht]. exact Ht.
  - intros Ht. split; [reflexivity | exact Ht].
Qed.

(** X12 at the request of [createTodo] with an expired token in the
    store. *)
Lemma data_requests_carry_the_stored_token_witness :
  isTokenExpired Sample.token_exp_now
    (Sample.world {[TOKEN_KEY := Sample.token_exp_now]}) = Returns true
  /\ In (js "Authorization", js "Bearer " ++ Sample.token_exp_now)
       (req_headers
          (createTodo_request [(js "title", JStr (js "x"))]
             (Sample.world {[TOKEN_KEY := Sample.token_exp_now]}))).
Proof.
  split; [vm_compute; reflexivity|].
  apply (data_requests_carry_the_stored_token 7
           [(js "title", JStr (js "x"))] []
           (Sample.world {[TOKEN_KEY := Sample.token_exp_now]})).
  - right. left. reflexivity.
  - exists Sample.token_exp_now.
    split; [reflexivity | split; [discriminate | reflexivity]].
Defined.

Lemma delete_resolves (net : Network) (req : Request) (w : World) :
  (exists w' : World,
      (let* res := fetch net req in
       if negb (res_ok res) && negb (res_status res =? 204)%Z
       then do handleJsonResponse res then ret tt
       else ret tt) w = (Resolved tt, w'))
  <-> exists res : Response, net req = Reply res /\ res_ok res = true.
Proof.
  destruct (net req) as [msg|res] eqn:Hnet.
  { split.
    - intros [w' H]. unfold bind, fetch in H. rewrite Hnet in H. discriminate.
    - intros (res & H & _). discriminate. }
  rewrite (bind_resolved _ _ _ _ _ (fetch_reply _ _ _ _ Hnet)).
  destruct (res_ok res) eqn:Hok.
  - simpl. split.
    + intros _. exists res. auto.
    + intros _. eexists. reflexivity.
  - split.
    + intros [w' Hrun]. exfalso. revert Hrun.
      assert (H204 : (res_status res =? 204)%Z = false).
      { apply Z.eqb_neq. intros E. unfold res_ok in Hok. rewrite E in Hok.
        discriminate. }
      rewrite H204. simpl. unfold bind.
      destruct (handleJsonResponse res _) as [[data|e] w1] eqn:Hh;
        [|discriminate].
      apply handleJsonResponse_resolved in Hh as (Hok' & _). congruence.
    + intros (res' & H & Hok'). injection H as <-. congruence.
Qed.

(** X13.  [deleteTodo] and [adminDeleteTodo] resolve exactly when the
    server answers with an ok status: without an answer, and on an answer
    that is not ok, they reject; the separate test for 204 never decides
    anything, 204 being ok. *)
Theorem delete_calls_resolve_iff_ok (net : Network) (id : float) (w : World) :
  ((exists w' : World, deleteTodo net id w = (Resolved tt, w'))
   <-> exists res : Response,
         net (deleteTodo_request id w) = Reply res /\ res_ok res = true)
  /\ ((exists w' : World, adminDeleteTodo net id w = (Resolved tt, w'))
      <-> exists res : Response,
            net (adminDeleteTodo_request id w) = Reply res
            /\ res_ok res = true).
Proof. split; apply delete_resolves. Qed.

(** *** The login screen *)

(** X14.  A submit of the login form ends in one of two ways.  Either
    [onLogin] is called with the submitted email, and then a token and that
    email are in [localStorage]; or [onLogin] is not called at all, the form
    shows an error message that is not empty, and [localStorage] is as it was
    (empty fields, a network failure and every answer that is not a usable
    success end this way). *)
Theorem Login_handleSubmit_logs_in_or_explains
  (net : Network) (email password : jsstring) (w : World) :
  (exists (role : Login.Role) (tok : jsstring),
      fst (Login.handleSubmit net email password w)
      = [Login.setError []; Login.setLoading true; Login.onLogin email role;
         Login.setLoading false]
      /\ getToken (snd (Login.handleSubmit net email password w)) = Some tok
      /\ getCurrentEmail (snd (Login.handleSubmit net email password w))
         = Some email)
  \/ ((forall e role,
          ~ In (Login.onLogin e role)
              (fst (Login.handleSubmit net email password w)))
      /\ Login.shown_error (fst (Login.handleSubmit net email password w))
         <> []
      /\ storage (snd (Login.handleSubmit net email password w)) = storage w).
Proof.
  unfold Login.handleSubmit.
  destruct (negb (nonempty email) || negb (nonempty password)).
  { right. split; [|split; [discriminate | reflexivity]].
    intros e role [H|[H|[]]]; discriminate. }
  destruct (login net email password w) as [[r|err] w'] eqn:Hlogin.
  - left. destruct (login_success_storage _ _ _ _ _ _ Hlogin) as (tok & Ht & He).
    exists (if adm r then Login.admin else Login.user), tok. auto.
  - right. split; [|split].
    + intros e role H. simpl in H.
      destruct H as [H|[H|H]]; try discriminate.
      apply in_app_or in H as [H|[H|[]]]; [|discriminate].
      unfold Login.on_error in H.
      destruct (err_status err) as [[|p|p]|]; simpl in H;
        try (destruct H as [H|[]]; discriminate).
      repeat (destruct p as [p|p|]; simpl in H;
              try (destruct H as [H|[]]; discriminate);
              try (destruct H as [H|[H|[]]]; discriminate)).
    + simpl. unfold Login.on_error.
      assert (Hmsg : (if nonempty (err_message err) then err_message err
                      else js "Invalid credentials") <> []).
      { destruct (err_message err); discriminate. }
      destruct (err_status err) as [[|p|p]|]; simpl; try exact Hmsg.
      repeat (destruct p as [p|p|]; simpl; try exact Hmsg; try discriminate).
    + simpl. exact (login_failure_storage _ _ _ _ _ _ Hlogin).
Qed.

(** *** The admin's drawer *)

(** X15.  The form of the drawer gives no change exactly when it equals
    the flags [openEditDrawer] filled in from the user; switching a flag and
    switching it back gives no change either.  Saving such a form still sends
    one PATCH, to [/api/admin/users/<id>?] with an empty query. *)
Theorem AdminUsers_unchanged_form_sends_no_flag
  (net : Network) (u : AdminUsers.User) (w : World) :
  (forall formData : AdminUsers.FormData,
      AdminUsers.build_changes formData u = []
      <-> formData = snd (fst (AdminUsers.openEditDrawer u)))
  /\ (forall b : bool,
         AdminUsers.build_changes
           (AdminUsers.switch_is_admin (AdminUsers.is_admin u)
              (AdminUsers.switch_is_admin b
                 (snd (fst (AdminUsers.openEditDrawer u))))) u = []
         /\ AdminUsers.build_changes
              (AdminUsers.switch_email_verified (AdminUsers.email_verified u)
                 (AdminUsers.switch_email_verified b
                    (snd (fst (AdminUsers.openEditDrawer u))))) u = []
         /\ AdminUsers.build_changes
              (AdminUsers.switch_is_active (AdminUsers.is_active u)
                 (AdminUsers.switch_is_active b
                    (snd (fst (AdminUsers.openEditDrawer u))))) u = [])
  /\ exists req : Request,
       sent (snd (AdminUsers.handleUpdateUser net
                    (fst (fst (AdminUsers.openEditDrawer u)))
                    (snd (fst (AdminUsers.openEditDrawer u))) w))
       = sent w ++ [req]
       /\ req_method req = js "PATCH"
       /\ req_url req
          = js "/api/admin/users/" ++ Number_toString (AdminUsers.id u)
            ++ js "?".
Proof.
  split; [|split].
  - intros [fa fv fact]. destruct u as [i e uv ua uact c].
    unfold AdminUsers.build_changes, AdminUsers.openEditDrawer. simpl.
    destruct fa, fv, fact, uv, ua, uact; simpl; split;
      solve [reflexivity | discriminate | congruence].
  - intros b. destruct u as [i e uv ua uact c].
    destruct uv, ua, uact; repeat split; reflexivity.
  - exists (adminUpdateUser_request (AdminUsers.id u) [] w).
    assert (Hc : AdminUsers.build_changes
                   (snd (fst (AdminUsers.openEditDrawer u))) u = []).
    { destruct u as [i e uv ua uact c]. destruct uv, ua, uact; reflexivity. }
    split; [|split].
    + pose proof (adminUpdateUser_sent net (AdminUsers.id u) [] w) as Hsent.
      unfold AdminUsers.openEditDrawer, AdminUsers.handleUpdateUser.
      cbn [fst snd]. unfold AdminUsers.openEditDrawer in Hc.
      cbn [fst snd] in Hc. rewrite Hc.
      destruct (adminUpdateUser net (AdminUsers.id u) [] w)
        as [[updated|err] w']; exact Hsent.
    + reflexivity.
    + unfold adminUpdateUser_request. cbn [req_url].
      change (URLSearchParams_toString (adminUpdateUser_params []))
        with (@nil N).
      rewrite app_nil_r. reflexivity.
Qed.

(** *** The verification screen *)

Lemma drop_while_head (p : N -> bool) (s : jsstring) (c : N) (r : jsstring) :
  drop_while p s = c :: r -> p c = false.
Proof.
  induction s as [|x s IH]; simpl; [discriminate|].
  destruct (p x) eqn:E; [exact IH|]. intros H. injection H as <- _. exact E.
Qed.

Lemma drop_while_suffix (p : N -> bool) (s : jsstring) :
  exists pre, s = pre ++ drop_while p s.
Proof.
  induction s as [|x s [pre IH]]; simpl; [exists []; reflexivity|].
  destruct (p x).
  - exists (x :: pre). simpl. f_equal. exact IH.
  - exists []. reflexivity.
Qed.

(** What [trim] returns neither starts nor ends with white space. *)
Lemma trim_ends (s : jsstring) :
  trim s <> [] ->
  is_js_space (List.hd 0%N (trim s)) = false
  /\ is_js_space (List.last (trim s) 0%N) = false.
Proof.
  unfold trim. intros Hne.
  set (d := drop_while is_js_space s) in *.
  destruct (drop_while is_js_space (rev d)) as [|c r] eqn:E.
  { exfalso. apply Hne. reflexivity. }
  pose proof (drop_while_head _ _ _ _ E) as Hc.
  split.
  - destruct (drop_while_suffix is_js_space (rev d)) as [pre Hpre].
    rewrite E in Hpre.
    assert (Hd : d = rev (c :: r) ++ rev pre).
    { rewrite <- (rev_involutive d), Hpre, rev_app_distr. reflexivity. }
    destruct (rev (c :: r)) as [|x l] eqn:Er.
    { apply (f_equal (@rev N)) in Er. rewrite rev_involutive in Er.
      discriminate. }
    simpl. subst d. simpl in Hd.
    exact (drop_while_head _ _ _ _ Hd).
  - simpl rev. rewrite last_last. exact Hc.
Qed.

Lemma runVerification_world
  (URIError_message : jsstring) (net : Network) (token : jsstring) (w : World) :
  snd (VerifyEmail.runVerification URIError_message net token w)
  = snd (verifyEmail URIError_message net token w).
Proof.
  unfold VerifyEmail.runVerification.
  destruct (verifyEmail URIError_message net token w) as [[res|err] w'];
    reflexivity.
Qed.

(** X16.  The form of the verification screen sends nothing for a token
    that is empty or all white space: it shows "Please enter the verification
    token."  Otherwise it verifies the trimmed token, which neither starts
    nor ends with white space, in one request.  The token of a verification
    link, read when the screen is mounted, is sent as it is. *)
Theorem VerifyEmail_handleSubmit_sends_the_trimmed_token
  (URIError_message : jsstring) (net : Network) (tokenInput : jsstring)
  (w : World) :
  (trim tokenInput = [] ->
   VerifyEmail.handleSubmit URIError_message net tokenInput w
   = ([VerifyEmail.setStatus VerifyEmail.error;
       VerifyEmail.setMessage
         (JStr (js "Please enter the verification token."))], w))
  /\ (trim tokenInput <> [] ->
      VerifyEmail.handleSubmit URIError_message net tokenInput w
      = VerifyEmail.runVerification URIError_message net (trim tokenInput) w
      /\ is_js_space (List.hd 0%N (trim tokenInput)) = false
      /\ is_js_space (List.last (trim tokenInput) 0%N) = false
      /\ forall encoded : jsstring,
           encodeURIComponent (trim tokenInput) = Some encoded ->
           sent (snd (VerifyEmail.handleSubmit URIError_message net
                        tokenInput w))
           = sent w ++ [verifyEmail_request encoded])
  /\ (forall encoded : jsstring,
         tokenInput <> [] ->
         encodeURIComponent tokenInput = Some encoded ->
         sent (snd (VerifyEmail.on_mount URIError_message net
                      (Some tokenInput) w))
         = sent w ++ [verifyEmail_request encoded]).
Proof.
  split; [|split].
  - unfold VerifyEmail.handleSubmit. intros ->. reflexivity.
  - intros Hne. destruct (trim_ends _ Hne) as [Hhd Hlast].
    assert (Hrun : VerifyEmail.handleSubmit URIError_message net tokenInput w
                   = VerifyEmail.runVerification URIError_message net
                       (trim tokenInput) w).
    { unfold VerifyEmail.handleSubmit. apply nonempty_true in Hne.
      rewrite Hne. reflexivity. }
    split; [exact Hrun|]. split; [exact Hhd|]. split; [exact Hlast|].
    intros encoded E. rewrite Hrun, runVerification_world.
    apply verifyEmail_sent. exact E.
  - intros encoded Hne E. unfold VerifyEmail.on_mount.
    apply nonempty_true in Hne. rewrite Hne.
    pose proof (runVerification_world URIError_message net tokenInput w) as Hw.
    destruct (VerifyEmail.runVerification URIError_message net tokenInput w)
      as [evs w'].
    cbn [snd] in *. rewrite Hw. apply verifyEmail_sent. exact E.
Qed.

(** X16 at the input " a1 " (the token of the README between two
    spaces). *)
Lemma VerifyEmail_handleSubmit_sends_the_trimmed_token_witness :
  map req_url
    (sent (snd (VerifyEmail.handleSubmit (js "URI malformed") Sample.offline
                  (js " a1 ") (Sample.world ∅))))
  = [js "/api/auth/verify-email?token=a1"].
Proof.
  destruct (VerifyEmail_handleSubmit_sends_the_trimmed_token
              (js "URI malformed") Sample.offline (js " a1 ")
              (Sample.world ∅)) as (_ & Hsend & _).
  destruct Hsend as (_ & _ & _ & Hsent); [vm_compute; discriminate|].
  rewrite (Hsent (js "a1")); [reflexivity | vm_compute; reflexivity].
Defined.

Lemma js_or_truthy (a b : JsValue) :
  truthy b = true -> truthy (js_or a b) = true.
Proof.
  intros H. unfold js_or. destruct (truthy a) eqn:E; [exact E | exact H].
Qed.

(** X17.  After [runVerification] the screen shows the status "success"
    exactly when [verifyEmail] resolved with a body that is not [null]: an ok
    answer without a JSON body ends in the status "error", through the
    TypeError of reading [res.message].  The message shown with either status
    is never empty. *)
Theorem VerifyEmail_success_needs_a_body
  (URIError_message : jsstring) (net : Network) (token : jsstring) (w : World)
  (before : VerifyEmail.Status * JsValue) :
  (fst (VerifyEmail.shown
          (fst (VerifyEmail.runVerification URIError_message net token w))
          before) = VerifyEmail.success
   <-> exists (res : JsValue) (w' : World),
         verifyEmail URIError_message net token w = (Resolved res, w')
         /\ res <> JNull /\ res <> JUndefined)
  /\ truthy
       (snd (VerifyEmail.shown
               (fst (VerifyEmail.runVerification URIError_message net token w))
               before)) = true.
Proof.
  unfold VerifyEmail.runVerification.
  destruct (verifyEmail URIError_message net token w) as [[res|err] w'].
  - destruct res;
      cbn [fst snd app VerifyEmail.on_error VerifyEmail.shown fold_left];
      (split; [split|apply js_or_truthy; reflexivity]);
      first [ intros H; discriminate H
            | intros _; eexists; eexists;
              split; [reflexivity | split; discriminate]
            | intros (r & w0 & H & Hn & Hu); injection H as <- <-;
              first [reflexivity | congruence] ].
  - cbn [fst snd app VerifyEmail.on_error VerifyEmail.shown fold_left]. split.
    + split; [discriminate|]. intros (r & w0 & H & _). discriminate.
    + apply js_or_truthy. reflexivity.
Qed.

(** *** [App]: the session after a reload, the pages, the theme *)




(** X19.  [renderPage] shows the users screen only for the page "users"
    and the screen of all todos only for the page "all-todos", and each of
    them only to a user whose role is "admin"; to any other user the two
    pages show "Access Denied". *)
Theorem renderPage_admin_screens_need_admin (u : App.User) (page : jsstring) :
  (App.renderPage u page = App.AdminUsersView
   <-> page = js "users" /\ App.role u = Login.admin)
  /\ (App.renderPage u page = App.AdminTodosView
      <-> page = js "all-todos" /\ App.role u = Login.admin)
  /\ (App.renderPage u page = App.AccessDenied
      <-> (page = js "users" \/ page = js "all-todos")
          /\ App.role u = Login.user).
Proof.
  unfold App.renderPage.
  destruct (str_eqb page (js "my-todos")) eqn:E1.
  { apply str_eqb_eq in E1. subst page.
    repeat split; try discriminate; intros [H _];
      try discriminate H; destruct H as [H|H]; discriminate H. }
  destruct (str_eqb page (js "profile")) eqn:E2.
  { apply str_eqb_eq in E2. subst page.
    repeat split; try discriminate; intros [H _];
      try discriminate H; destruct H as [H|H]; discriminate H. }
  destruct (str_eqb page (js "users")) eqn:E3.
  { apply str_eqb_eq in E3. subst page.
    destruct (App.role u); repeat split; try discriminate; auto;
      intros [H1 H2]; try discriminate; try (destruct H1; discriminate). }
  destruct (str_eqb page (js "settings")) eqn:E4.
  { apply str_eqb_eq in E4. subst page.
    repeat split; try discriminate; intros [H _];
      try discriminate H; destruct H as [H|H]; discriminate H. }
  destruct (str_eqb page (js "all-todos")) eqn:E5.
  { apply str_eqb_eq in E5. subst page.
    destruct (App.role u); repeat split; try discriminate; auto;
      intros [H1 H2]; try discriminate; try (destruct H1; discriminate). }
  repeat split; try discriminate; intros [H _];
    try (destruct H as [H|H]); subst page;
    rewrite str_eqb_refl in *; discriminate.
Qed.

(** X20.  A user who logged in with a token whose payload has no truthy
    [adm] gets the role "user", and wherever that user navigates, [App]
    renders the layout with a page that is neither the users screen nor the
    screen of all todos. *)
Theorem non_admin_never_sees_admin_screens
  (net : Network) (email password tok : jsstring) (res : Response)
  (data : JsValue) (w : World) (page : jsstring) :
  net (login_request email password) = Reply res ->
  res_ok res = true ->
  response_data res = Some data ->
  get data (js "access_token") = JStr tok ->
  email <> [] -> password <> [] ->
  truthy (get_opt (decodeJwt tok) (js "adm")) = false ->
  exists u : App.User,
    App.render
      (App.handleNavigate page
         (App.after_login_events
            (fst (Login.handleSubmit net email password w)) App.initial))
    = App.Layout u
    /\ App.role u = Login.user
    /\ App.renderPage u page <> App.AdminUsersView
    /\ App.renderPage u page <> App.AdminTodosView.
Proof.
  intros Hnet Hok Hdata Htok He Hp Hadm.
  pose proof (login_resolved _ _ _ _ _ _ w Hnet Hok Hdata Htok) as Hlogin.
  unfold Login.handleSubmit.
  apply nonempty_true in He. apply nonempty_true in Hp.
  rewrite He, Hp, Hlogin, Hadm.
  eexists. split; [reflexivity|]. split; [reflexivity|].
  unfold App.renderPage. cbn [App.role].
  split; repeat (destruct (str_eqb page _); try discriminate).
Qed.

(** X20 for a user without [adm] who opens the page "users". *)
Lemma non_admin_never_sees_admin_screens_witness :
  exists u : App.User,
    App.render
      (App.handleNavigate (js "users")
         (App.after_login_events
            (fst (Login.handleSubmit
                    (fun _ => Reply (Sample.login_response
                                       Sample.token_exp_later))
                    (js "a@x.com") (js "password123") (Sample.world ∅)))
            App.initial))
    = App.Layout u
    /\ App.renderPage u (js "users") = App.AccessDenied.
Proof.
  destruct (non_admin_never_sees_admin_screens
              (fun _ => Reply (Sample.login_response Sample.token_exp_later))
              (js "a@x.com") (js "password123") Sample.token_exp_later
              (Sample.login_response Sample.token_exp_later)
              (JObj [(js "access_token", JStr Sample.token_exp_later);
                     (js "token_type", JStr (js "bearer"));
                     (js "expires_in", JNum 3600)])
              (Sample.world ∅) (js "users"))
    as (u & Hrender & Hrole & _);
    [reflexivity | reflexivity | vm_compute; reflexivity
    | vm_compute; reflexivity | discriminate | discriminate
    | vm_compute; reflexivity |].
  exists u. split; [exact Hrender|].
  unfold App.renderPage. rewrite Hrole. reflexivity.
Defined.

(** X21.  The theme chosen in the settings is the theme loaded at the next
    start, also after a logout in between; the root gets the class
    [theme-pink] exactly for the pink theme; and choosing a theme touches
    neither the stored token nor the stored email. *)
Theorem theme_survives_reload_and_logout
  (t : App.Theme) (w : World) (theme : jsstring) :
  App.load_theme (snd (App.handleThemeChange t w)) theme = App.theme_id t
  /\ App.load_theme (logout (snd (App.handleThemeChange t w))) theme
     = App.theme_id t
  /\ (App.has_theme_pink (fst (App.handleThemeChange t w)) = true
      <-> t = App.pink)
  /\ getToken (snd (App.handleThemeChange t w)) = getToken w
  /\ getCurrentEmail (snd (App.handleThemeChange t w)) = getCurrentEmail w.
Proof.
  assert (H1 : App.load_theme (snd (App.handleThemeChange t w)) theme
               = App.theme_id t).
  { unfold App.load_theme, App.handleThemeChange, localStorage_getItem,
      localStorage_setItem, with_storage. simpl.
    rewrite lookup_insert_eq. destruct t; reflexivity. }
  split; [exact H1|]. split; [|split; [|split]].
  - rewrite <- H1.
    unfold App.load_theme, logout, clearSession, localStorage_getItem,
      localStorage_removeItem, with_storage. simpl.
    rewrite !lookup_delete_ne by (intros H; vm_compute in H; discriminate).
    reflexivity.
  - destruct t; simpl; split; solve [discriminate | reflexivity].
  - unfold getToken, App.handleThemeChange, localStorage_getItem,
      localStorage_setItem, with_storage. simpl.
    apply lookup_insert_ne. intros H. vm_compute in H. discriminate.
  - unfold getCurrentEmail, App.handleThemeChange, localStorage_getItem,
      localStorage_setItem, with_storage. simpl.
    apply lookup_insert_ne. intros H. vm_compute in H. discriminate.
Qed.

(** *** The todo screen *)

Lemma with_done_same (t : MyTodos.Todo) :
  MyTodos.with_done (MyTodos.done t) t = t.
Proof. destruct t; reflexivity. Qed.

Lemma mark_done_same (i : float) (d : bool) (todos : list MyTodos.Todo) :
  (forall t, In t todos -> PrimFloat.eqb (MyTodos.id t) i = true ->
             MyTodos.done t = d) ->
  MyTodos.mark_done i d todos = todos.
Proof.
  intros H. unfold MyTodos.mark_done.
  induction todos as [|t todos IH]; [reflexivity|]. cbn [map].
  rewrite IH by (intros t' Hin; apply H; right; exact Hin).
  destruct (PrimFloat.eqb (MyTodos.id t) i) eqn:E; [|reflexivity].
  rewrite <- (H t (or_introl eq_refl) E). rewrite with_done_same. reflexivity.
Qed.

Lemma updateTodo_sent (net : Network) (id : float) (input : JsObject) (w : World) :
  snd (updateTodo net id input w)
  = with_sent (fun l => l ++ [updateTodo_request id input w]) w.
Proof. apply fetch_then_handle. Qed.

Lemma createTodo_sent (net : Network) (input : JsObject) (w : World) :
  snd (createTodo net input w)
  = with_sent (fun l => l ++ [createTodo_request input w]) w.
Proof. apply fetch_then_handle. Qed.

Lemma deleteTodo_sent (net : Network) (id : float) (w : World) :
  snd (deleteTodo net id w)
  = with_sent (fun l => l ++ [deleteTodo_request id w]) w.
Proof. apply fetch_then_handle_delete. Qed.

Lemma register_sent (net : Network) (email password : jsstring) (w : World) :
  snd (register net email password w)
  = with_sent (fun l => l ++ [register_request email password]) w.
Proof. apply fetch_then_handle. Qed.

(** X22.  When the call behind a toggle fails and the error converts to a
    text, [handleToggleDone] ends with the list it started from: the change
    made before the call is taken back after the toast.  This needs every
    item of the list with the id of the toggled todo to have its [done] flag
    (as when the todo is the one item of the list with that id). *)
Theorem MyTodos_handleToggleDone_reverts_on_failure
  (net : Network) (todo : MyTodos.Todo) (todos : list MyTodos.Todo)
  (w w' : World) (err : JsError) (text : jsstring) :
  (forall t, In t todos ->
             PrimFloat.eqb (MyTodos.id t) (MyTodos.id todo) = true ->
             MyTodos.done t = MyTodos.done todo) ->
  updateTodo net (MyTodos.id todo)
    [(js "done", JBool (negb (MyTodos.done todo)))] w = (Rejected err, w') ->
  MyTodos.error_text (js "Failed to toggle todo") err = Returns text ->
  MyTodos.handleToggleDone net todo todos w
  = ([MyTodos.setTodos
        (MyTodos.mark_done (MyTodos.id todo) (negb (MyTodos.done todo)) todos);
      MyTodos.toast_error text;
      MyTodos.setTodos todos], w')
  /\ MyTodos.last_setTodos (fst (MyTodos.handleToggleDone net todo todos w))
     = Some todos
  /\ storage w' = storage w.
Proof.
  intros Hsame Hcall Htext. unfold MyTodos.handleToggleDone.
  rewrite Hcall, Htext, negb_involutive, (mark_done_same _ _ _ Hsame).
  split; [reflexivity|]. split; [reflexivity|].
  pose proof (updateTodo_sent net (MyTodos.id todo)
                [(js "done", JBool (negb (MyTodos.done todo)))] w) as Hw.
  rewrite Hcall in Hw. simpl in Hw. subst w'. reflexivity.
Qed.

(** X22 for a list of one todo, with the network down. *)
Lemma MyTodos_handleToggleDone_reverts_on_failure_witness :
  fst (MyTodos.handleToggleDone Sample.offline Sample.todo [Sample.todo]
         (Sample.world ∅))
  = [MyTodos.setTodos [MyTodos.with_done true Sample.todo];
     MyTodos.toast_error (js "Failed to fetch");
     MyTodos.setTodos [Sample.todo]].
Proof.
  destruct (MyTodos_handleToggleDone_reverts_on_failure
              Sample.offline Sample.todo [Sample.todo] (Sample.world ∅)
              (with_sent
                 (fun l => l ++ [updateTodo_request 7
                                   [(js "done", JBool true)] (Sample.world ∅)])
                 (Sample.world ∅))
              {| err_message := js "Failed to fetch"; err_status := None;
                 err_data := JUndefined |}
              (js "Failed to fetch")) as (Hrun & _).
  - intros t [<-|[]] _. reflexivity.
  - reflexivity.
  - reflexivity.
  - rewrite Hrun. reflexivity.
Defined.

(** X23.  [handleDeleteTodo] does nothing without a selected todo.  With
    one it sends one DELETE; when that call resolves, the list it sets holds
    exactly the todos whose id differs from the selected one, in their old
    order; when the call rejects, it sets no list at all, so the todos stay
    as they were. *)
Theorem MyTodos_handleDeleteTodo_removes_the_selected
  (net : Network) (sel : MyTodos.Todo) (todos : list MyTodos.Todo) (w : World) :
  MyTodos.handleDeleteTodo net None todos w = ([], w)
  /\ sent (snd (MyTodos.handleDeleteTodo net (Some sel) todos w))
     = sent w ++ [deleteTodo_request (MyTodos.id sel) w]
  /\ match fst (deleteTodo net (MyTodos.id sel) w) with
     | Resolved _ =>
         exists l : list MyTodos.Todo,
           MyTodos.last_setTodos
             (fst (MyTodos.handleDeleteTodo net (Some sel) todos w)) = Some l
           /\ (forall t, In t l <->
                         In t todos
                         /\ PrimFloat.eqb (MyTodos.id t) (MyTodos.id sel) = false)
           /\ (exists keep : MyTodos.Todo -> bool, l = List.filter keep todos)
     | Rejected _ =>
         MyTodos.last_setTodos
           (fst (MyTodos.handleDeleteTodo net (Some sel) todos w)) = None
     end.
Proof.
  split; [reflexivity|]. split.
  - pose proof (deleteTodo_sent net (MyTodos.id sel) w) as Hw.
    unfold MyTodos.handleDeleteTodo.
    destruct (deleteTodo net (MyTodos.id sel) w) as [[u|err] w'];
      simpl in Hw; subst w'; reflexivity.
  - unfold MyTodos.handleDeleteTodo.
    destruct (deleteTodo net (MyTodos.id sel) w) as [[u|err] w']; cbn [fst].
    + exists (MyTodos.without (MyTodos.id sel) todos).
      split; [reflexivity|]. split.
      * intros t. unfold MyTodos.without. rewrite filter_In, negb_true_iff.
        reflexivity.
      * eexists. reflexivity.
    + unfold MyTodos.catch_finally.
      destruct (MyTodos.error_text _ err); reflexivity.
Qed.

(** X24.  [handleCreateTodo] sends nothing for a title that is empty or
    all white space: it shows "Title is required".  For any other title it
    sends one POST to [/api/todos] whose body reads back as the title and the
    description exactly as they were typed: the title is tested trimmed and
    sent untrimmed. *)
Theorem MyTodos_handleCreateTodo_needs_a_title
  (net : Network) (formData : MyTodos.FormData) (todos : list MyTodos.Todo)
  (w : World) :
  (trim (MyTodos.form_title formData) = [] ->
   MyTodos.handleCreateTodo net formData todos w
   = ([MyTodos.toast_error (js "Title is required")], w))
  /\ (trim (MyTodos.form_title formData) <> [] ->
      exists (req : Request) (body : jsstring),
        sent (snd (MyTodos.handleCreateTodo net formData todos w))
        = sent w ++ [req]
        /\ req_method req = js "POST"
        /\ req_url req = js "/api/todos"
        /\ req_body req = Some body
        /\ JSON_parse body
           = Some (JObj [(js "title", JStr (MyTodos.form_title formData));
                         (js "description",
                          JStr (MyTodos.form_description formData))])).
Proof.
  unfold MyTodos.handleCreateTodo. split.
  - intros ->. reflexivity.
  - intros Hne. apply nonempty_true in Hne. rewrite Hne. cbn [negb].
    set (input := [(js "title", JStr (MyTodos.form_title formData));
                   (js "description", JStr (MyTodos.form_description formData))]).
    destruct (JSON_parse_stringify_flat input eq_refl) as (body & Hs & Hp).
    exists (createTodo_request input w), body.
    split.
    + pose proof (createTodo_sent net input w) as Hw.
      destruct (createTodo net input w) as [[created|err] w'];
        simpl in Hw; subst w'; reflexivity.
    + repeat split; assumption.
Qed.

(** X24 at a title of two spaces, and at the title " milk". *)
Lemma MyTodos_handleCreateTodo_needs_a_title_witness :
  MyTodos.handleCreateTodo Sample.offline
    {| MyTodos.form_title := js "  "; MyTodos.form_description := [] |}
    [] (Sample.world ∅)
  = ([MyTodos.toast_error (js "Title is required")], Sample.world ∅)
  /\ exists (req : Request) (body : jsstring),
       sent (snd (MyTodos.handleCreateTodo Sample.offline
                    {| MyTodos.form_title := js " milk";
                       MyTodos.form_description := [] |}
                    [] (Sample.world ∅)))
       = sent (Sample.world ∅) ++ [req]
       /\ req_body req = Some body
       /\ JSON_parse body
          = Some (JObj [(js "title", JStr (js " milk"));
                        (js "description", JStr [])]).
Proof.
  split.
  - apply (MyTodos_handleCreateTodo_needs_a_title Sample.offline
             {| MyTodos.form_title := js "  "; MyTodos.form_description := [] |}
             [] (Sample.world ∅)).
    vm_compute. reflexivity.
  - destruct (MyTodos_handleCreateTodo_needs_a_title Sample.offline
                {| MyTodos.form_title := js " milk";
                   MyTodos.form_description := [] |}
                [] (Sample.world ∅)) as [_ Hsend].
    destruct Hsend as (req & body & Hsent & _ & _ & Hbody & Hparse);
      [vm_compute; discriminate|].
    exists req, body. auto.
Defined.

(** X25.  Saving the edit dialog sends one PATCH to [/api/todos/<id>] whose
    body reads back as the title and the description of the form and holds
    no [done]; a toggle sends one PATCH to the same address whose body reads
    back as the negated [done] flag alone.  Without a selected todo the edit
    handler does nothing. *)
Theorem MyTodos_updates_send_only_the_changed_fields
  (net : Network) (todo : MyTodos.Todo) (formData : MyTodos.FormData)
  (todos : list MyTodos.Todo) (w : World) :
  (exists (req : Request) (body : jsstring),
      sent (snd (MyTodos.handleUpdateTodo net (Some todo) formData todos w))
      = sent w ++ [req]
      /\ req_method req = js "PATCH"
      /\ req_url req = js "/api/todos/" ++ Number_toString (MyTodos.id todo)
      /\ req_body req = Some body
      /\ JSON_parse body
         = Some (JObj [(js "title", JStr (MyTodos.form_title formData));
                       (js "description",
                        JStr (MyTodos.form_description formData))]))
  /\ (exists (req : Request) (body : jsstring),
         sent (snd (MyTodos.handleToggleDone net todo todos w))
         = sent w ++ [req]
         /\ req_method req = js "PATCH"
         /\ req_url req = js "/api/todos/" ++ Number_toString (MyTodos.id todo)
         /\ req_body req = Some body
         /\ JSON_parse body
            = Some (JObj [(js "done", JBool (negb (MyTodos.done todo)))]))
  /\ MyTodos.handleUpdateTodo net None formData todos w = ([], w).
Proof.
  split; [|split; [|reflexivity]].
  - set (input := [(js "title", JStr (MyTodos.form_title formData));
                   (js "description", JStr (MyTodos.form_description formData))]).
    destruct (JSON_parse_stringify_flat input eq_refl) as (body & Hs & Hp).
    exists (updateTodo_request (MyTodos.id todo) input w), body.
    split.
    + pose proof (updateTodo_sent net (MyTodos.id todo) input w) as Hw.
      unfold MyTodos.handleUpdateTodo. fold input.
      destruct (updateTodo net (MyTodos.id todo) input w) as [[r|err] w'];
        simpl in Hw; subst w'; reflexivity.
    + repeat split; assumption.
  - set (input := [(js "done", JBool (negb (MyTodos.done todo)))]).
    destruct (JSON_parse_stringify_flat input eq_refl) as (body & Hs & Hp).
    exists (updateTodo_request (MyTodos.id todo) input w), body.
    split.
    + pose proof (updateTodo_sent net (MyTodos.id todo) input w) as Hw.
      unfold MyTodos.handleToggleDone. fold input.
      destruct (updateTodo net (MyTodos.id todo) input w) as [[r|err] w'];
        simpl in Hw; subst w'; reflexivity.
    + repeat split; assumption.
Qed.

(** *** The simple screen *)

(** X26.  The simple screen checks less than the main screens do: its
    register and login buttons send their request for any email and password,
    empty ones included, and its verify button refuses only the empty token
    and sends any other one as it was typed, white space included. *)
Theorem SimpleUI_sends_what_was_typed
  (URIError_message : jsstring) (net : Network) (email password token : jsstring)
  (w : World) :
  sent (snd (SimpleUI.handleRegister net email password w))
  = sent w ++ [register_request email password]
  /\ sent (snd (SimpleUI.handleLogin net email password w))
     = sent w ++ [login_request email password]
  /\ (token = [] ->
      SimpleUI.handleVerify URIError_message net token w
      = ([SimpleUI.toast_error (js "Paste the token from the API console.")],
         w))
  /\ (forall encoded : jsstring,
         token <> [] -> encodeURIComponent token = Some encoded ->
         sent (snd (SimpleUI.handleVerify URIError_message net token w))
         = sent w ++ [verifyEmail_request encoded]).
Proof.
  split; [|split; [|split]].
  - pose proof (register_sent net email password w) as Hw.
    unfold SimpleUI.handleRegister.
    destruct (register net email password w) as [[r|err] w'];
      simpl in Hw; subst w'; reflexivity.
  - pose proof (login_sent net email password w) as Hw.
    unfold SimpleUI.handleLogin.
    destruct (login net email password w) as [[r|err] w']; exact Hw.
  - intros ->. reflexivity.
  - intros encoded Hne E. unfold SimpleUI.handleVerify.
    apply nonempty_true in Hne. rewrite Hne. cbn [negb].
    pose proof (verifyEmail_sent URIError_message net token encoded w E) as Hw.
    destruct (verifyEmail URIError_message net token w) as [[r|err] w'];
      exact Hw.
Qed.

(** X26 at the token " " (one space) and at an empty registration. *)
Lemma SimpleUI_sends_what_was_typed_witness :
  map req_url
    (sent (snd (SimpleUI.handleVerify (js "URI malformed") Sample.offline
                  (js " ") (Sample.world ∅))))
  = [js "/api/auth/verify-email?token=%20"]
  /\ sent (snd (SimpleUI.handleRegister Sample.offline [] [] (Sample.world ∅)))
     = [register_request [] []].
Proof.
  destruct (SimpleUI_sends_what_was_typed (js "URI malformed") Sample.offline
              [] [] (js " ") (Sample.world ∅))
    as (Hregister & _ & _ & Hverify).
  split.
  - rewrite (Hverify (js "%20"));
      [reflexivity | discriminate | vm_compute; reflexivity].
  - rewrite Hregister. reflexivity.
Defined.

(** *** The registration screen, past its checks *)

Lemma Register_valid (email password : jsstring) :
  email <> [] -> includes (js "@") email = true ->
  (8 <= str_length password)%Z ->
  negb (nonempty email) || negb (includes (js "@") email) = false
  /\ (str_length password <? 8)%Z = false.
Proof.
  intros He Hat Hp. apply nonempty_true in He. rewrite He, Hat.
  split; [reflexivity|]. apply Z.ltb_ge. exact Hp.
Qed.

(** X27.  When the server refuses a registration with a JSON body whose
    [detail] is a string that is not empty (as for an email that is already
    registered), the registration form shows exactly that string; one request
    was sent and nothing was stored. *)
Theorem Register_shows_the_server_detail
  (net : Network) (email password s : jsstring) (res : Response)
  (data : JsValue) (w : World) :
  email <> [] -> includes (js "@") email = true ->
  (8 <= str_length password)%Z ->
  net (register_request email password) = Reply res ->
  res_ok res = false ->
  response_data res = Some data ->
  get_opt data (js "detail") = JStr s -> s <> [] ->
  Register.handleSubmit net email password w
  = ([Register.setError []; Register.setSuccess false; Register.setLoading true;
      Register.setError s; Register.setLoading false],
     with_sent (fun l => l ++ [register_request email password]) w).
Proof.
  intros He Hat Hp Hnet Hok Hdata Hdetail Hs.
  destruct (Register_valid _ _ He Hat Hp) as [Hv1 Hv2].
  assert (Htruthy : truthy (JStr s) = true)
    by (destruct s; [congruence | reflexivity]).
  assert (Herr : api_error res data
                 = Returns {| err_message := s;
                              err_status := Some (res_status res);
                              err_data := data |}).
  { unfold api_error, js_or. rewrite Hdetail, Htruthy. cbv iota.
    rewrite Htruthy. reflexivity. }
  unfold Register.handleSubmit. rewrite Hv1, Hv2. unfold register.
  rewrite (bind_resolved _ _ _ _ _ (fetch_reply _ _ _ _ Hnet)).
  rewrite (handleJsonResponse_api_error _ _ _ _ Hok Hdata Herr).
  cbn [err_data err_message]. unfold js_or.
  rewrite Hdetail, Htruthy. cbv iota. rewrite Htruthy. reflexivity.
Qed.

(** X27 at a 409 with [{"detail":"Email already registered"}]. *)
Lemma Register_shows_the_server_detail_witness :
  fst (Register.handleSubmit
         (fun _ =>
            Reply (Sample.json_response 409 (js "Conflict")
                     (Sample.json_text "{'detail':'Email already registered'}")))
         (js "a@x.com") (js "password123") (Sample.world ∅))
  = [Register.setError []; Register.setSuccess false; Register.setLoading true;
     Register.setError (js "Email already registered");
     Register.setLoading false].
Proof.
  rewrite (Register_shows_the_server_detail
             (fun _ =>
                Reply (Sample.json_response 409 (js "Conflict")
                         (Sample.json_text
                            "{'detail':'Email already registered'}")))
             (js "a@x.com") (js "password123")
             (js "Email already registered")
             (Sample.json_response 409 (js "Conflict")
                (Sample.json_text "{'detail':'Email already registered'}"))
             (JObj [(js "detail", JStr (js "Email already registered"))])
             (Sample.world ∅));
    [reflexivity | discriminate | vm_compute; reflexivity
    | vm_compute; discriminate | reflexivity | reflexivity
    | vm_compute; reflexivity | reflexivity | discriminate].
Defined.

(** X28.  When the server accepts a registration (an ok answer whose body,
    if declared as JSON, parses), the form reports success and navigates to
    "verify-email", where [App] renders the verification screen while nobody
    is logged in; one request was sent, and nothing is stored: registering
    does not log in. *)
Theorem Register_success_leads_to_verification
  (net : Network) (email password : jsstring) (res : Response)
  (data : JsValue) (w : World) (st : App.State) :
  email <> [] -> includes (js "@") email = true ->
  (8 <= str_length password)%Z ->
  net (register_request email password) = Reply res ->
  res_ok res = true ->
  response_data res = Some data ->
  Register.handleSubmit net email password w
  = ([Register.setError []; Register.setSuccess false; Register.setLoading true;
      Register.setSuccess true; Register.onNavigate (js "verify-email");
      Register.setLoading false],
     with_sent (fun l => l ++ [register_request email password]) w)
  /\ storage (snd (Register.handleSubmit net email password w)) = storage w
  /\ isLoggedIn (snd (Register.handleSubmit net email password w))
     = isLoggedIn w
  /\ (App.currentUser st = None ->
      App.render (App.handleNavigate (js "verify-email") st)
      = App.VerifyEmailScreen (App.pendingVerificationEmail st)).
Proof.
  intros He Hat Hp Hnet Hok Hdata.
  destruct (Register_valid _ _ He Hat Hp) as [Hv1 Hv2].
  assert (Hrun : Register.handleSubmit net email password w
                 = ([Register.setError []; Register.setSuccess false;
                     Register.setLoading true; Register.setSuccess true;
                     Register.onNavigate (js "verify-email");
                     Register.setLoading false],
                    with_sent
                      (fun l => l ++ [register_request email password]) w)).
  { unfold Register.handleSubmit. rewrite Hv1, Hv2. unfold register.
    rewrite (bind_resolved _ _ _ _ _ (fetch_reply _ _ _ _ Hnet)).
    rewrite (handleJsonResponse_ok _ _ _ Hok Hdata). reflexivity. }
  split; [exact Hrun|]. rewrite Hrun.
  split; [reflexivity|]. split; [reflexivity|].
  intros Hcur. unfold App.render, App.handleNavigate. cbn [App.currentUser].
  rewrite Hcur. reflexivity.
Qed.

(** X28 at a 201 answer. *)
Lemma Register_success_leads_to_verification_witness :
  fst (Register.handleSubmit
         (fun _ => Reply (Sample.json_response 201 (js "Created")
                            (Sample.json_text "{'id':1}")))
         (js "a@x.com") (js "password123") (Sample.world ∅))
  = [Register.setError []; Register.setSuccess false; Register.setLoading true;
     Register.setSuccess true; Register.onNavigate (js "verify-email");
     Register.setLoading false]
  /\ App.render (App.handleNavigate (js "verify-email") App.initial)
     = App.VerifyEmailScreen None.
Proof.
  destruct (Register_success_leads_to_verification
              (fun _ => Reply (Sample.json_response 201 (js "Created")
                                 (Sample.json_text "{'id':1}")))
              (js "a@x.com") (js "password123")
              (Sample.json_response 201 (js "Created")
                 (Sample.json_text "{'id':1}"))
              (JObj [(js "id", JNum 1)]) (Sample.world ∅) App.initial)
    as (Hrun & _ & _ & Hrender);
    [discriminate | vm_compute; reflexivity | vm_compute; discriminate
    | reflexivity | reflexivity | vm_compute; reflexivity |].
  split; [rewrite Hrun; reflexivity | apply Hrender; reflexivity].
Defined.

(** *** The login screen on the other error answers *)

Lemma Login_on_error_other (email : jsstring) (err : JsError) (z : Z) :
  err_status err = Some z -> z <> 403%Z -> z <> 429%Z ->
  Login.on_error email err
  = [Login.setError (if nonempty (err_message err) then err_message err
                     else js "Invalid credentials")].
Proof.
  intros Hs H403 H429. unfold Login.on_error. rewrite Hs.
  destruct z as [|p|p]; try reflexivity.
  repeat (destruct p as [p|p|]; try reflexivity; try congruence).
Qed.

(** X29.  On an answer to the login request that is not ok and that
    [handleJsonResponse] can read, the login form shows "Too many attempts,
    please try later" for the status 429, and for a status other than 403 and
    429 the [detail] of the body when that is a string that is not empty (as
    for bad credentials).  In both cases neither [onLogin] nor
    [onRequireVerification] is called and nothing is stored. *)
Theorem Login_shows_rate_limit_and_server_detail
  (net : Network) (email password : jsstring) (res : Response)
  (data : JsValue) (e : JsError) (w : World) :
  email <> [] -> password <> [] ->
  net (login_request email password) = Reply res ->
  res_ok res = false ->
  response_data res = Some data ->
  api_error res data = Returns e ->
  (res_status res = 429%Z ->
   Login.handleSubmit net email password w
   = ([Login.setError []; Login.setLoading true;
       Login.setError (js "Too many attempts, please try later");
       Login.setLoading false],
      with_sent (fun l => l ++ [login_request email password]) w))
  /\ (forall s : jsstring,
         res_status res <> 403%Z -> res_status res <> 429%Z ->
         get_opt data (js "detail") = JStr s -> s <> [] ->
         Login.handleSubmit net email password w
         = ([Login.setError []; Login.setLoading true; Login.setError s;
             Login.setLoading false],
            with_sent (fun l => l ++ [login_request email password]) w)).
Proof.
  intros He Hp Hnet Hok Hdata Herr.
  pose proof (login_rejected _ _ _ _ _ _ w Hnet Hok Hdata Herr) as Hlogin.
  pose proof (api_error_status _ _ _ Herr) as Hstatus.
  assert (Hrun : Login.handleSubmit net email password w
                 = ([Login.setError []; Login.setLoading true]
                    ++ Login.on_error email e ++ [Login.setLoading false],
                    with_sent (fun l => l ++ [login_request email password]) w)).
  { unfold Login.handleSubmit.
    apply nonempty_true in He. apply nonempty_true in Hp.
    rewrite He, Hp, Hlogin. reflexivity. }
  rewrite Hrun. split.
  - intros H429. unfold Login.on_error. rewrite Hstatus, H429. reflexivity.
  - intros s H403 H429 Hdetail Hs.
    rewrite (Login_on_error_other _ _ _ Hstatus H403 H429).
    assert (Htruthy : truthy (JStr s) = true)
      by (destruct s; [congruence | reflexivity]).
    assert (Hmsg : err_message e = s).
    { revert Herr. unfold api_error, js_or. rewrite Hdetail, Htruthy. cbv iota.
      rewrite Htruthy. simpl. intros H. injection H as <-. reflexivity. }
    rewrite Hmsg. apply nonempty_true in Hs. rewrite Hs. reflexivity.
Qed.

(** X29 at a 400 with [{"detail":"Invalid credentials"}] and at a 429. *)
Lemma Login_shows_rate_limit_and_server_detail_witness :
  fst (Login.handleSubmit
         (fun _ =>
            Reply (Sample.json_response 400 (js "Bad Request")
                     (Sample.json_text "{'detail':'Invalid credentials'}")))
         (js "a@x.com") (js "wrong") (Sample.world ∅))
  = [Login.setError []; Login.setLoading true;
     Login.setError (js "Invalid credentials"); Login.setLoading false]
  /\ fst (Login.handleSubmit
            (fun _ =>
               Reply (Sample.json_response 429 (js "Too Many Requests")
                        (Sample.json_text "{'detail':'Slow down'}")))
            (js "a@x.com") (js "wrong") (Sample.world ∅))
     = [Login.setError []; Login.setLoading true;
        Login.setError (js "Too many attempts, please try later");
        Login.setLoading false].
Proof.
  split.
  - destruct (Login_shows_rate_limit_and_server_detail
                (fun _ =>
                   Reply (Sample.json_response 400 (js "Bad Request")
                            (Sample.json_text
                               "{'detail':'Invalid credentials'}")))
                (js "a@x.com") (js "wrong")
                (Sample.json_response 400 (js "Bad Request")
                   (Sample.json_text "{'detail':'Invalid credentials'}"))
                (JObj [(js "detail", JStr (js "Invalid credentials"))])
                {| err_message := js "Invalid credentials";
                   err_status := Some 400%Z;
                   err_data :=
                     JObj [(js "detail", JStr (js "Invalid credentials"))] |}
                (Sample.world ∅)) as [_ Hdetail];
      [discriminate | discriminate | reflexivity | reflexivity
      | vm_compute; reflexivity | vm_compute; reflexivity |].
    rewrite (Hdetail (js "Invalid credentials"));
      [reflexivity | discriminate | discriminate | reflexivity | discriminate].
  - destruct (Login_shows_rate_limit_and_server_detail
                (fun _ =>
                   Reply (Sample.json_response 429 (js "Too Many Requests")
                            (Sample.json_text "{'detail':'Slow down'}")))
                (js "a@x.com") (js "wrong")
                (Sample.json_response 429 (js "Too Many Requests")
                   (Sample.json_text "{'detail':'Slow down'}"))
                (JObj [(js "detail", JStr (js "Slow down"))])
                {| err_message := js "Slow down"; err_status := Some 429%Z;
                   err_data := JObj [(js "detail", JStr (js "Slow down"))] |}
                (Sample.world ∅)) as [Hlimit _];
      [discriminate | discriminate | reflexivity | reflexivity
      | vm_compute; reflexivity | vm_compute; reflexivity |].
    rewrite Hlimit; reflexivity.
Defined.
